(** * omo-switch: merge engine, diff renderer, scope resolver and stores

    A shallow embedding of the TypeScript sources of omo-switch
    (utils/merge-config.ts, utils/scope-resolver.ts, utils/settings.ts,
    utils/backup-cleaner.ts, commands/rm.ts, commands/apply.ts) together
    with the properties its specification states about them. *)

From Stdlib Require Import ZArith String Ascii List Bool Lia DecimalString Sorted.
From stdpp Require Import gmap strings list fin_maps sorting.

Set Warnings "-register-all".

Local Open Scope string_scope.
Local Open Scope Z_scope.
Local Open Scope list_scope.

(** ** JSON documents *)

(** [type JsonValue = string | number | boolean | null | JsonObject | JsonArray].
    Numbers are carried as integers: the merge and the diff never compute
    with them, they copy, compare and print them.  An object is the list of
    its own properties in [Object.keys] order; a JavaScript object never has
    two properties of one name, which [wfValue] records.  This is the type
    of what [JSON.parse] returns. *)
Inductive JsonValue : Type :=
| JNull
| JBool (b : bool)
| JNumber (n : Z)
| JString (s : string)
| JArray (items : list JsonValue)
| JObject (props : list (string * JsonValue)).

Abbreviation JsonObject := (list (string * JsonValue)).

Module Obj.

(** [obj[key]] among the own properties: [None] stands for [undefined]. *)
Fixpoint get {A : Type} (key : string) (o : list (string * A)) : option A :=
  match o with
  | [] => None
  | (k, v) :: rest => if String.eqb k key then Some v else get key rest
  end.

(** [key in obj], among the own properties. *)
Definition has {A : Type} (key : string) (o : list (string * A)) : bool :=
  existsb (String.eqb key) (map fst o).

(** The array index a property name stands for, when it is one: the name
    is the decimal numeral of an integer below [2^32 - 1], as that integer
    prints.  [Object.keys] lists these names first, in ascending order, and
    the other names after them in the order the properties were created. *)
Definition arrayIndex (key : string) : option N :=
  match NilZero.uint_of_string key with
  | Some digits =>
      let n := N.of_uint digits in
      if String.eqb (NilZero.string_of_uint (N.to_uint n)) key && (n <? 4294967295)%N
      then Some n
      else None
  | None => None
  end.

(** A new property [key] is listed before the existing property [k]. *)
Definition precedes (key k : string) : bool :=
  match arrayIndex key, arrayIndex k with
  | Some i, Some j => (i <? j)%N
  | Some _, None => true
  | None, _ => false
  end.

(** Writing a property the object has: the value changes, the place in
    [Object.keys] does not. *)
Fixpoint overwrite {A : Type} (key : string) (v : A) (o : list (string * A))
  : list (string * A) :=
  match o with
  | [] => []
  | (k, x) :: rest =>
      if String.eqb k key then (k, v) :: rest else (k, x) :: overwrite key v rest
  end.

(** Creating a property: an array index goes to its place among the
    indices, any other name to the end. *)
Fixpoint insertNew {A : Type} (key : string) (v : A) (o : list (string * A))
  : list (string * A) :=
  match o with
  | [] => [(key, v)]
  | (k, x) :: rest =>
      if precedes key k then (key, v) :: (k, x) :: rest else (k, x) :: insertNew key v rest
  end.

(** [obj[key] = v] on the own properties of [obj]. *)
Definition set {A : Type} (key : string) (v : A) (o : list (string * A)) : list (string * A) :=
  if has key o then overwrite key v o else insertNew key v o.

(** [Object.keys(obj)]. *)
Definition keys {A : Type} (o : list (string * A)) : list string := map fst o.

(** The names of [l] that are not array indices. *)
Definition names (l : list string) : list string :=
  List.filter (fun k => match arrayIndex k with Some _ => false | None => true end) l.

(** [k1] may come before [k2] in [Object.keys]. *)
Definition before (k1 k2 : string) : Prop :=
  match arrayIndex k1, arrayIndex k2 with
  | Some i, Some j => (i < j)%N
  | Some _, None => True
  | None, Some _ => False
  | None, None => True
  end.

(** A list of property names in an order [Object.keys] can give: no name
    twice, the array indices first and ascending. *)
Definition ordered (l : list string) : Prop := NoDup l /\ StronglySorted before l.

End Obj.

(** Property names are unique, at every depth. *)
Fixpoint wfValue (v : JsonValue) : bool :=
  match v with
  | JArray items => forallb wfValue items
  | JObject props =>
      bool_decide (NoDup (map fst props)) && forallb (fun kv => wfValue (snd kv)) props
  | _ => true
  end.

Definition wfObject (o : JsonObject) : bool := wfValue (JObject o).

(** ** Values at run time *)

(** [deepMerge] and the diff renderer are written for documents, but they
    read with [obj[key]], test with [key in obj] and write with
    [result[key] = v], and all three go through the prototype chain.  So a
    run can meet values that no parser returns: a function that
    [Object.prototype] or [Array.prototype] defines, [Object.prototype]
    itself (what [obj.__proto__] reads), and objects whose prototype was
    replaced by a write to [__proto__].

    [VObject proto props] is an ordinary object: [proto] is its prototype
    ([VObjectPrototype] for an object literal or a parsed object, [VNull]
    for none) and [props] its own properties in [Object.keys] order.  The
    prototype of an array is [Array.prototype].  [VBuiltin home name] is
    the function found under [name] on [Object.prototype] or on
    [Array.prototype]. *)
Inductive Home : Type := OfObject | OfArray.

Inductive Value : Type :=
| VNull
| VBool (b : bool)
| VNumber (n : Z)
| VString (s : string)
| VArray (items : list Value)
| VObject (proto : Value) (props : list (string * Value))
| VObjectPrototype
| VBuiltin (home : Home) (name : string).

(** [{}], and an object literal or parsed object with the properties [props]. *)
Definition obj (props : list (string * Value)) : Value := VObject VObjectPrototype props.

Definition emptyObject : Value := obj [].

(** The functions that [Object.prototype] defines (ECMAScript 2023,
    sections 20.1.3 and B.2.2); none of them is enumerable.  Its one other
    property is the accessor [__proto__]. *)
Definition objectPrototypeMethods : list string :=
  ["constructor"; "__defineGetter__"; "__defineSetter__"; "hasOwnProperty";
   "__lookupGetter__"; "__lookupSetter__"; "isPrototypeOf"; "propertyIsEnumerable";
   "toString"; "valueOf"; "toLocaleString"].

(** The property names of [Object.prototype]. *)
Definition objectPrototypeNames : list string := "__proto__" :: objectPrototypeMethods.

(** The functions that [Array.prototype] defines (ECMAScript 2023, section
    23.1.3); none of them is enumerable. *)
Definition arrayPrototypeMethods : list string :=
  ["constructor"; "at"; "concat"; "copyWithin"; "entries"; "every"; "fill"; "filter";
   "find"; "findIndex"; "findLast"; "findLastIndex"; "flat"; "flatMap"; "forEach";
   "includes"; "indexOf"; "join"; "keys"; "lastIndexOf"; "map"; "pop"; "push";
   "reduce"; "reduceRight"; "reverse"; "shift"; "slice"; "some"; "sort"; "splice";
   "toLocaleString"; "toReversed"; "toSorted"; "toSpliced"; "toString"; "unshift";
   "values"; "with"].

Definition isOneOf (names : list string) (key : string) : bool :=
  existsb (String.eqb key) names.

(** What a walk up the prototype chain finds under a name: a data
    property, the accessor [__proto__] of [Object.prototype], or nothing. *)
Inductive Found : Type :=
| Data (value : Value)
| Accessor
| Missing.

(** The walk, at [Object.prototype], where it ends. *)
Definition lookupObjectPrototype (key : string) : Found :=
  if String.eqb key "__proto__" then Accessor
  else if isOneOf objectPrototypeMethods key then Data (VBuiltin OfObject key)
  else Missing.

(** The walk from [v] upwards.  An array has its elements and [length],
    then what [Array.prototype] and [Object.prototype] define. *)
Fixpoint lookup (v : Value) (key : string) : Found :=
  match v with
  | VObject proto props =>
      match Obj.get key props with
      | Some value => Data value
      | None => lookup proto key
      end
  | VArray items =>
      match Obj.arrayIndex key with
      | Some i =>
          match nth_error items (N.to_nat i) with
          | Some value => Data value
          | None => lookupObjectPrototype key
          end
      | None =>
          if String.eqb key "length" then Data (VNumber (Z.of_nat (length items)))
          else if isOneOf arrayPrototypeMethods key then Data (VBuiltin OfArray key)
          else lookupObjectPrototype key
      end
  | VObjectPrototype => lookupObjectPrototype key
  | _ => Missing
  end.

(** [Object.getPrototypeOf(v)], for an object that is not an array. *)
Definition prototypeOf (v : Value) : Value :=
  match v with
  | VObject proto _ => proto
  | _ => VNull
  end.

(** [obj[key]]: [None] stands for [undefined].  The getter of [__proto__]
    returns the prototype of the object the read started from. *)
Definition getProp (object : Value) (key : string) : option Value :=
  match lookup object key with
  | Data value => Some value
  | Accessor => Some (prototypeOf object)
  | Missing => None
  end.

(** [key in obj] *)
Definition hasProp (object : Value) (key : string) : bool :=
  match lookup object key with
  | Missing => false
  | _ => true
  end.

(** The setter of [__proto__] acts on an object or [null] and ignores
    every other value. *)
Definition isObjectOrNull (value : Value) : bool :=
  match value with
  | VBool _ | VNumber _ | VString _ => false
  | _ => true
  end.

(** [result[key] = value], for an ordinary object [result].  A property
    of [result] itself is overwritten.  Otherwise the prototype chain
    decides: when the name leads to the accessor [__proto__], its setter
    runs and replaces the prototype of [result], or does nothing; in every
    other case [result] gets a new property (all data properties met on the
    way are writable). *)
Definition setProp (key : string) (value : Value) (result : Value) : Value :=
  match result with
  | VObject proto props =>
      if Obj.has key props then VObject proto (Obj.set key value props)
      else
        match lookup proto key with
        | Accessor => if isObjectOrNull value then VObject value props else result
        | _ => VObject proto (Obj.set key value props)
        end
  | _ => result
  end.

(** The own enumerable properties, as [Object.keys] lists them, of an
    object that is not an array: [Object.prototype] has none. *)
Definition ownEntries (object : Value) : list (string * Value) :=
  match object with
  | VObject _ props => props
  | _ => []
  end.

(** ** utils/merge-config.ts: the merge engine *)

(** [typeof value === "object" && value !== null && !Array.isArray(value)] *)
Definition isPlainObject (value : option Value) : bool :=
  match value with
  | Some (VObject _ _) | Some VObjectPrototype => true
  | _ => false
  end.

(** [value[key]] is read for the keys of [Object.keys(value)], so it is an
    own property. *)
Fixpoint deepClone (value : Value) : Value :=
  match value with
  | VArray items => VArray (map deepClone items)
  | VObject _ props =>
      fold_left (fun result kv => setProp (fst kv) (deepClone (snd kv)) result)
                props emptyObject
  | VObjectPrototype => emptyObject
  | _ => value
  end.

(** The two loops of [deepMerge], with the recursive call on a pair of
    plain objects left open as [recur]; [baseEntries] are the properties
    that [Object.keys(baseObj)] lists, with [baseObj[key]] for each. *)
Definition mergeLoops (recur : Value -> Value -> Value)
    (baseEntries : list (string * Value)) (baseObj overrideObj : Value) : Value :=
  let result :=
    fold_left
      (fun result kv =>
         let key := fst kv in
         let baseVal := snd kv in
         match getProp overrideObj key with
         | None => setProp key (deepClone baseVal) result
         | Some overrideVal =>
             if isPlainObject (Some baseVal) && isPlainObject (Some overrideVal)
             then setProp key (recur baseVal overrideVal) result
             else setProp key (deepClone overrideVal) result
         end)
      baseEntries emptyObject in
  fold_left
    (fun result kv =>
       if negb (hasProp baseObj (fst kv))
       then setProp (fst kv) (deepClone (snd kv)) result
       else result)
    (ownEntries overrideObj) result.

(** [deepMerge(base, override)], for [base] and [override] of the type
    [JsonObject] the source casts them to, objects that are not arrays: the
    documents the callers pass, and the values [isPlainObject] accepted
    further down. *)
Fixpoint deepMerge (base override : Value) {struct base} : Value :=
  match base with
  | VObject _ props => mergeLoops deepMerge props base override
  | _ => mergeLoops (fun _ overrideVal => overrideVal) [] base override
  end.

(** ** utils/merge-config.ts: the diff renderer *)

Module Str.

(** [s.repeat(n)] *)
Fixpoint repeat (s : string) (n : nat) : string :=
  match n with
  | O => EmptyString
  | S m => s +:+ repeat s m
  end.

(** [parts.join(sep)] *)
Fixpoint join (sep : string) (parts : list string) : string :=
  match parts with
  | [] => EmptyString
  | [p] => p
  | p :: rest => p +:+ sep +:+ join sep rest
  end.

Definition nl : string := String (ascii_of_nat 10) EmptyString.

(** The double quote character. *)
Definition dq : string := String (ascii_of_nat 34) EmptyString.

(** [haystack.includes(needle)] *)
Fixpoint includes (needle haystack : string) : bool :=
  String.prefix needle haystack ||
  match haystack with
  | EmptyString => false
  | String _ rest => includes needle rest
  end.

(** [String(n)] for an integer [n]. *)
Definition ofNumber (n : Z) : string := NilZero.string_of_int (Z.to_int n).

Definition hexDigit (n : nat) : ascii :=
  ascii_of_nat (if Nat.ltb n 10 then 48 + n else 87 + n).

(** One character of a string literal as [JSON.stringify] writes it. *)
Definition escapeChar (c : ascii) : string :=
  let n := nat_of_ascii c in
  if Nat.eqb n 34 then "\" +:+ dq
  else if Nat.eqb n 92 then "\\"
  else if Nat.eqb n 8 then "\b"
  else if Nat.eqb n 9 then "\t"
  else if Nat.eqb n 10 then "\n"
  else if Nat.eqb n 12 then "\f"
  else if Nat.eqb n 13 then "\r"
  else if Nat.ltb n 32
       then "\u00" +:+ String (hexDigit (Nat.div n 16)) (String (hexDigit (Nat.modulo n 16)) EmptyString)
  else String c EmptyString.

Fixpoint escape (s : string) : string :=
  match s with
  | EmptyString => EmptyString
  | String c rest => escapeChar c +:+ escape rest
  end.

(** [JSON.stringify(s)] for a string [s]. *)
Definition quote (s : string) : string := dq +:+ escape s +:+ dq.

(** Insertion into a list sorted by code-unit order, as [Array.prototype.sort]
    orders strings when no comparator is given. *)
Fixpoint insertSorted (x : string) (l : list string) : list string :=
  match l with
  | [] => [x]
  | y :: rest => if String.leb x y then x :: l else y :: insertSorted x rest
  end.

(** [keys.sort()] *)
Definition sort (l : list string) : list string := fold_right insertSorted [] l.

(** [Array.from(new Set(l))]: first occurrences, in order. *)
Fixpoint unique (seen l : list string) : list string :=
  match l with
  | [] => []
  | x :: rest =>
      if existsb (String.eqb x) seen then unique seen rest
      else x :: unique (x :: seen) rest
  end.

End Str.

(** [JSON.stringify(value)], without indentation. *)
Fixpoint stringify (value : JsonValue) : string :=
  match value with
  | JNull => "null"
  | JBool true => "true"
  | JBool false => "false"
  | JNumber n => Str.ofNumber n
  | JString s => Str.quote s
  | JArray items => "[" +:+ Str.join "," (map stringify items) +:+ "]"
  | JObject props =>
      "{" +:+ Str.join "," (map (fun kv => Str.quote (fst kv) +:+ ":" +:+ stringify (snd kv)) props)
          +:+ "}"
  end.

(** [JSON.stringify(value)] at run time: [None] stands for [undefined],
    which is what a function gives.  Inside an array such an element is
    written [null]; inside an object the property is left out.  Only own
    enumerable properties are written.  No value below has a method
    [toJSON]: the functions a run can meet sit under the names of
    [objectPrototypeMethods] and [arrayPrototypeMethods]. *)
Fixpoint stringifyValue (value : Value) : option string :=
  match value with
  | VNull => Some "null"
  | VBool true => Some "true"
  | VBool false => Some "false"
  | VNumber n => Some (Str.ofNumber n)
  | VString s => Some (Str.quote s)
  | VArray items =>
      Some ("[" +:+ Str.join "," (map (fun v => default "null" (stringifyValue v)) items)
                +:+ "]")
  | VObject _ props =>
      Some ("{" +:+ Str.join ","
                      (omap (fun kv =>
                               option_map (fun text => Str.quote (fst kv) +:+ ":" +:+ text)
                                          (stringifyValue (snd kv)))
                            props)
                +:+ "}")
  | VObjectPrototype => Some "{}"
  | VBuiltin _ _ => None
  end.

(** [JSON.stringify] of a value that may be [undefined] is then [undefined]. *)
Definition stringifyOpt (value : option Value) : option string :=
  match value with
  | Some v => stringifyValue v
  | None => None
  end.

Inductive DiffType : Type := unchanged | added | removed | modified.

Record DiffLine : Type := mkDiffLine {
  type : DiffType;
  key : string;
  path : string;
  globalValue : option Value;
  projectValue : option Value;
  mergedValue : option Value
}.

(** [pathPrefix ? `${pathPrefix}.${key}` : key] *)
Definition joinPath (pathPrefix key : string) : string :=
  match pathPrefix with
  | EmptyString => key
  | _ => pathPrefix +:+ "." +:+ key
  end.

(** The body of [collectDiffLines], with the recursive call on the values
    of a key that holds a plain object in [global] and in [merged] left
    open as [recur]. *)
Definition collectLevel
    (recur : Value -> Value -> Value -> string -> list DiffLine)
    (global merged project : Value) (pathPrefix : string) : list DiffLine :=
  let allKeys :=
    Str.unique [] (Obj.keys (ownEntries global) ++ Obj.keys (ownEntries merged)
                   ++ Obj.keys (ownEntries project)) in
  map
    (fun key =>
       let currentPath := joinPath pathPrefix key in
       let globalVal := getProp global key in
       let mergedVal := getProp merged key in
       let projectVal := getProp project key in
       let inGlobal := hasProp global key in
       let inProject := hasProp project key in
       if isPlainObject globalVal && isPlainObject mergedVal then
         let nestedProject :=
           if isPlainObject projectVal then default emptyObject projectVal else emptyObject in
         let nestedDiff :=
           recur (default emptyObject globalVal) (default emptyObject mergedVal)
                 nestedProject currentPath in
         if Nat.ltb 0 (length nestedDiff) then
           mkDiffLine (if inProject then modified else unchanged) key currentPath
                      globalVal projectVal mergedVal
         else
           mkDiffLine unchanged key currentPath None None mergedVal
       else if inProject && negb inGlobal then
         mkDiffLine added key currentPath None projectVal mergedVal
       else if inProject && inGlobal then
         if negb (bool_decide (stringifyOpt globalVal = stringifyOpt projectVal)) then
           mkDiffLine modified key currentPath globalVal projectVal mergedVal
         else
           mkDiffLine unchanged key currentPath None None mergedVal
       else
         mkDiffLine unchanged key currentPath globalVal None mergedVal)
    (Str.sort allKeys).

(** How deep a value nests. *)
Fixpoint height (v : Value) : nat :=
  match v with
  | VArray items => S (list_max (map height items))
  | VObject proto props =>
      S (Nat.max (height proto) (list_max (map (fun kv => height (snd kv)) props)))
  | _ => O
  end.

(** [collectDiffLines] with its nested calls cut off below [depth] levels. *)
Fixpoint collectDiffLinesTo (depth : nat) (global merged project : Value)
    (pathPrefix : string) : list DiffLine :=
  match depth with
  | O => []
  | S d => collectLevel (collectDiffLinesTo d) global merged project pathPrefix
  end.

(** [collectDiffLines(global, merged, project, pathPrefix)].  A nested
    call is made on a value read from [global], which nests less deep than
    [global] does, so no call is cut off ([collectDiffLines_unfold]). *)
Definition collectDiffLines (global merged project : Value) (pathPrefix : string)
  : list DiffLine :=
  collectDiffLinesTo (S (height global)) global merged project pathPrefix.

(** [String(f)] for a built-in function, as V8 prints it. *)
Definition nativeText (home : Home) (name : string) : string :=
  let functionName :=
    if String.eqb name "constructor"
    then match home with OfObject => "Object" | OfArray => "Array" end
    else name in
  "function " +:+ functionName +:+ "() { [native code] }".

(** [formatJsonValue(value, indentLevel)] for a value that is not [undefined]. *)
Fixpoint formatJson (value : Value) (indentLevel : nat) : string :=
  match value with
  | VNull => "null"
  | VString s => Str.quote s
  | VNumber n => Str.ofNumber n
  | VBool true => "true"
  | VBool false => "false"
  | VArray [] => "[]"
  | VArray items =>
      let items := map (fun v => formatJson v (indentLevel + 1)) items in
      if Nat.ltb (String.length (Str.join ", " items)) 60 then
        "[" +:+ Str.join ", " items +:+ "]"
      else
        let indent := Str.repeat "  " (indentLevel + 1) in
        let closeIndent := Str.repeat "  " indentLevel in
        "[" +:+ Str.nl +:+ Str.join ("," +:+ Str.nl) (map (fun item => indent +:+ item) items)
            +:+ Str.nl +:+ closeIndent +:+ "]"
  | VObject _ [] => "{}"
  | VObject _ props =>
      let pairs :=
        map (fun kv => Str.dq +:+ fst kv +:+ Str.dq +:+ ": " +:+ formatJson (snd kv) (indentLevel + 1))
            props in
      if Nat.ltb (String.length (Str.join ", " pairs)) 60 then
        "{ " +:+ Str.join ", " pairs +:+ " }"
      else
        let indent := Str.repeat "  " (indentLevel + 1) in
        let closeIndent := Str.repeat "  " indentLevel in
        "{" +:+ Str.nl +:+ Str.join ("," +:+ Str.nl) (map (fun pair => indent +:+ pair) pairs)
            +:+ Str.nl +:+ closeIndent +:+ "}"
  | VObjectPrototype => "{}"
  | VBuiltin home name => nativeText home name
  end.

Definition formatJsonValue (value : option Value) (indentLevel : nat) : string :=
  match value with
  | None => "undefined"
  | Some v => formatJson v indentLevel
  end.

(** The three colouring functions of chalk that the renderer calls. *)
Record Chalk : Type := {
  gray : string -> string;
  green : string -> string;
  red : string -> string
}.

(** chalk with colours off, as under the test suite's mock. *)
Definition plainChalk : Chalk := {| gray := id; green := id; red := id |}.

Fixpoint formatDiffLines (chalk : Chalk) (diffLines : list DiffLine) (indentLevel : nat)
  : list string :=
  match diffLines with
  | [] => []
  | diff :: rest =>
      let indent := Str.repeat "  " indentLevel in
      let comma := match rest with [] => EmptyString | _ => "," end in
      let label := Str.dq +:+ key diff +:+ Str.dq +:+ ": " in
      (match type diff with
       | added =>
           let valueStr := formatJsonValue (mergedValue diff) indentLevel in
           [green chalk (indent +:+ "+ " +:+ label +:+ valueStr +:+ comma)
              +:+ gray chalk " // [project]"]
       | modified =>
           let globalStr := formatJsonValue (globalValue diff) indentLevel in
           let projectStr := formatJsonValue (mergedValue diff) indentLevel in
           [red chalk (indent +:+ "- " +:+ label +:+ globalStr) +:+ gray chalk " // [global]";
            green chalk (indent +:+ "+ " +:+ label +:+ projectStr +:+ comma)
              +:+ gray chalk " // [project]"]
       | _ =>
           let valueStr := formatJsonValue (mergedValue diff) indentLevel in
           [indent +:+ label +:+ valueStr +:+ comma]
       end) ++ formatDiffLines chalk rest indentLevel
  end.

Definition generateDiffOutput (chalk : Chalk) (global merged projectOverrides : Value)
  : string :=
  let header :=
    [gray chalk "// Merged configuration (project overrides global)";
     gray chalk ("// " +:+ Str.repeat "-" 50);
     "{"] in
  let diffLines := collectDiffLines global merged projectOverrides EmptyString in
  let formattedLines := formatDiffLines chalk diffLines 1 in
  Str.join Str.nl (header ++ formattedLines ++ ["}"]).

(** ** Documents, and the merge contract in the specification's words *)

#[global] Instance before_dec : RelDecision Obj.before.
Proof.
  intros k1 k2. unfold Obj.before.
  destruct (Obj.arrayIndex k1), (Obj.arrayIndex k2); apply _.
Defined.

#[global] Instance ordered_dec (l : list string) : Decision (Obj.ordered l).
Proof. unfold Obj.ordered. apply _. Defined.

(** A document as the parser returns it: objects with the prototype of an
    object literal and their properties in an order [Object.keys] can give,
    arrays, strings, numbers, booleans and [null]. *)
Fixpoint isDocument (v : Value) : bool :=
  match v with
  | VArray items => forallb isDocument items
  | VObject VObjectPrototype props =>
      bool_decide (Obj.ordered (Obj.keys props))
      && forallb (fun kv => isDocument (snd kv)) props
  | VObject _ _ | VObjectPrototype | VBuiltin _ _ => false
  | _ => true
  end.

(** No property of the document, at any depth, has a name that
    [Object.prototype] defines. *)
Fixpoint plainNames (v : Value) : bool :=
  match v with
  | VArray items => forallb plainNames items
  | VObject _ props =>
      forallb (fun kv => negb (isOneOf objectPrototypeNames (fst kv)) && plainNames (snd kv))
              props
  | _ => true
  end.

(** A document without such names. *)
Definition plainDocument (v : Value) : bool := isDocument v && plainNames v.

(** The value the merged document holds at a key, given what [base] and
    [override] hold there: a key only in [base] keeps its value; two plain
    documents are merged recursively; otherwise [override] wins; a key only
    in [override] is copied; a key in neither is absent. *)
Definition specMergedProperty (baseVal overrideVal : option Value) : option Value :=
  match baseVal, overrideVal with
  | Some bv, None => Some bv
  | Some bv, Some ov =>
      if isPlainObject (Some bv) && isPlainObject (Some ov) then Some (deepMerge bv ov)
      else Some ov
  | None, Some ov => Some ov
  | None, None => None
  end.

(** What the first loop of [deepMerge] writes at a key of [base]. *)
Definition mergeProp (baseVal : Value) (overrideVal : option Value) : Value :=
  match overrideVal with
  | None => deepClone baseVal
  | Some ov =>
      if isPlainObject (Some baseVal) && isPlainObject (Some ov)
      then deepMerge baseVal ov
      else deepClone ov
  end.

(** No key path holds a plain document in both [a] and [c] while [b] holds
    something that is not a plain document there. *)
Fixpoint shapesAgree (a b c : Value) {struct a} : bool :=
  match a with
  | VObject _ props =>
      forallb
        (fun kv =>
           match snd kv, getProp b (fst kv), getProp c (fst kv) with
           | VObject _ _, Some (VObject bp bo), Some (VObject cp co) =>
               shapesAgree (snd kv) (VObject bp bo) (VObject cp co)
           | VObject _ _, Some _, Some (VObject _ _) => false
           | _, _, _ => true
           end)
        props
  | _ => true
  end.

(** [mergeProp] with the clones read as the values they copy. *)
Definition pickMerged (baseVal : Value) (overrideVal : option Value) : Value :=
  match overrideVal with
  | None => baseVal
  | Some ov =>
      if isPlainObject (Some baseVal) && isPlainObject (Some ov) then deepMerge baseVal ov
      else ov
  end.

(** The properties of [deepMerge(base, override)] when the two are
    documents with the properties [a] and [b] and none of the names is
    one that [Object.prototype] defines ([deepMerge_obj]). *)
Definition mergedProps (a b : list (string * Value)) : list (string * Value) :=
  fold_left
    (fun result kv =>
       if negb (Obj.has (fst kv) a) then Obj.set (fst kv) (snd kv) result else result)
    b
    (map (fun kv => (fst kv, pickMerged (snd kv) (Obj.get (fst kv) b))) a).

(** ** Sample documents *)

Module Samples.

(** [{ config: { a: 1 } }] *)
Definition nestedConfig : Value := obj [("config", obj [("a", VNumber 1)])].

(** [{ items: ["a", "b"] }] and [{ items: ["c"] }] *)
Definition itemsAB : Value := obj [("items", VArray [VString "a"; VString "b"])].
Definition itemsC : Value := obj [("items", VArray [VString "c"])].

(** [{ a: 1, n: { x: 1 }, list: [1], s: "old" }] *)
Definition baseDoc : Value :=
  obj [("a", VNumber 1); ("n", obj [("x", VNumber 1)]); ("list", VArray [VNumber 1]);
       ("s", VString "old")].

(** [{ n: { y: 2 }, list: [2, 3], s: null, z: true }] *)
Definition overrideDoc : Value :=
  obj [("n", obj [("y", VNumber 2)]); ("list", VArray [VNumber 2; VNumber 3]);
       ("s", VNull); ("z", VBool true)].

(** [{ k: { x: 1 } }], [{ k: 5 }] and [{ k: { y: 2 } }] *)
Definition docA : Value := obj [("k", obj [("x", VNumber 1)])].
Definition docB : Value := obj [("k", VNumber 5)].
Definition docC : Value := obj [("k", obj [("y", VNumber 2)])].

(** [{ k: { x: 1 }, p: 1 }], [{ k: { x: 2, w: [] }, q: 2 }] and [{ k: { y: 3 }, p: {} }] *)
Definition docA' : Value := obj [("k", obj [("x", VNumber 1)]); ("p", VNumber 1)].
Definition docB' : Value :=
  obj [("k", obj [("x", VNumber 2); ("w", VArray [])]); ("q", VNumber 2)].
Definition docC' : Value := obj [("k", obj [("y", VNumber 3)]); ("p", obj [])].

(** [{ "2": "two", b: 1 }] and [{ "10": "ten", a: 2, "1": "one" }], as the
    parser returns them: [{ "2": "two", b: 1 }] and
    [{ "1": "one", "10": "ten", a: 2 }]. *)
Definition indexedBase : Value := obj [("2", VString "two"); ("b", VNumber 1)].
Definition indexedOverride : Value :=
  obj [("1", VString "one"); ("10", VString "ten"); ("a", VNumber 2)].

(** [{}] and [{ "toString": 1 }]; [{ "constructor": 1 }]. *)
Definition onlyToString : Value := obj [("toString", VNumber 1)].
Definition onlyConstructor : Value := obj [("constructor", VNumber 1)].

(** [{ "__proto__": [1] }] and [{ "__proto__": 5 }], as [JSON.parse]
    returns them: [__proto__] is a property of the object itself. *)
Definition protoList : Value := obj [("__proto__", VArray [VNumber 1])].
Definition protoFive : Value := obj [("__proto__", VNumber 5)].

End Samples.

(** ** The host: file system, console, process *)

Module Fs.

(** An absolute, normalised path: the file system root, or an entry of a
    directory.  [path.dirname] is [dirname], [path.join(p, name)] is
    [Child p name]. *)
Inductive Path : Type :=
| Root
| Child (parent : Path) (name : string).

Definition dirname (p : Path) : Path :=
  match p with
  | Root => Root
  | Child parent _ => parent
  end.

(** [path.join(p, ...names)] *)
Definition join (p : Path) (names : list string) : Path := fold_left Child names p.

(** The entry names of a path, innermost first. *)
Fixpoint segments (p : Path) : list string :=
  match p with
  | Root => []
  | Child parent name => name :: segments parent
  end.

Fixpoint ofSegments (names : list string) : Path :=
  match names with
  | [] => Root
  | name :: rest => Child (ofSegments rest) name
  end.

(** A path as the caller writes it: absolute, or relative to the working
    directory. *)
Inductive PathArg : Type :=
| Absolute (p : Path)
| Relative (names : list string).

(** [path.resolve(arg)] *)
Definition resolve (cwd : Path) (arg : PathArg) : Path :=
  match arg with
  | Absolute p => p
  | Relative names => join cwd names
  end.

Inductive Node : Type :=
| File (content : string) (mtimeMs : Z)
| Dir.

(** The calls of Node's [fs] module that the program makes. *)
Inductive Op : Type := OpStat | OpReaddir | OpUnlink | OpRead | OpWrite | OpMkdir | OpCopy.

(** What the program prints: the spinner and the console. *)
Inductive Event : Type :=
| SpinnerText (text : string)
| SpinnerStart
| SpinnerStop
| SpinnerFail (text : string)
| SpinnerSucceed (text : string)
| ConsoleLog (text : string)
| ConsoleError (text : string).

End Fs.

Import Fs.

#[global] Instance Path_eq_dec : EqDecision Path.
Proof. solve_decision. Defined.

#[global] Instance Path_countable : Countable Path.
Proof.
  apply (inj_countable' segments ofSegments).
  intros p. induction p as [ | parent IH name ]; simpl; congruence.
Defined.

#[global] Instance Node_eq_dec : EqDecision Node.
Proof. solve_decision. Defined.

(** The mutable world: the file tree and what was printed so far.  The
    root directory is always there and is not stored. *)
Record World : Type := mkWorld {
  nodes : gmap Path Node;
  output : list Event
}.

(** How a call ends: it returns, it throws, or it ends the process with
    [process.exit(code)]. *)
Inductive Outcome (A : Type) : Type :=
| Returned (a : A)
| Thrown (message : string)
| Exited (code : Z).

Arguments Returned {A} a.
Arguments Thrown {A} message.
Arguments Exited {A} code.

(** A computation that reads and writes the world.  What it wrote before
    throwing stays written. *)
Definition Eff (A : Type) : Type := World -> Outcome A * World.

Definition ret {A : Type} (a : A) : Eff A := fun w => (Returned a, w).

Definition throw {A : Type} (message : string) : Eff A := fun w => (Thrown message, w).

(** [process.exit(code)] *)
Definition exit {A : Type} (code : Z) : Eff A := fun w => (Exited code, w).

Definition bind {A B : Type} (m : Eff A) (k : A -> Eff B) : Eff B :=
  fun w =>
    match m w with
    | (Returned a, w') => k a w'
    | (Thrown e, w') => (Thrown e, w')
    | (Exited c, w') => (Exited c, w')
    end.

(** [try { m } catch (e) { handler(e) }] *)
Definition tryCatch {A : Type} (m : Eff A) (handler : string -> Eff A) : Eff A :=
  fun w =>
    match m w with
    | (Thrown e, w') => handler e w'
    | r => r
    end.

Notation "'let!' x := m 'in' k" := (bind m (fun x => k))
  (at level 10, x name, m at level 100, k at level 200, only parsing).

Definition emit (e : Event) : Eff unit :=
  fun w => (Returned tt, mkWorld (nodes w) (output w ++ [e])).

(** What does not change while one command runs: the process environment,
    the clock, and the collaborators the program calls but does not
    define. *)
Record Env : Type := {
  (** [process.cwd()] *)
  cwd : Path;
  (** [os.homedir()] *)
  homedir : Path;
  (** [process.env.XDG_CONFIG_HOME], when set and not empty *)
  XDG_CONFIG_HOME : option Path;
  (** [os.platform() === "win32"], [process.env.USERPROFILE] and
      [process.env.APPDATA] *)
  isWindows : bool;
  USERPROFILE : option Path;
  APPDATA : option Path;
  (** [path.resolve(__dirname, "../../../")], where the package is installed *)
  packageRoot : Path;
  (** [Date.now()] *)
  nowMs : Z;
  (** [new Date().toISOString()] *)
  nowISO : string;
  (** [denied op p]: the call [op] on [p] fails (permissions, I/O error) *)
  denied : Op -> Path -> bool;
  (** [JSON.parse]; [None] when it throws *)
  JSON_parse : string -> option JsonValue;
  (** [JSON5.parse]; [None] when it throws *)
  JSON5_parse : string -> option JsonValue;
  (** the body of the answer to an HTTP GET of a URL; [None] when the
      request fails or the status is not 200 *)
  httpGet : string -> option string;
  (** chalk *)
  colours : Chalk;
  (** the answer typed at a [confirm] prompt *)
  confirmAnswer : string -> bool;
  (** [ajv.compile(schema)]: [None] when it throws, else the validating
      function with the messages of its [errors] *)
  ajvCompile : JsonValue -> option (JsonValue -> bool * list string)
}.

Section HostCalls.

Variable env : Env.

Definition lookupNode (w : World) (p : Path) : option Node :=
  match p with
  | Root => Some Dir
  | _ => nodes w !! p
  end.

(** [fs.existsSync(p)] *)
Definition existsSync (p : Path) : Eff bool :=
  fun w => (Returned (match lookupNode w p with Some _ => true | None => false end), w).

(** [fs.statSync(p)] *)
Definition statSync (p : Path) : Eff Node :=
  fun w =>
    if denied env OpStat p then (Thrown "EACCES", w)
    else match lookupNode w p with
         | Some n => (Returned n, w)
         | None => (Thrown "ENOENT", w)
         end.

Definition isDirectory (n : Node) : bool :=
  match n with
  | Dir => true
  | File _ _ => false
  end.

(** The [mtimeMs] of a stat result; a directory's is not looked at. *)
Definition mtimeOf (n : Node) : Z :=
  match n with
  | File _ m => m
  | Dir => 0
  end.

(** The name of [p] when it is an entry of [dir]. *)
Definition entryName (dir p : Path) : option string :=
  match p with
  | Child parent name => if bool_decide (parent = dir) then Some name else None
  | Root => None
  end.

Definition entriesOf (w : World) (dir : Path) : list string :=
  omap (fun kv => entryName dir (fst kv)) (map_to_list (nodes w)).

(** [fs.readdirSync(p)] *)
Definition readdirSync (p : Path) : Eff (list string) :=
  fun w =>
    if denied env OpReaddir p then (Thrown "EACCES", w)
    else match lookupNode w p with
         | Some Dir => (Returned (entriesOf w p), w)
         | Some (File _ _) => (Thrown "ENOTDIR", w)
         | None => (Thrown "ENOENT", w)
         end.

(** [fs.unlinkSync(p)] *)
Definition unlinkSync (p : Path) : Eff unit :=
  fun w =>
    if denied env OpUnlink p then (Thrown "EACCES", w)
    else match nodes w !! p with
         | Some (File _ _) => (Returned tt, mkWorld (delete p (nodes w)) (output w))
         | Some Dir => (Thrown "EISDIR", w)
         | None => (Thrown "ENOENT", w)
         end.

(** [fs.readFileSync(p, "utf-8")] *)
Definition readFileSync (p : Path) : Eff string :=
  fun w =>
    if denied env OpRead p then (Thrown "EACCES", w)
    else match lookupNode w p with
         | Some (File content _) => (Returned content, w)
         | Some Dir => (Thrown "EISDIR", w)
         | None => (Thrown "ENOENT", w)
         end.

(** [fs.writeFileSync(p, content, "utf-8")] *)
Definition writeFileSync (p : Path) (content : string) : Eff unit :=
  fun w =>
    if denied env OpWrite p then (Thrown "EACCES", w)
    else match p with
         | Root => (Thrown "EISDIR", w)
         | Child parent _ =>
             match lookupNode w parent, nodes w !! p with
             | Some Dir, Some Dir => (Thrown "EISDIR", w)
             | Some Dir, _ =>
                 (Returned tt, mkWorld (<[p := File content (nowMs env)]> (nodes w)) (output w))
             | _, _ => (Thrown "ENOENT", w)
             end
         end.

(** The tree after [mkdir -p p], or [None] when a file is in the way. *)
Fixpoint mkdirp (p : Path) (tree : gmap Path Node) : option (gmap Path Node) :=
  match p with
  | Root => Some tree
  | Child parent _ =>
      match mkdirp parent tree with
      | None => None
      | Some tree' =>
          match tree' !! p with
          | None => Some (<[p := Dir]> tree')
          | Some Dir => Some tree'
          | Some (File _ _) => None
          end
      end
  end.

(** [fs.mkdirSync(p, { recursive: true })] *)
Definition mkdirSync (p : Path) : Eff unit :=
  fun w =>
    if denied env OpMkdir p then (Thrown "EACCES", w)
    else match mkdirp p (nodes w) with
         | Some tree => (Returned tt, mkWorld tree (output w))
         | None => (Thrown "EEXIST", w)
         end.

(** [fs.copyFileSync(src, dest)] *)
Definition copyFileSync (src dest : Path) : Eff unit :=
  fun w =>
    if denied env OpCopy src then (Thrown "EACCES", w)
    else (let! content := readFileSync src in writeFileSync dest content) w.

(** [JSON.parse(text)] *)
Definition jsonParse (text : string) : Eff JsonValue :=
  match JSON_parse env text with
  | Some v => ret v
  | None => throw "SyntaxError"
  end.

End HostCalls.

(** [JSON.stringify(value, null, 2)]; [level] counts the enclosing
    arrays and objects. *)
Fixpoint stringifyIndented (value : JsonValue) (level : nat) : string :=
  match value with
  | JNull => "null"
  | JBool true => "true"
  | JBool false => "false"
  | JNumber n => Str.ofNumber n
  | JString s => Str.quote s
  | JArray [] => "[]"
  | JArray items =>
      let inner := Str.repeat "  " (level + 1) in
      "[" +:+ Str.nl
          +:+ Str.join ("," +:+ Str.nl)
                (map (fun v => inner +:+ stringifyIndented v (level + 1)) items)
          +:+ Str.nl +:+ Str.repeat "  " level +:+ "]"
  | JObject [] => "{}"
  | JObject props =>
      let inner := Str.repeat "  " (level + 1) in
      "{" +:+ Str.nl
          +:+ Str.join ("," +:+ Str.nl)
                (map (fun kv => inner +:+ Str.quote (fst kv) +:+ ": "
                                      +:+ stringifyIndented (snd kv) (level + 1)) props)
          +:+ Str.nl +:+ Str.repeat "  " level +:+ "}"
  end.

Definition stringifyPretty (value : JsonValue) : string := stringifyIndented value 0.

(** JavaScript truthiness of a JSON value. *)
Definition truthy (value : JsonValue) : bool :=
  match value with
  | JNull => false
  | JBool b => b
  | JNumber n => negb (Z.eqb n 0)
  | JString EmptyString => false
  | _ => true
  end.

(** [value.name] for a value that is not [null]: [None] is [undefined].
    Only objects carry named properties of their own. *)
Definition field (value : JsonValue) (name : string) : option JsonValue :=
  match value with
  | JObject props => Obj.get name props
  | _ => None
  end.

(** The own enumerable properties an object spread [...value] copies. *)
Definition ownProps (value : JsonValue) : JsonObject :=
  match value with
  | JObject props => props
  | JArray items =>
      map (fun ix => (Str.ofNumber (Z.of_nat (fst ix)), snd ix))
          (combine (seq 0 (length items)) items)
  | JString s =>
      map (fun ix => (Str.ofNumber (Z.of_nat (fst ix)),
                      JString (String (snd ix) EmptyString)))
          (combine (seq 0 (String.length s)) (list_ascii_of_string s))
  | _ => []
  end.

(** The object literal [{ ...s1, ...s2, ... }]. *)
Definition spread (sources : list JsonObject) : JsonObject :=
  fold_left
    (fun result source =>
       fold_left (fun result kv => Obj.set (fst kv) (snd kv) result) source result)
    sources [].

(** ** utils/scope-resolver.ts *)

Definition OPENCODE_DIR : string := ".opencode".
Definition OMO_CONFIGS_DIR : string := "omo-configs".
Definition TARGET_CONFIG_FILE : string := "oh-my-opencode.jsonc".
Definition PROJECT_RC_FILE : string := ".omorc".

Definition getProjectConfigsPath (projectRoot : Path) : Path :=
  Fs.join projectRoot [OPENCODE_DIR; OMO_CONFIGS_DIR].

Definition getProjectTargetPath (projectRoot : Path) : Path :=
  Fs.join projectRoot [OPENCODE_DIR; TARGET_CONFIG_FILE].

Definition getProjectRcPath (projectRoot : Path) : Path :=
  Fs.join projectRoot [OPENCODE_DIR; PROJECT_RC_FILE].

Section ScopeResolver.

Variable env : Env.

(** [fs.existsSync(dir/.opencode) && fs.statSync(dir/.opencode).isDirectory()] *)
Definition hasMarkerDirectory (dir : Path) : Eff bool :=
  let opencodeDir := Fs.join dir [OPENCODE_DIR] in
  let! found := existsSync opencodeDir in
  if found then
    let! stat := statSync env opencodeDir in
    ret (isDirectory stat)
  else ret false.

(** The loop of [findProjectRoot] started at [currentDir], and the check
    of the root that follows it. *)
Fixpoint findProjectRootFrom (currentDir : Path) : Eff (option Path) :=
  match currentDir with
  | Root =>
      let! marked := hasMarkerDirectory Root in
      ret (if marked then Some Root else None)
  | Child parent _ =>
      let! marked := hasMarkerDirectory currentDir in
      if marked then ret (Some currentDir) else findProjectRootFrom parent
  end.

Definition startingDirectory (startDir : option PathArg) : Path :=
  match startDir with
  | Some dir => resolve (cwd env) dir
  | None => cwd env
  end.

Definition findProjectRoot (startDir : option PathArg) : Eff (option Path) :=
  findProjectRootFrom (startingDirectory startDir).

Definition resolveProjectRoot (startDir : option PathArg) : Eff Path :=
  let! projectRoot := findProjectRoot startDir in
  ret (match projectRoot with
       | Some root => root
       | None => startingDirectory startDir
       end).

(** [loadProjectRc]: the parsed file, cast to [ProjectRc] without a check;
    [JNull] is [null]. *)
Definition loadProjectRc (projectRoot : Path) : Eff JsonValue :=
  let rcPath := getProjectRcPath projectRoot in
  let! found := existsSync rcPath in
  if negb found then ret JNull
  else
    tryCatch
      (let! content := readFileSync env rcPath in
       jsonParse env content)
      (fun _ => ret JNull).

Definition saveProjectRc (projectRoot : Path) (rc : JsonValue) : Eff unit :=
  let rcPath := getProjectRcPath projectRoot in
  let opencodeDir := dirname rcPath in
  let! found := existsSync opencodeDir in
  let! _ := (if negb found then mkdirSync env opencodeDir else ret tt) in
  writeFileSync env rcPath (stringifyPretty rc).

Definition ensureProjectDirs (projectRoot : Path) : Eff unit :=
  let opencodeDir := Fs.join projectRoot [OPENCODE_DIR] in
  let configsDir := getProjectConfigsPath projectRoot in
  let! found := existsSync opencodeDir in
  let! _ := (if negb found then mkdirSync env opencodeDir else ret tt) in
  let! found := existsSync configsDir in
  if negb found then mkdirSync env configsDir else ret tt.

End ScopeResolver.

(** ** utils/settings.ts *)

Section Settings.

Variable env : Env.

(** [DEFAULT_SETTINGS] of store/types.ts. *)
Variable DEFAULT_SETTINGS : JsonObject.

Definition getSettingsPath : Path :=
  let configHome :=
    match XDG_CONFIG_HOME env with
    | Some dir => dir
    | None => Fs.join (homedir env) [".config"]
    end in
  Fs.join configHome ["omo-switch"; "settings.json"].

Definition loadGlobalSettings : Eff JsonObject :=
  let settingsPath := getSettingsPath in
  let! found := existsSync settingsPath in
  if negb found then ret (spread [DEFAULT_SETTINGS])
  else
    tryCatch
      (let! content := readFileSync env settingsPath in
       let! parsed := jsonParse env content in
       ret (spread [DEFAULT_SETTINGS; ownProps parsed]))
      (fun _ => ret (spread [DEFAULT_SETTINGS])).

End Settings.

(** ** utils/backup-cleaner.ts *)

(** A block of statements with one mutable local variable, which keeps the
    value it has when a statement throws. *)
Definition Block (L A : Type) : Type := L -> World -> Outcome A * L * World.

Definition blockRet {L A : Type} (a : A) : Block L A := fun l w => (Returned a, l, w).

Definition blockBind {L A B : Type} (m : Block L A) (k : A -> Block L B) : Block L B :=
  fun l w =>
    match m l w with
    | (Returned a, l', w') => k a l' w'
    | (Thrown e, l', w') => (Thrown e, l', w')
    | (Exited c, l', w') => (Exited c, l', w')
    end.

(** A call that does not touch the local. *)
Definition lift {L A : Type} (m : Eff A) : Block L A :=
  fun l w => let (r, w') := m w in (r, l, w').

(** An assignment to the local. *)
Definition assign {L : Type} (f : L -> L) : Block L unit :=
  fun l w => (Returned tt, f l, w).

Definition blockTry {L A : Type} (m : Block L A) (handler : string -> Block L A)
  : Block L A :=
  fun l w =>
    match m l w with
    | (Thrown e, l', w') => handler e l' w'
    | r => r
    end.

(** [for (const x of items) body(x)] *)
Fixpoint forOf {L X : Type} (items : list X) (body : X -> Block L unit) : Block L unit :=
  match items with
  | [] => blockRet tt
  | x :: rest => blockBind (body x) (fun _ => forOf rest body)
  end.

Definition BACKUP_RETENTION_DAYS : Z := 30.

Section BackupCleaner.

Variable env : Env.

Definition retentionMs : Z := BACKUP_RETENTION_DAYS * 24 * 60 * 60 * 1000.

Definition cutoffTime : Z := nowMs env - retentionMs.

(** The body of the [for] loop, for one entry of the directory. *)
Definition sweepEntry (backupsPath : Path) (file : string) : Block nat unit :=
  let filePath := Child backupsPath file in
  blockBind (lift (statSync env filePath)) (fun stat =>
    if isDirectory stat then blockRet tt
    else if mtimeOf stat <? cutoffTime then
      blockTry
        (blockBind (lift (unlinkSync env filePath)) (fun _ => assign S))
        (fun _ => blockRet tt)
    else blockRet tt).

Definition cleanOldBackups (backupsPath : Path) : Eff nat :=
  let! found := existsSync backupsPath in
  if negb found then ret 0%nat
  else
    fun w =>
      match
        blockTry
          (blockBind (lift (readdirSync env backupsPath)) (fun files =>
             forOf files (sweepEntry backupsPath)))
          (fun _ => blockRet tt)
          0%nat w
      with
      | (Returned _, deletedCount, w') => (Returned deletedCount, w')
      | (Thrown e, _, w') => (Thrown e, w')
      | (Exited c, _, w') => (Exited c, w')
      end.

End BackupCleaner.

(** A directory together with every directory above it, up to the root. *)
Fixpoint ancestorsOf (dir : Path) : list Path :=
  dir :: match dir with
         | Root => []
         | Child parent _ => ancestorsOf parent
         end.

(** ** store/types.ts *)

Module Types.

Record Profile : Type := {
  id : string;
  name : string;
  config : option JsonValue;
  createdAt : string;
  updatedAt : string
}.

Record StoreIndex : Type := {
  storeVersion : string;
  activeProfileId : option string;
  profiles : list Profile
}.

Definition STORE_VERSION : string := "1.0.0".

End Types.

(** An index and its profiles as the JSON documents of the index file. *)
Definition encodeProfile (p : Types.Profile) : JsonValue :=
  JObject
    ([("id", JString (Types.id p)); ("name", JString (Types.name p))]
     ++ match Types.config p with
        | Some c => [("config", c)]
        | None => []
        end
     ++ [("createdAt", JString (Types.createdAt p));
         ("updatedAt", JString (Types.updatedAt p))]).

Definition encodeIndex (index : Types.StoreIndex) : JsonValue :=
  JObject
    [("storeVersion", JString (Types.storeVersion index));
     ("activeProfileId",
      match Types.activeProfileId index with
      | Some active => JString active
      | None => JNull
      end);
     ("profiles", JArray (map encodeProfile (Types.profiles index)))].

Definition decodeProfile (v : JsonValue) : option Types.Profile :=
  match field v "id", field v "name", field v "createdAt", field v "updatedAt" with
  | Some (JString i), Some (JString n), Some (JString c), Some (JString u) =>
      Some {| Types.id := i; Types.name := n; Types.config := field v "config";
              Types.createdAt := c; Types.updatedAt := u |}
  | _, _, _, _ => None
  end.

Fixpoint decodeAll {A B : Type} (f : A -> option B) (l : list A) : option (list B) :=
  match l with
  | [] => Some []
  | x :: rest =>
      match f x, decodeAll f rest with
      | Some y, Some ys => Some (y :: ys)
      | _, _ => None
      end
  end.

(** [JSON.parse(content) as StoreIndex], for a document that has the shape
    of an index. *)
Definition decodeIndex (v : JsonValue) : option Types.StoreIndex :=
  match field v "storeVersion", field v "activeProfileId", field v "profiles" with
  | Some (JString version), Some active, Some (JArray ps) =>
      match active, decodeAll decodeProfile ps with
      | JString a, Some ps' =>
          Some {| Types.storeVersion := version; Types.activeProfileId := Some a;
                  Types.profiles := ps' |}
      | JNull, Some ps' =>
          Some {| Types.storeVersion := version; Types.activeProfileId := None;
                  Types.profiles := ps' |}
      | _, _ => None
      end
  | _, _, _ => None
  end.

Module Txt.

(** [s.toLowerCase()], on ASCII letters. *)
Definition lowerChar (c : ascii) : ascii :=
  let n := nat_of_ascii c in
  if Nat.leb 65 n && Nat.leb n 90 then ascii_of_nat (n + 32) else c.

Fixpoint toLowerCase (s : string) : string :=
  match s with
  | EmptyString => EmptyString
  | String c rest => String (lowerChar c) (toLowerCase rest)
  end.

(** [s.endsWith(suffix)] *)
Definition endsWith (suffix s : string) : bool :=
  let n := String.length s in
  let k := String.length suffix in
  Nat.leb k n && String.eqb (String.substring (n - k) k s) suffix.

(** [s] without its last [k] characters. *)
Definition dropLast (k : nat) (s : string) : string :=
  String.substring 0 (String.length s - k) s.

(** The profile id a file of a configs directory stands for: its name
    without [.jsonc] or [.json]; other files stand for none. *)
Definition profileIdOf (fileName : string) : option string :=
  if endsWith ".jsonc" fileName then Some (dropLast 6 fileName)
  else if endsWith ".json" fileName then Some (dropLast 5 fileName)
  else None.

(** [s.replace(/[:.]/g, "-")] *)
Fixpoint dashed (s : string) : string :=
  match s with
  | EmptyString => EmptyString
  | String c rest =>
      let n := nat_of_ascii c in
      String (if Nat.eqb n 58 || Nat.eqb n 46 then ascii_of_nat 45 else c) (dashed rest)
  end.

End Txt.

(** [path.basename(p)] *)
Definition basename (p : Path) : string :=
  match p with
  | Root => EmptyString
  | Child _ name => name
  end.

(** ** store/index.ts and store/project-store.ts *)

(** Modelled from the spec: the stores are not among the sources.  Both
    resolve the raw file of a profile the same way: the [.jsonc] file when
    there is one, else the [.json] file, else [null]. *)
Definition resolveConfigPath (configsPath : Path) (id : string) : Eff (option Path) :=
  let jsonc := Child configsPath (id +:+ ".jsonc") in
  let json := Child configsPath (id +:+ ".json") in
  let! hasJsonc := existsSync jsonc in
  if hasJsonc then ret (Some jsonc)
  else
    let! hasJson := existsSync json in
    ret (if hasJson then Some json else None).

(** Modelled from the spec: [getProfileConfigRaw] of either store gives
    the resolved file and its text, or [null] when neither file exists. *)
Definition readConfigRaw (env : Env) (configsPath : Path) (id : string)
  : Eff (option (Path * string)) :=
  let! resolved := resolveConfigPath configsPath id in
  match resolved with
  | None => ret None
  | Some p =>
      let! content := readFileSync env p in
      ret (Some (p, content))
  end.

(** Modelled from the spec: [createBackup] of either store returns [null]
    when there is nothing to back up, else copies the file into the backups
    directory, which it creates when missing, under the timestamp, [__] and
    the file name. *)
Definition backupInto (env : Env) (backupsPath sourcePath : Path) : Eff (option Path) :=
  let! found := existsSync sourcePath in
  if negb found then ret None
  else
    let! hasDir := existsSync backupsPath in
    let! _ := (if negb hasDir then mkdirSync env backupsPath else ret tt) in
    let backupPath :=
      Child backupsPath (Txt.dashed (nowISO env) +:+ "__" +:+ basename sourcePath) in
    let! _ := copyFileSync env sourcePath backupPath in
    ret (Some backupPath).

Module StoreManager.

Section Methods.

Variable env : Env.

(** Modelled from the spec: store/index.ts is not among the sources.  The
    root is [~/.omo-switch], as the README lays the store out. *)
Definition getStorePath : Path := Fs.join (homedir env) [".omo-switch"].

(** Modelled from the spec: the index file, [index.json] under the root. *)
Definition getIndexPath : Path := Child getStorePath "index.json".

(** Modelled from the spec: the configs subdirectory, one raw file per
    profile id. *)
Definition getConfigsPath : Path := Child getStorePath "configs".

(** Modelled from the spec: the backups subdirectory. *)
Definition getBackupsPath : Path := Child getStorePath "backups".

(** Modelled from the spec: the cache subdirectory of the schema. *)
Definition getCacheSchemaPath : Path := Fs.join getStorePath ["cache"; "schema"].

(** Modelled from the spec: the fresh empty index of a store that was never
    written. *)
Definition freshIndex : Types.StoreIndex :=
  {| Types.storeVersion := Types.STORE_VERSION;
     Types.activeProfileId := None;
     Types.profiles := [] |}.

(** Modelled from the spec: [loadIndex] reads and parses the index file; an
    absent file gives a fresh empty index, and so does a file that does not
    parse to an index. *)
Definition loadIndex : Eff Types.StoreIndex :=
  let! found := existsSync getIndexPath in
  if negb found then ret freshIndex
  else
    tryCatch
      (let! content := readFileSync env getIndexPath in
       let! v := jsonParse env content in
       match decodeIndex v with
       | Some index => ret index
       | None => throw "TypeError"
       end)
      (fun _ => ret freshIndex).

(** Modelled from the spec: [saveIndex] serialises the index and overwrites
    the index file. *)
Definition saveIndex (index : Types.StoreIndex) : Eff unit :=
  writeFileSync env getIndexPath (stringifyPretty (encodeIndex index)).

(** Modelled from the spec: [getProfileConfigPath] resolves to the
    permissive-dialect file if present, else the strict one, else [null]. *)
Definition getProfileConfigPath (id : string) : Eff (option Path) :=
  resolveConfigPath getConfigsPath id.

(** Modelled from the spec: [getProfileConfigRaw] reads the resolved file. *)
Definition getProfileConfigRaw (id : string) : Eff (option (Path * string)) :=
  readConfigRaw env getConfigsPath id.

(** Modelled from the spec: the index [deleteProfile] persists, without the
    entry of the profile and with [activeProfileId] cleared when it named
    that profile. *)
Definition withoutProfile (id : string) (index : Types.StoreIndex) : Types.StoreIndex :=
  {| Types.storeVersion := Types.storeVersion index;
     Types.activeProfileId :=
       match Types.activeProfileId index with
       | Some active => if String.eqb active id then None else Some active
       | None => None
       end;
     Types.profiles :=
       List.filter (fun p => negb (String.eqb (Types.id p) id)) (Types.profiles index) |}.

(** Modelled from the spec: [deleteProfile] removes the raw file and the
    index entry, clears [activeProfileId] when it named the deleted
    profile, and persists the index. *)
Definition deleteProfile (id : string) : Eff unit :=
  let! index := loadIndex in
  let! resolved := getProfileConfigPath id in
  let! _ := match resolved with
            | Some p => unlinkSync env p
            | None => ret tt
            end in
  saveIndex (withoutProfile id index).

(** Modelled from the spec: [syncProfiles] adds a minimal entry (id and
    name from the file name, timestamps of the discovery) for every file of
    the configs directory that no profile of the index names, and persists
    the index only when it added one.  It returns the ids added and the
    ids that were there. *)
Definition syncProfiles : Eff (list string * list string) :=
  let! index := loadIndex in
  let existing := map Types.id (Types.profiles index) in
  let! found := existsSync getConfigsPath in
  if negb found then ret ([], existing)
  else
    let! files := readdirSync env getConfigsPath in
    let ids := Str.unique [] (omap Txt.profileIdOf files) in
    let added := List.filter (fun i => negb (existsb (String.eqb i) existing)) ids in
    match added with
    | [] => ret ([], existing)
    | _ =>
        let orphan i :=
          {| Types.id := i; Types.name := i; Types.config := Some (JObject []);
             Types.createdAt := nowISO env; Types.updatedAt := nowISO env |} in
        let! _ := saveIndex
                    {| Types.storeVersion := Types.storeVersion index;
                       Types.activeProfileId := Types.activeProfileId index;
                       Types.profiles := Types.profiles index ++ map orphan added |} in
        ret (added, existing)
    end.

(** Modelled from the spec: [createBackup] copies the source into the
    backups directory of the store; [null] when the source does not exist. *)
Definition createBackup (sourcePath : Path) : Eff (option Path) :=
  backupInto env getBackupsPath sourcePath.

(** Modelled from the spec: [saveCacheFile] writes the artifact and, next
    to it, a [meta.json] with the provenance and a timestamp. *)
Definition saveCacheFile (dir : Path) (fileName content : string) (meta : JsonObject)
  : Eff unit :=
  let! found := existsSync dir in
  let! _ := (if negb found then mkdirSync env dir else ret tt) in
  let! _ := writeFileSync env (Child dir fileName) content in
  writeFileSync env (Child dir "meta.json")
    (stringifyPretty (JObject (spread [meta; [("updatedAt", JString (nowISO env))]]))).

End Methods.

End StoreManager.

Module ProjectStoreManager.

Section Methods.

Variable env : Env.
Variable projectRoot : Path.

(** Modelled from the spec: store/project-store.ts is not among the
    sources.  The backups subdirectory of the project store. *)
Definition getBackupsPath : Path := Fs.join projectRoot [OPENCODE_DIR; "backups"].

(** Modelled from the spec: the ignore file that keeps the backups out of
    version control. *)
Definition getGitignorePath : Path := Fs.join projectRoot [OPENCODE_DIR; ".gitignore"].

(** Modelled from the spec: [ensureDirectories] ensures the project
    directories and the backups directory, and an ignore-file entry for the
    latter. *)
Definition ensureDirectories : Eff unit :=
  let! _ := ensureProjectDirs env projectRoot in
  let! hasBackups := existsSync getBackupsPath in
  let! _ := (if negb hasBackups then mkdirSync env getBackupsPath else ret tt) in
  let! hasIgnore := existsSync getGitignorePath in
  if negb hasIgnore then writeFileSync env getGitignorePath ("backups/" +:+ Str.nl)
  else
    let! content := readFileSync env getGitignorePath in
    if Str.includes "backups" content then ret tt
    else writeFileSync env getGitignorePath (content +:+ "backups/" +:+ Str.nl).

(** Modelled from the spec: [loadRc] delegates to [loadProjectRc] of the
    scope resolver. *)
Definition loadRc : Eff JsonValue := loadProjectRc env projectRoot.

(** Modelled from the spec: [saveRc] delegates to [saveProjectRc] of the
    scope resolver. *)
Definition saveRc (rc : JsonValue) : Eff unit := saveProjectRc env projectRoot rc.

(** Modelled from the spec: [getProfileConfigPath], with the same
    preference as in the global store. *)
Definition getProfileConfigPath (id : string) : Eff (option Path) :=
  resolveConfigPath (getProjectConfigsPath projectRoot) id.

(** Modelled from the spec: [configExists] says whether a raw file of the
    profile exists. *)
Definition configExists (id : string) : Eff bool :=
  let! resolved := getProfileConfigPath id in
  ret (match resolved with Some _ => true | None => false end).

(** Modelled from the spec: [getProfileConfigRaw] reads the resolved file. *)
Definition getProfileConfigRaw (id : string) : Eff (option (Path * string)) :=
  readConfigRaw env (getProjectConfigsPath projectRoot) id.

(** Modelled from the spec: [listProfiles] gives the ids of the files of
    the configs directory, each once; none when the directory is missing. *)
Definition listProfiles : Eff (list string) :=
  let configsPath := getProjectConfigsPath projectRoot in
  let! found := existsSync configsPath in
  if negb found then ret []
  else
    let! files := readdirSync env configsPath in
    ret (Str.unique [] (omap Txt.profileIdOf files)).

(** Modelled from the spec: [deleteProfileConfig] removes the raw file and
    says whether there was one. *)
Definition deleteProfileConfig (id : string) : Eff bool :=
  let! resolved := getProfileConfigPath id in
  match resolved with
  | None => ret false
  | Some p =>
      let! _ := unlinkSync env p in
      ret true
  end.

(** Modelled from the spec: [createBackup] copies the source into the
    backups directory of the project; [null] when the source does not
    exist. *)
Definition createBackup (sourcePath : Path) : Eff (option Path) :=
  backupInto env getBackupsPath sourcePath.

End Methods.

End ProjectStoreManager.

(** ** commands/rm.ts *)

Module Rm.

Record RmOptions : Type := {
  scope : option string;
  force : bool
}.

(** How the search for the profile ended: the user declined at the prompt
    (the handler returns), nothing was found, or the profile was deleted
    from a scope. *)
Inductive Step : Type :=
| Cancelled
| NotFound
| DeletedFrom (scopeName : string).

End Rm.

(** A string option is truthy when it is set and not empty. *)
Definition isSet (s : option string) : bool :=
  match s with
  | None | Some EmptyString => false
  | Some _ => true
  end.

Section RmCommand.

Variable env : Env.

(** [spinner.fail(message); process.exit(1)] *)
Definition failAndExit {A : Type} (message : string) : Eff A :=
  let! _ := emit (SpinnerFail message) in
  exit 1.

(** The confirmation prompt, skipped under [--force]; [false] when the
    user declines. *)
Definition confirmUnlessForced (force : bool) (message : string) : Eff bool :=
  if force then ret true
  else
    let! _ := emit SpinnerStop in
    if confirmAnswer env message then
      let! _ := emit SpinnerStart in
      ret true
    else
      let! _ := emit (ConsoleLog (gray (colours env) "Operation cancelled.")) in
      ret false.

(** [value === s] for a string [s]. *)
Definition strictEqualsString (value : option JsonValue) (s : string) : bool :=
  match value with
  | Some (JString t) => String.eqb t s
  | _ => false
  end.

(** [{ activeProfileId: null }] *)
Definition clearedRc : JsonValue := JObject [("activeProfileId", JNull)].

(** [const rc = ProjectStoreManager.loadRc(); if (rc && rc.activeProfileId === profileId) ProjectStoreManager.saveRc({ activeProfileId: null })] *)
Definition resetActiveProfile (projectRoot : Path) (profileId : string) : Eff unit :=
  let! rc := ProjectStoreManager.loadRc env projectRoot in
  if truthy rc
     && strictEqualsString (field rc "activeProfileId") profileId
  then ProjectStoreManager.saveRc env projectRoot clearedRc
  else ret tt.

Definition findProfileById (index : Types.StoreIndex) (profileId : string)
  : option Types.Profile :=
  List.find (fun p => String.eqb (Types.id p) profileId) (Types.profiles index).

Definition rmFromUser (profileId : string) (force : bool) : Eff Rm.Step :=
  let! _ := emit (SpinnerText "Checking global store...") in
  let! index := StoreManager.loadIndex env in
  match findProfileById index profileId with
  | None => failAndExit ("Profile '" +:+ profileId +:+ "' not found in global store.")
  | Some _ =>
      let! proceed :=
        confirmUnlessForced force
          ("Are you sure you want to delete profile '" +:+ profileId +:+ "'?") in
      if negb proceed then ret Rm.Cancelled
      else
        let! _ := emit (SpinnerText "Deleting profile...") in
        let! _ := StoreManager.deleteProfile env profileId in
        ret (Rm.DeletedFrom "user")
  end.

Definition rmFromProject (profileId : string) (force : bool) (projectRoot : option Path)
  : Eff Rm.Step :=
  let! _ := emit (SpinnerText "Checking project store...") in
  match projectRoot with
  | None =>
      let! _ := emit (SpinnerFail "No .opencode/ directory found in parent directories.") in
      let! _ := emit (ConsoleLog
                        (gray (colours env) "Run in a project directory or use --scope user.")) in
      exit 1
  | Some root =>
      let! present := ProjectStoreManager.configExists root profileId in
      if negb present then
        failAndExit ("Profile '" +:+ profileId +:+ "' not found in project.")
      else
        let! proceed :=
          confirmUnlessForced force
            ("Are you sure you want to delete profile '" +:+ profileId +:+ "'?") in
        if negb proceed then ret Rm.Cancelled
        else
          let! _ := emit (SpinnerText "Deleting profile...") in
          let! _ := ProjectStoreManager.deleteProfileConfig env root profileId in
          let! _ := resetActiveProfile root profileId in
          ret (Rm.DeletedFrom "project")
  end.

(** No scope given: the project first, then the global store. *)
Definition rmFromEither (profileId : string) (force : bool) (projectRoot : option Path)
  : Eff Rm.Step :=
  let! _ := emit (SpinnerText "Searching for profile...") in
  let! inProject :=
    match projectRoot with
    | None => ret Rm.NotFound
    | Some root =>
        let! present := ProjectStoreManager.configExists root profileId in
        if negb present then ret Rm.NotFound
        else
          let! proceed :=
            confirmUnlessForced force
              ("Delete profile '" +:+ profileId +:+ "' from project?") in
          if negb proceed then ret Rm.Cancelled
          else
            let! _ := emit (SpinnerText "Deleting profile from project...") in
            let! _ := ProjectStoreManager.deleteProfileConfig env root profileId in
            let! _ := resetActiveProfile root profileId in
            ret (Rm.DeletedFrom "project")
    end in
  match inProject with
  | Rm.NotFound =>
      let! index := StoreManager.loadIndex env in
      match findProfileById index profileId with
      | None => ret Rm.NotFound
      | Some _ =>
          let! proceed :=
            confirmUnlessForced force
              ("Delete profile '" +:+ profileId +:+ "' from global store?") in
          if negb proceed then ret Rm.Cancelled
          else
            let! _ := emit (SpinnerText "Deleting profile from global store...") in
            let! _ := StoreManager.deleteProfile env profileId in
            ret (Rm.DeletedFrom "user")
      end
  | step => ret step
  end.

Definition handleOmoRm (profileId : string) (options : Rm.RmOptions)
    (projectRoot : option Path) : Eff unit :=
  let scope := Rm.scope options in
  let named (s : string) := bool_decide (scope = Some s) in
  let! _ :=
    (if isSet scope && negb (named "user") && negb (named "project") then
       failAndExit ("Invalid scope: " +:+ default EmptyString scope
                    +:+ ". Use 'user' or 'project'.")
     else ret tt) in
  let! step :=
    (if named "user" then rmFromUser profileId (Rm.force options)
     else if named "project" then rmFromProject profileId (Rm.force options) projectRoot
     else rmFromEither profileId (Rm.force options) projectRoot) in
  match step with
  | Rm.Cancelled => ret tt
  | Rm.NotFound => failAndExit ("Profile '" +:+ profileId +:+ "' not found.")
  | Rm.DeletedFrom deletedFrom =>
      let scopeLabel := if String.eqb deletedFrom "project" then "[project]" else "[user]" in
      emit (SpinnerSucceed ("Deleted profile '" +:+ profileId +:+ "' " +:+ scopeLabel))
  end.

End RmCommand.

(** ** utils/config-path.ts *)

Section ConfigPath.

Variable env : Env.

Definition userProfileDir : Path := default (homedir env) (USERPROFILE env).

Definition appDataDir : Path :=
  default (Fs.join userProfileDir ["AppData"; "Roaming"]) (APPDATA env).

Definition unixConfigDir : Path :=
  Fs.join (default (Fs.join (homedir env) [".config"]) (XDG_CONFIG_HOME env)) ["opencode"].

(** The first of [candidates] that exists. *)
Fixpoint firstExisting (candidates : list Path) : Eff (option Path) :=
  match candidates with
  | [] => ret None
  | p :: rest =>
      let! found := existsSync p in
      if found then ret (Some p) else firstExisting rest
  end.

Definition findExistingConfigPath : Eff (option Path) :=
  if isWindows env then
    let preferredDir := Fs.join userProfileDir [".config"; "opencode"] in
    let fallbackDir := Fs.join appDataDir ["opencode"] in
    firstExisting
      [Child preferredDir "oh-my-opencode.jsonc"; Child preferredDir "oh-my-opencode.json";
       Child fallbackDir "oh-my-opencode.jsonc"; Child fallbackDir "oh-my-opencode.json"]
  else
    firstExisting
      [Child unixConfigDir "oh-my-opencode.jsonc"; Child unixConfigDir "oh-my-opencode.json"].

(** The [dir] of [getConfigTargetDir()]. *)
Definition getConfigTargetDir : Eff Path :=
  if isWindows env then
    let preferredDir := Fs.join userProfileDir [".config"; "opencode"] in
    let! existingConfig := findExistingConfigPath in
    ret (match existingConfig with
         | Some p => dirname p
         | None => preferredDir
         end)
  else ret unixConfigDir.

Definition ensureConfigDir (configPath : Path) : Eff unit :=
  let dir := dirname configPath in
  let! found := existsSync dir in
  if negb found then mkdirSync env dir else ret tt.

End ConfigPath.

(** ** utils/downloader.ts *)

Section Downloader.

Variable env : Env.

Definition downloadFile (url : string) (cacheDir : Path) (fileName : string)
    (meta : JsonObject) : Eff bool :=
  let filePath := Child cacheDir fileName in
  let metaPath := Child cacheDir "meta.json" in
  match httpGet env url with
  | None => throw "Failed to download"
  | Some content =>
      let! _ := writeFileSync env filePath content in
      let! _ := writeFileSync env metaPath
                  (stringifyPretty
                     (JObject (spread [meta; [("updatedAt", JString (nowISO env))]]))) in
      ret true
  end.

Definition readBundledAsset (relativePath : string) : Eff (option string) :=
  let assetPath := Fs.join (packageRoot env) ["shared"; "assets"; relativePath] in
  let! found := existsSync assetPath in
  if negb found then ret None
  else
    let! content := readFileSync env assetPath in
    ret (Some content).

End Downloader.

(** ** utils/validator.ts *)

Section Validator.

Variable env : Env.

(** [new Validator(schemaPath)]: the compiled schema, when the file is there. *)
Definition newValidator (schemaPath : Path) : Eff (option (JsonValue -> bool * list string)) :=
  let! found := existsSync schemaPath in
  if found then
    let! text := readFileSync env schemaPath in
    let! schema := jsonParse env text in
    match ajvCompile env schema with
    | Some compiled => ret (Some compiled)
    | None => throw "schema is invalid"
    end
  else ret None.

(** [validator.validate(data)] *)
Definition validate (compiledSchema : option (JsonValue -> bool * list string))
    (data : JsonValue) : bool * list string :=
  match compiledSchema with
  | None => (false, ["Schema not found or not loaded"])
  | Some check =>
      let (valid, errors) := check data in
      if valid then (true, []) else (false, errors)
  end.

End Validator.

(** ** commands/apply.ts *)

Definition SCHEMA_URL : string :=
  "https://raw.githubusercontent.com/code-yeongyu/oh-my-opencode/master/assets/oh-my-opencode.schema.json".

Definition SCHEMA_FILE : string := "oh-my-opencode.schema.json".

Section ApplyCommand.

Variable env : Env.

Definition ensureSchemaAvailable : Eff Path :=
  let schemaPath := Child (StoreManager.getCacheSchemaPath env) SCHEMA_FILE in
  let! found := existsSync schemaPath in
  if found then ret schemaPath
  else
    tryCatch
      (let! _ := downloadFile env SCHEMA_URL (StoreManager.getCacheSchemaPath env) SCHEMA_FILE
                   [("source", JString "github")] in
       ret schemaPath)
      (fun _ =>
         let! bundledSchema := readBundledAsset env SCHEMA_FILE in
         match bundledSchema with
         | Some text =>
             if negb (String.eqb text EmptyString) then
               let! _ := StoreManager.saveCacheFile env (StoreManager.getCacheSchemaPath env) SCHEMA_FILE text
                           [("source", JString "bundled")] in
               ret schemaPath
             else throw "Failed to download or find bundled schema"
         | None => throw "Failed to download or find bundled schema"
         end).

(** [p.id === identifier || p.name.toLowerCase() === identifier.toLowerCase()] *)
Definition matchesProfile (identifier : string) (p : Types.Profile) : bool :=
  String.eqb (Types.id p) identifier
  || String.eqb (Txt.toLowerCase (Types.name p)) (Txt.toLowerCase identifier).

(** [id === identifier || id.toLowerCase() === identifier.toLowerCase()] *)
Definition matchesId (identifier id : string) : bool :=
  String.eqb id identifier
  || String.eqb (Txt.toLowerCase id) (Txt.toLowerCase identifier).

(** [for (const x of items) body(x)], for a body without locals. *)
Fixpoint forEach {X : Type} (items : list X) (body : X -> Eff unit) : Eff unit :=
  match items with
  | [] => ret tt
  | x :: rest =>
      let! _ := body x in
      forEach rest body
  end.

(** The branch of [handleOmoApply] taken when [validation.valid] is false. *)
Definition reportInvalid (errors : list string) : Eff unit :=
  let! _ := emit (SpinnerFail "Configuration validation failed") in
  let! _ := emit (ConsoleError (red (colours env) "Validation errors:")) in
  let! _ := forEach errors
              (fun err => emit (ConsoleError (red (colours env) ("  - " +:+ err)))) in
  exit 1.

(** The part of [handleOmoApply] that follows a successful validation:
    back up, write the target, record the active profile. *)
Definition applyValidated (scope : string) (projectRoot : option Path)
    (profile : Types.Profile) (content : string) (profileSource : string)
    (globalIndex : Types.StoreIndex) : Eff unit :=
  let! located :=
    match projectRoot with
    | Some root =>
        let targetPath := getProjectTargetPath root in
        let! _ := ensureConfigDir env targetPath in
        let! _ := emit (SpinnerText "Creating backup...") in
        let! backupPath := ProjectStoreManager.createBackup env root targetPath in
        ret (targetPath, backupPath)
    | None =>
        let! _ := emit (SpinnerText "Determining target path...") in
        let! targetDir := getConfigTargetDir env in
        let targetPath := Child targetDir "oh-my-opencode.jsonc" in
        let! _ := ensureConfigDir env targetPath in
        let! _ := emit (SpinnerText "Creating backup...") in
        let existingJsonc := Child targetDir "oh-my-opencode.jsonc" in
        let existingJson := Child targetDir "oh-my-opencode.json" in
        let! hasJsonc := existsSync existingJsonc in
        if hasJsonc then
          let! backupPath := StoreManager.createBackup env existingJsonc in
          ret (targetPath, backupPath)
        else
          let! hasJson := existsSync existingJson in
          if hasJson then
            let! backupPath := StoreManager.createBackup env existingJson in
            ret (targetPath, backupPath)
          else ret (targetPath, None)
    end in
  let targetPath := fst located in
  let backupPath := snd located in
  let showPath (p : Path) := Str.join "/" (EmptyString :: rev (segments p)) in
  let! _ := match backupPath with
            | Some b => emit (SpinnerText ("Backup created: " +:+ showPath b))
            | None => ret tt
            end in
  let! _ := emit (SpinnerText ("Writing to " +:+ showPath targetPath +:+ "...")) in
  let headerComment :=
    "// Profile Name: " +:+ Types.name profile +:+ ", edited by omo-switch" in
  let targetContent := headerComment +:+ Str.nl +:+ content in
  let! _ := writeFileSync env targetPath targetContent in
  let! _ :=
    match projectRoot with
    | Some root =>
        ProjectStoreManager.saveRc env root (JObject [("activeProfileId", JString (Types.id profile))])
    | None =>
        StoreManager.saveIndex env
          {| Types.storeVersion := Types.storeVersion globalIndex;
             Types.activeProfileId := Some (Types.id profile);
             Types.profiles := Types.profiles globalIndex |}
    end in
  let! _ := emit (SpinnerSucceed
                    ("Applied profile '" +:+ Types.name profile +:+ "' ("
                     +:+ Types.id profile +:+ ") [" +:+ scope +:+ "]")) in
  let! _ := emit (ConsoleLog (gray (colours env) ("  Source: " +:+ profileSource))) in
  let! _ := emit (ConsoleLog (gray (colours env) ("  Target: " +:+ showPath targetPath))) in
  match backupPath with
  | Some b => emit (ConsoleLog (gray (colours env) ("  Backup: " +:+ showPath b)))
  | None => ret tt
  end.

(** What [handleOmoApply] holds when it has built the validator: the
    project root when the scope is [project], then [globalIndex],
    [profile], [configRaw.content], [profileSource], [config] and
    [validator]. *)
Record Staged : Type := {
  stagedRoot : option Path;
  stagedIndex : Types.StoreIndex;
  stagedProfile : Types.Profile;
  stagedContent : string;
  stagedSource : string;
  stagedConfig : JsonValue;
  stagedValidator : option (JsonValue -> bool * list string)
}.

(** [handleOmoApply] from [const globalIndex = globalStore.loadIndex()] up
    to [const validator = new Validator(schemaPath)]. *)
Definition stageAfterSync (identifier : string) (scope : string) : Eff Staged :=
  let! globalIndex := StoreManager.loadIndex env in
  let! projectRoot :=
    (if String.eqb scope "project" then
       let! root := resolveProjectRoot env None in
       let! _ := ProjectStoreManager.ensureDirectories env root in
       ret (Some root)
     else ret None) in
  let globalProfile := List.find (matchesProfile identifier) (Types.profiles globalIndex) in
  let! inProject :=
    match projectRoot with
    | Some root =>
        let! projectProfiles := ProjectStoreManager.listProfiles env root in
        match List.find (matchesId identifier) projectProfiles with
        | Some EmptyString => ret (None, "user", globalProfile)
        | Some projectProfileId =>
            let! configRaw := ProjectStoreManager.getProfileConfigRaw env root projectProfileId in
            let temporary :=
              {| Types.id := projectProfileId; Types.name := projectProfileId;
                 Types.config := Some (JObject []);
                 Types.createdAt := nowISO env; Types.updatedAt := nowISO env |} in
            ret (configRaw, "project",
                 match globalProfile with
                 | Some p => Some p
                 | None => Some temporary
                 end)
        | None => ret (None, "user", globalProfile)
        end
    | None => ret (None, "user", globalProfile)
    end in
  let profile := snd inProject in
  let! chosen :=
    match fst (fst inProject), profile with
    | None, Some p =>
        let! configRaw := StoreManager.getProfileConfigRaw env (Types.id p) in
        ret (configRaw, "user")
    | configRaw, _ => ret (configRaw, snd (fst inProject))
    end in
  let configRaw := fst chosen in
  let profileSource := snd chosen in
  match profile with
  | None => failAndExit ("Profile not found: " +:+ identifier)
  | Some profile =>
      let! _ := emit (SpinnerText "Loading profile configuration...") in
      match configRaw with
      | None =>
          let! _ := emit (SpinnerFail "Profile config file not found") in
          let! _ := emit (ConsoleError
                            (red (colours env)
                               ("Profile '" +:+ identifier
                                +:+ "' exists in index but config file is missing."))) in
          let! _ := emit (ConsoleError
                            (gray (colours env) ("Source: " +:+ profileSource))) in
          exit 1
      | Some (_, content) =>
          let! _ := emit (SpinnerText "Validating configuration...") in
          match JSON5_parse env content with
          | None =>
              let! _ := emit (SpinnerFail "Failed to parse config as JSON/JSONC") in
              let! _ := emit (ConsoleError (red (colours env) "Error: SyntaxError")) in
              exit 1
          | Some config =>
              let! _ := emit (SpinnerText "Ensuring schema availability...") in
              let! schemaPath := ensureSchemaAvailable in
              let! _ := emit (SpinnerText "Validating configuration...") in
              let! validator := newValidator env schemaPath in
              ret {| stagedRoot := projectRoot;
                     stagedIndex := globalIndex;
                     stagedProfile := profile;
                     stagedContent := content;
                     stagedSource := profileSource;
                     stagedConfig := config;
                     stagedValidator := validator |}
          end
      end
  end.

(** [handleOmoApply] up to [const validator = new Validator(schemaPath)]:
    the scope is checked, the store is synchronised, the profile is looked
    up, its configuration is read and parsed, and the schema is made
    available. *)
Definition stageProfile (identifier : string) (scope : string) : Eff Staged :=
  let! _ :=
    (if negb (String.eqb scope "user") && negb (String.eqb scope "project") then
       failAndExit ("Invalid scope: " +:+ scope +:+ ". Use 'user' or 'project'.")
     else ret tt) in
  let! _ := StoreManager.syncProfiles env in
  stageAfterSync identifier scope.

(** [handleOmoApply]: with the profile staged, [validator.validate(config)]
    decides between the report of its messages and the writes. *)
Definition handleOmoApply (identifier : string) (scope : string) : Eff unit :=
  let! staged := stageProfile identifier scope in
  let validation := validate (stagedValidator staged) (stagedConfig staged) in
  if negb (fst validation) then reportInvalid (snd validation)
  else
    applyValidated scope (stagedRoot staged) (stagedProfile staged) (stagedContent staged)
                   (stagedSource staged) (stagedIndex staged).

End ApplyCommand.

(** ** What the stores hold, read off the file tree *)

Section StoredState.

Variable env : Env.

(** What [readFileSync] followed by [JSON.parse] gives at [p], when both
    succeed. *)
Definition parsedAt (w : World) (p : Path) : option JsonValue :=
  match lookupNode w p with
  | Some (File content _) =>
      if denied env OpRead p then None else JSON_parse env content
  | _ => None
  end.

(** The rc record [loadProjectRc] reads in [w]. *)
Definition rcOf (w : World) (projectRoot : Path) : JsonValue :=
  default JNull (parsedAt w (getProjectRcPath projectRoot)).

(** The index [StoreManager.loadIndex] reads in [w]. *)
Definition indexOf (w : World) : Types.StoreIndex :=
  match lookupNode w (StoreManager.getIndexPath env) with
  | None => StoreManager.freshIndex
  | Some _ =>
      match parsedAt w (StoreManager.getIndexPath env) with
      | Some v => default StoreManager.freshIndex (decodeIndex v)
      | None => StoreManager.freshIndex
      end
  end.

(** The file [resolveConfigPath] picks in [w]. *)
Definition resolvedIn (w : World) (configsPath : Path) (id : string) : option Path :=
  match nodes w !! Child configsPath (id +:+ ".jsonc") with
  | Some _ => Some (Child configsPath (id +:+ ".jsonc"))
  | None =>
      match nodes w !! Child configsPath (id +:+ ".json") with
      | Some _ => Some (Child configsPath (id +:+ ".json"))
      | None => None
      end
  end.

End StoredState.

(** The content and modification time of the file at [p], when a file is
    there. *)
Definition fileAt (w : World) (p : Path) : option (string * Z) :=
  match nodes w !! p with
  | Some (File content mtime) => Some (content, mtime)
  | _ => None
  end.

(** The spinner message of a failed validation. *)
Definition validationFailed : Event := SpinnerFail "Configuration validation failed".

(** What [handleOmoApply] prints when validation fails with [errors]. *)
Definition validationReport (env : Env) (errors : list string) : list Event :=
  [validationFailed; ConsoleError (red (colours env) "Validation errors:")]
  ++ map (fun err => ConsoleError (red (colours env) ("  - " +:+ err))) errors.

(** Between [w] and [w'] no file outside [allowed] was created, removed or
    rewritten. *)
Definition sameFiles (allowed : Path -> Prop) (w w' : World) : Prop :=
  forall p, ~ allowed p -> fileAt w' p = fileAt w p.

(** Between [w] and [w'] only files inside [allowed] were written, and what
    was printed does not announce a failed validation. *)
Definition framed (allowed : Path -> Prop) (w w' : World) : Prop :=
  sameFiles allowed w w'
  /\ exists printed, output w' = output w ++ printed /\ ~ In validationFailed printed.

(** A computation that never ends the process, writes only inside
    [allowed] and does not announce a failed validation, however it ends. *)
Definition tame (allowed : Path -> Prop) {A : Type} (m : Eff A) : Prop :=
  forall w r w', m w = (r, w') -> (forall c, r <> Exited c) /\ framed allowed w w'.

(** A computation that writes only inside [allowed] and does not announce
    a failed validation, however it ends, the end of the process
    included. *)
Definition quiet (allowed : Path -> Prop) {A : Type} (m : Eff A) : Prop :=
  forall w r w', m w = (r, w') -> framed allowed w w'.

(** The files a run of [handleOmoApply] may write after [StoreManager.syncProfiles] and
    before it validates: the ignore file of a project and the schema cache. *)
Definition afterSync (env : Env) (p : Path) : Prop :=
  (exists root, p = ProjectStoreManager.getGitignorePath root)
  \/ p = Child (StoreManager.getCacheSchemaPath env) SCHEMA_FILE
  \/ p = Child (StoreManager.getCacheSchemaPath env) "meta.json".

(** The files a run of [handleOmoApply] may write before it validates:
    those, and the global index, which [StoreManager.syncProfiles] may extend. *)
Definition preparatory (env : Env) (p : Path) : Prop :=
  p = StoreManager.getIndexPath env \/ afterSync env p.

(** The raw file of the profile [id] in a configs directory: its [.jsonc]
    file or its [.json] file. *)
Definition configFileOf (configsPath : Path) (id : string) (p : Path) : Prop :=
  p = Child configsPath (id +:+ ".jsonc") \/ p = Child configsPath (id +:+ ".json").

(** Where [handleOmoApply] read the content it has staged.  With the
    source [project] it is the raw file, in the project store, of an id that
    the identifier names, and the staged profile is the entry of the global
    index that the identifier names when there is one, else a temporary
    profile of that id.  With the source [user] it is the raw file, in the
    global store, of the id of the staged profile. *)
Definition stagedFrom (env : Env) (identifier : string) (staged : Staged) (configPath : Path)
  : Prop :=
  (stagedSource staged = "project"
   /\ exists root id,
        stagedRoot staged = Some root
        /\ matchesId identifier id = true
        /\ configFileOf (getProjectConfigsPath root) id configPath
        /\ (List.find (matchesProfile identifier) (Types.profiles (stagedIndex staged))
            = Some (stagedProfile staged)
            \/ (List.find (matchesProfile identifier) (Types.profiles (stagedIndex staged))
                = None
                /\ Types.id (stagedProfile staged) = id
                /\ Types.name (stagedProfile staged) = id)))
  \/ (stagedSource staged = "user"
      /\ configFileOf (StoreManager.getConfigsPath env) (Types.id (stagedProfile staged))
                      configPath).

(** With every path allowed, what remains of [tame] is that the process is
    not ended. *)
Definition anywhere : Path -> Prop := fun _ => True.

(** What a run of the loop may change: it only removes entries, one per
    count, each an old file of the directory whose deletion was allowed. *)
Definition sweptFrom (env : Env) (dir : Path) (n : nat) (w : World) (n' : nat) (w' : World) : Prop :=
  output w' = output w
  /\ nodes w' ⊆ nodes w
  /\ (size (nodes w') + n' = size (nodes w) + n)%nat
  /\ forall p, nodes w !! p <> None -> nodes w' !! p = None ->
               exists file content mtime,
                 p = Child dir file
                 /\ nodes w !! p = Some (File content mtime)
                 /\ mtime < cutoffTime env
                 /\ denied env OpUnlink p = false.

(** A removal goes ahead when [--force] is given or the user confirms the
    prompts. *)
Definition proceeds (env : Env) (force : bool) : Prop :=
  force = true \/ forall message, confirmAnswer env message = true.
(** ** utils/settings.ts: writing *)

Section SettingsWrites.

Variable env : Env.

(** [DEFAULT_SETTINGS] of store/types.ts. *)
Variable DEFAULT_SETTINGS : JsonObject.

Definition saveGlobalSettings (settings : JsonObject) : Eff unit :=
  let settingsPath := getSettingsPath env in
  let dir := dirname settingsPath in
  let! found := existsSync dir in
  let! _ := (if negb found then mkdirSync env dir else ret tt) in
  writeFileSync env settingsPath (stringifyPretty (JObject settings)).

(** [loadGlobalSettings().activeType] *)
Definition getActiveConfigType : Eff (option JsonValue) :=
  let! settings := loadGlobalSettings env DEFAULT_SETTINGS in
  ret (Obj.get "activeType" settings).

(** [settings.activeType = type] on the settings just loaded, then save. *)
Definition setActiveConfigType (configType : string) : Eff unit :=
  let! settings := loadGlobalSettings env DEFAULT_SETTINGS in
  saveGlobalSettings (Obj.set "activeType" (JString configType) settings).

Definition isOmosMode : Eff bool :=
  let! activeType := getActiveConfigType in
  ret (strictEqualsString activeType "slim").

End SettingsWrites.

(** ** commands/add.ts: deriving a profile id *)

Module Slug.

(** The character class [[a-z0-9]]. *)
Definition isIdChar (c : ascii) : bool :=
  let n := nat_of_ascii c in
  (Nat.leb 97 n && Nat.leb n 122) || (Nat.leb 48 n && Nat.leb n 57).

Definition dash : ascii := ascii_of_nat 45.

Definition isDash (c : ascii) : bool := Nat.eqb (nat_of_ascii c) 45.

(** [s.replace(/[^a-z0-9]+/g, "-")]; [inRun] tells that the character
    before was outside the class, so that its run is already replaced. *)
Fixpoint replaceRuns (inRun : bool) (s : string) : string :=
  match s with
  | EmptyString => EmptyString
  | String c rest =>
      if isIdChar c then String c (replaceRuns false rest)
      else if inRun then replaceRuns true rest
      else String dash (replaceRuns true rest)
  end.

(** [s.replace(/-$/, "")] *)
Fixpoint dropTrailingDash (s : string) : string :=
  match s with
  | EmptyString => EmptyString
  | String c EmptyString => if isDash c then EmptyString else s
  | String c rest => String c (dropTrailingDash rest)
  end.

(** [s.replace(/^-|-$/g, "")]: a dash at the start and a dash at the end
    of what is left. *)
Definition trimDashes (s : string) : string :=
  dropTrailingDash
    (match s with
     | String c rest => if isDash c then rest else s
     | EmptyString => EmptyString
     end).

(** Letters [a-z], digits and dashes only. *)
Definition isIdText (s : string) : bool :=
  forallb (fun c => isIdChar c || isDash c) (list_ascii_of_string s).

(** What an id looks like: at most fifty characters, letters [a-z], digits
    and dashes only, no dash at either end and no two dashes in a row. *)
Definition isId (s : string) : bool :=
  Nat.leb (String.length s) 50
  && isIdText s
  && negb (String.prefix "-" s)
  && negb (Str.includes "--" s)
  && String.eqb (dropTrailingDash s) s.

End Slug.

(** [name.toLowerCase().replace(/[^a-z0-9]+/g, "-").replace(/^-|-$/g, "").substring(0, 50)],
    for a name of characters below U+0100, where [toLowerCase] maps no
    character into [a-z] but the letters [A-Z]. *)
Definition deriveIdFromName (name : string) : string :=
  String.substring 0 50
    (Slug.trimDashes (Slug.replaceRuns false (Txt.toLowerCase name))).

(** ** What a command leaves behind when it does not go through *)

(** A removal is declined when [--force] is not given and the user answers
    no to the prompts. *)
Definition declines (env : Env) (force : bool) : Prop :=
  force = false /\ forall message, confirmAnswer env message = false.

(** A step of [handleOmoRm] that leaves the tree as it is unless it
    deletes: it ends the process with code 1 only, and when the removal is
    declined it neither deletes nor throws. *)
Definition stepClean (env : Env) (force : bool) (m : Eff Rm.Step) : Prop :=
  forall w r w',
    m w = (r, w') ->
    match r with
    | Returned (Rm.DeletedFrom _) => ~ declines env force
    | Thrown _ => ~ declines env force
    | Returned _ => nodes w' = nodes w
    | Exited c => c = 1 /\ nodes w' = nodes w
    end.

(** The statements of [handleOmoRm] that delete: they return where they
    deleted from, or throw. *)
Definition deletesOrThrows (m : Eff Rm.Step) : Prop :=
  forall w r w',
    m w = (r, w') ->
    match r with
    | Returned (Rm.DeletedFrom _) | Thrown _ => True
    | _ => False
    end.


(** ** A sample host *)

Module Host.

(** [JSON.parse] (and [JSON5.parse]) restricted to the texts that [JSON.stringify] produces,
    with or without indentation, for the documents of [docs]: on those
    texts it returns what the real parser returns. *)
Definition tableParse (docs : list JsonValue) (text : string) : option JsonValue :=
  List.find
    (fun v => String.eqb (stringify v) text || String.eqb (stringifyPretty v) text)
    docs.

(** A global index with one profile, [work], which is the active one. *)
Definition workProfile : Types.Profile :=
  {| Types.id := "work"; Types.name := "Work"; Types.config := Some (JObject []);
     Types.createdAt := "2024-01-01T00:00:00.000Z";
     Types.updatedAt := "2024-01-01T00:00:00.000Z" |}.

Definition workIndex : Types.StoreIndex :=
  {| Types.storeVersion := Types.STORE_VERSION;
     Types.activeProfileId := Some "work";
     Types.profiles := [workProfile] |}.

(** The index [StoreManager.syncProfiles] writes when it finds [bad.json] and no index. *)
Definition orphanIndex : Types.StoreIndex :=
  {| Types.storeVersion := Types.STORE_VERSION;
     Types.activeProfileId := None;
     Types.profiles :=
       [{| Types.id := "bad"; Types.name := "bad"; Types.config := Some (JObject []);
           Types.createdAt := "2023-11-14T22:13:20.000Z";
           Types.updatedAt := "2023-11-14T22:13:20.000Z" |}] |}.

(** A schema that wants [agents], when present, to be an object. *)
Definition agentsSchema : JsonValue :=
  JObject
    [("type", JString "object");
     ("properties", JObject [("agents", JObject [("type", JString "object")])])].

Definition knownDocuments : list JsonValue :=
  [agentsSchema;
   encodeIndex workIndex;
   encodeIndex orphanIndex;
   encodeIndex (StoreManager.withoutProfile "work" workIndex);
   JObject [];
   JNull;
   JObject [("activeType", JString "slim")];
   JObject [("activeProfileId", JNull)];
   JObject [("activeProfileId", JString "work")];
   JObject [("agents", JNumber 5)]].

Definition home : Path := Fs.join Root ["home"; "dev"].
Definition repo : Path := Fs.join Root ["repo"].

Definition sampleEnv : Env := {|
  cwd := Fs.join repo ["packages"; "app"];
  homedir := home;
  XDG_CONFIG_HOME := None;
  isWindows := false;
  USERPROFILE := None;
  APPDATA := None;
  packageRoot := Fs.join Root ["opt"; "omo-switch"];
  httpGet := fun _ => None;
  colours := plainChalk;
  nowMs := 1700000000000;
  nowISO := "2023-11-14T22:13:20.000Z";
  denied := fun _ _ => false;
  JSON_parse := tableParse knownDocuments;
  JSON5_parse := tableParse knownDocuments;
  confirmAnswer := fun _ => true;
  ajvCompile := fun schema => Some (fun data =>
    if String.eqb (stringify schema) (stringify agentsSchema) then
      match field data "agents" with
      | Some (JObject _) | None => (true, [])
      | Some _ => (false, ["/agents: must be object"])
      end
    else (true, []))
|}.

(** [DEFAULT_SETTINGS] as the tests of the settings manager observe it. *)
Definition sampleDefaults : JsonObject := [("activeType", JString "omo")].

(** A project at /repo whose rc file and the global settings file are
    both corrupt. *)
Definition corruptWorld : World := {|
  nodes := list_to_map
    [(Fs.join repo [".opencode"], Dir);
     (Fs.join repo [".opencode"; ".omorc"], File "{ not json" 0);
     (Fs.join home [".config"; "omo-switch"; "settings.json"], File "{ not json" 0)];
  output := []
|}.

(** A machine without any [.opencode] directory. *)
Definition bareWorld : World := {|
  nodes := list_to_map
    [(Fs.join Root ["repo"], Dir);
     (Fs.join Root ["repo"; "packages"], Dir);
     (Fs.join Root ["repo"; "packages"; "app"], Dir);
     (Fs.join Root ["repo"; "packages"; ".opencode"], File "a file, not a directory" 0)];
  output := []
|}.

(** Global settings that only say [{"activeType":"slim"}]. *)
Definition slimWorld : World := {|
  nodes := list_to_map
    [(Fs.join home [".config"; "omo-switch"; "settings.json"],
      File (stringifyPretty (JObject [("activeType", JString "slim")])) 0)];
  output := []
|}.

Definition backups : Path := Fs.join home [".omo-switch"; "backups"].

(** Forty days and one day before [nowMs sampleEnv]. *)
Definition fortyDaysAgo : Z := 1700000000000 - 40 * 24 * 60 * 60 * 1000.
Definition yesterday : Z := 1700000000000 - 24 * 60 * 60 * 1000.

(** A backups directory with two old files, a recent one and a folder. *)
Definition backupsWorld : World := {|
  nodes := list_to_map
    [(backups, Dir);
     (Child backups "old1.json", File "{}" fortyDaysAgo);
     (Child backups "old2.json", File "{}" fortyDaysAgo);
     (Child backups "recent.json", File "{}" yesterday);
     (Child backups "kept", Dir)];
  output := []
|}.

(** [sampleEnv] on a machine where [old1.json] cannot be deleted. *)
Definition lockedEnv : Env := {|
  cwd := cwd sampleEnv;
  homedir := homedir sampleEnv;
  XDG_CONFIG_HOME := XDG_CONFIG_HOME sampleEnv;
  isWindows := isWindows sampleEnv;
  USERPROFILE := USERPROFILE sampleEnv;
  APPDATA := APPDATA sampleEnv;
  packageRoot := packageRoot sampleEnv;
  httpGet := httpGet sampleEnv;
  colours := colours sampleEnv;
  nowMs := nowMs sampleEnv;
  nowISO := nowISO sampleEnv;
  denied := fun op p =>
    match op with
    | OpUnlink => bool_decide (p = Child backups "old1.json")
    | _ => false
    end;
  JSON_parse := JSON_parse sampleEnv;
  JSON5_parse := JSON5_parse sampleEnv;
  confirmAnswer := confirmAnswer sampleEnv;
  ajvCompile := ajvCompile sampleEnv
|}.

(** A machine where [work] is stored and active in both scopes. *)
Definition activeWorld : World := {|
  nodes := list_to_map
    [(Fs.join home [".omo-switch"], Dir);
     (Fs.join home [".omo-switch"; "index.json"],
      File (stringifyPretty (encodeIndex workIndex)) 0);
     (Fs.join home [".omo-switch"; "configs"], Dir);
     (Fs.join home [".omo-switch"; "configs"; "work.json"], File "{}" 0);
     (Fs.join repo [".opencode"], Dir);
     (Fs.join repo [".opencode"; "omo-configs"], Dir);
     (Fs.join repo [".opencode"; "omo-configs"; "work.jsonc"], File "{}" 0);
     (Fs.join repo [".opencode"; ".omorc"],
      File (stringifyPretty (JObject [("activeProfileId", JString "work")])) 0)];
  output := []
|}.

(** A machine with a cached schema, an applied configuration, and a
    profile file [bad.json], holding [{"agents":5}], that no index lists. *)
Definition orphanWorld : World := {|
  nodes := list_to_map
    [(Fs.join home [".omo-switch"], Dir);
     (Fs.join home [".omo-switch"; "configs"], Dir);
     (Fs.join home [".omo-switch"; "configs"; "bad.json"],
      File (stringify (JObject [("agents", JNumber 5)])) 0);
     (Fs.join home [".omo-switch"; "cache"], Dir);
     (Fs.join home [".omo-switch"; "cache"; "schema"], Dir);
     (Fs.join home [".omo-switch"; "cache"; "schema"; "oh-my-opencode.schema.json"],
      File (stringify agentsSchema) 0);
     (Fs.join home [".config"], Dir);
     (Fs.join home [".config"; "opencode"], Dir);
     (Fs.join home [".config"; "opencode"; "oh-my-opencode.jsonc"], File "// applied" 0)];
  output := []
|}.

End Host.
(** ** More of the sample host *)

Module Demo.

(** [{ theme: "dark", agents: { oracle: { model: "a" } } }] and
    [{ agents: { oracle: { model: "b" }, scout: {} }, extra: [1] }] *)
Definition globalDoc : Value :=
  obj [("theme", VString "dark");
       ("agents", obj [("oracle", obj [("model", VString "a")])])].

Definition projectDoc : Value :=
  obj [("agents", obj [("oracle", obj [("model", VString "b")]); ("scout", obj [])]);
       ("extra", VArray [VNumber 1])].

(** The line of [extra] in the diff of the two. *)
Definition extraLine : DiffLine :=
  mkDiffLine added "extra" "extra" None (Some (VArray [VNumber 1])) (Some (VArray [VNumber 1])).

(** The line of [config] in the diff of [{ config: { a: 1 } }] with
    itself. *)
Definition configLine : DiffLine :=
  mkDiffLine modified "config" "config"
    (Some (obj [("a", VNumber 1)])) (Some (obj [("a", VNumber 1)]))
    (Some (obj [("a", VNumber 1)])).

(** The line of [toString] in the diff of [{}] with [{ toString: 1 }]:
    the global side reads the inherited function. *)
Definition toStringLine : DiffLine :=
  mkDiffLine modified "toString" "toString"
    (Some (VBuiltin OfObject "toString")) (Some (VNumber 1))
    (Some (VBuiltin OfObject "toString")).

(** The index that lists the one profile [good]. *)
Definition goodIndex : Types.StoreIndex :=
  {| Types.storeVersion := Types.STORE_VERSION;
     Types.activeProfileId := None;
     Types.profiles :=
       [{| Types.id := "good"; Types.name := "good"; Types.config := Some (JObject []);
           Types.createdAt := "2023-11-14T22:13:20.000Z";
           Types.updatedAt := "2023-11-14T22:13:20.000Z" |}] |}.

(** [Host.sampleEnv] on a machine that is online and whose parser also
    reads the documents below. *)
Definition onlineEnv : Env := {|
  cwd := cwd Host.sampleEnv;
  homedir := homedir Host.sampleEnv;
  XDG_CONFIG_HOME := XDG_CONFIG_HOME Host.sampleEnv;
  isWindows := isWindows Host.sampleEnv;
  USERPROFILE := USERPROFILE Host.sampleEnv;
  APPDATA := APPDATA Host.sampleEnv;
  packageRoot := packageRoot Host.sampleEnv;
  httpGet := fun _ => Some (stringify Host.agentsSchema);
  colours := colours Host.sampleEnv;
  nowMs := nowMs Host.sampleEnv;
  nowISO := nowISO Host.sampleEnv;
  denied := denied Host.sampleEnv;
  JSON_parse :=
    Host.tableParse
      (encodeIndex goodIndex
       :: JObject [("activeType", JString "slim"); ("theme", JString "dark")]
       :: JObject [("theme", JString "dark")]
       :: Host.knownDocuments);
  JSON5_parse := JSON5_parse Host.sampleEnv;
  confirmAnswer := fun _ => false;
  ajvCompile := ajvCompile Host.sampleEnv
|}.

(** A machine with a cached schema and a profile file [good.json], holding
    [{}], that no index lists. *)
Definition goodWorld : World := {|
  nodes := list_to_map
    [(Fs.join Host.home [".omo-switch"], Dir);
     (Fs.join Host.home [".omo-switch"; "configs"], Dir);
     (Fs.join Host.home [".omo-switch"; "configs"; "good.json"], File "{}" 0);
     (Fs.join Host.home [".omo-switch"; "cache"], Dir);
     (Fs.join Host.home [".omo-switch"; "cache"; "schema"], Dir);
     (Fs.join Host.home [".omo-switch"; "cache"; "schema"; "oh-my-opencode.schema.json"],
      File (stringify Host.agentsSchema) 0)];
  output := []
|}.

(** A machine with an empty schema cache directory. *)
Definition emptyCacheWorld : World := {|
  nodes := list_to_map
    [(Fs.join Host.home [".omo-switch"; "cache"; "schema"], Dir)];
  output := []
|}.

(** A machine whose global settings only say [{ "theme": "dark" }]. *)
Definition darkWorld : World := {|
  nodes := list_to_map
    [(Fs.join Host.home [".config"; "omo-switch"; "settings.json"],
      File (stringifyPretty (JObject [("theme", JString "dark")])) 0)];
  output := []
|}.

End Demo.


(** * Properties *)

(** ** Objects as property lists: lookup, update, key order *)

Module ObjFacts.
Import Obj.

Lemma has_elem {A} (key : string) (o : list (string * A)) :
  has key o = true <-> key ∈ keys o.
Proof.
  unfold has, keys. induction o as [ | [k x] rest IH ]; simpl.
  - split; [ discriminate | intros H; inversion H ].
  - rewrite orb_true_iff, IH, String.eqb_eq, elem_of_cons. tauto.
Qed.

Lemma has_false {A} (key : string) (o : list (string * A)) :
  has key o = false <-> key ∉ keys o.
Proof.
  rewrite <- has_elem. destruct (has key o); split; congruence.
Qed.

Lemma get_None {A} (key : string) (o : list (string * A)) :
  get key o = None <-> key ∉ keys o.
Proof.
  unfold keys. induction o as [ | [k x] rest IH ]; simpl.
  - split; [ intros _ H; inversion H | reflexivity ].
  - rewrite not_elem_of_cons. destruct (String.eqb k key) eqn:E.
    + apply String.eqb_eq in E. subst. split; [ discriminate | intros [? _]; congruence ].
    + apply String.eqb_neq in E. rewrite IH. split; [ intros; split; congruence | tauto ].
Qed.

Lemma get_has {A} (key : string) (o : list (string * A)) :
  has key o = match get key o with Some _ => true | None => false end.
Proof.
  destruct (get key o) eqn:E.
  - apply has_elem. destruct (decide (key ∈ keys o)) as [ | n ]; [ assumption | ].
    apply get_None in n. congruence.
  - apply has_false, get_None, E.
Qed.

(** An array index has one name. *)
Lemma arrayIndex_inj (k1 k2 : string) (n : N) :
  arrayIndex k1 = Some n -> arrayIndex k2 = Some n -> k1 = k2.
Proof.
  unfold arrayIndex. intros H1 H2.
  destruct (NilZero.uint_of_string k1) as [d1 | ]; [ | discriminate ].
  destruct (NilZero.uint_of_string k2) as [d2 | ]; [ | discriminate ].
  destruct (String.eqb _ k1 && _) eqn:E1; [ | discriminate ].
  destruct (String.eqb _ k2 && _) eqn:E2; [ | discriminate ].
  injection H1 as H1. injection H2 as H2.
  apply andb_true_iff in E1 as [E1 _]. apply andb_true_iff in E2 as [E2 _].
  apply String.eqb_eq in E1, E2. rewrite H1 in E1. rewrite H2 in E2. congruence.
Qed.

Lemma precedes_irrefl (k : string) : precedes k k = false.
Proof.
  unfold precedes. destruct (arrayIndex k); [ apply N.ltb_irrefl | reflexivity ].
Qed.

Lemma before_precedes (k1 k2 : string) : before k1 k2 -> precedes k2 k1 = false.
Proof.
  unfold before, precedes.
  destruct (arrayIndex k1), (arrayIndex k2); try reflexivity; try contradiction.
  intros H. apply N.ltb_ge. lia.
Qed.

Lemma precedes_before (k1 k2 : string) : precedes k1 k2 = true -> before k1 k2.
Proof.
  unfold before, precedes.
  destruct (arrayIndex k1), (arrayIndex k2); try discriminate; try exact (fun _ => I).
  apply N.ltb_lt.
Qed.

(** Of two different names, one that does not precede the other may come
    after it. *)
Lemma not_precedes_before (k1 k2 : string) :
  k1 <> k2 -> precedes k1 k2 = false -> before k2 k1.
Proof.
  unfold before, precedes. intros Hne.
  destruct (arrayIndex k1) as [i | ] eqn:E1, (arrayIndex k2) as [j | ] eqn:E2;
    try discriminate; try exact (fun _ => I).
  intros H. apply N.ltb_ge in H.
  destruct (decide (i = j)) as [-> | Hij]; [ | lia ].
  exfalso. apply Hne. exact (arrayIndex_inj _ _ _ E1 E2).
Qed.

Lemma before_trans (k1 k2 k3 : string) :
  precedes k1 k2 = true -> before k2 k3 -> before k1 k3.
Proof.
  unfold before, precedes.
  destruct (arrayIndex k1), (arrayIndex k2), (arrayIndex k3);
    try discriminate; try contradiction; try exact (fun _ _ => I).
  intros H1 H2. apply N.ltb_lt in H1. lia.
Qed.

Lemma get_overwrite {A} (k k' : string) (v : A) (o : list (string * A)) :
  has k o = true ->
  get k' (overwrite k v o) = if String.eqb k k' then Some v else get k' o.
Proof.
  unfold has. induction o as [ | [k0 x] rest IH ]; simpl; [ discriminate | ].
  destruct (String.eqb k0 k) eqn:E0; simpl.
  - apply String.eqb_eq in E0. subst. intros _. destruct (String.eqb k k'); reflexivity.
  - rewrite String.eqb_sym, E0. simpl. intros H. rewrite (IH H).
    destruct (String.eqb k0 k') eqn:E1; [ | reflexivity ].
    apply String.eqb_eq in E1. subst. rewrite String.eqb_sym, E0. reflexivity.
Qed.

Lemma get_insertNew {A} (k k' : string) (v : A) (o : list (string * A)) :
  has k o = false ->
  get k' (insertNew k v o) = if String.eqb k k' then Some v else get k' o.
Proof.
  unfold has. induction o as [ | [k0 x] rest IH ]; simpl; [ reflexivity | ].
  intros H. apply orb_false_iff in H as [E0 H].
  destruct (precedes k k0); simpl.
  - reflexivity.
  - rewrite (IH H). destruct (String.eqb k0 k') eqn:E1; [ | reflexivity ].
    apply String.eqb_eq in E1. subst. rewrite E0. reflexivity.
Qed.

Lemma get_set {A} (k k' : string) (v : A) (o : list (string * A)) :
  get k' (set k v o) = if String.eqb k k' then Some v else get k' o.
Proof.
  unfold set. destruct (has k o) eqn:E; [ apply get_overwrite | apply get_insertNew ]; exact E.
Qed.

Lemma has_set {A} (k k' : string) (v : A) (o : list (string * A)) :
  has k' (set k v o) = String.eqb k k' || has k' o.
Proof.
  rewrite !get_has, get_set. destruct (String.eqb k k'); reflexivity.
Qed.

Lemma keys_overwrite {A} (k : string) (v : A) (o : list (string * A)) :
  keys (overwrite k v o) = keys o.
Proof.
  unfold keys. induction o as [ | [k0 x] rest IH ]; simpl; [ reflexivity | ].
  destruct (String.eqb k0 k); simpl; congruence.
Qed.

Lemma keys_insertNew {A} (k : string) (v : A) (o : list (string * A)) :
  keys (insertNew k v o) ≡ₚ k :: keys o.
Proof.
  unfold keys. induction o as [ | [k0 x] rest IH ]; simpl; [ reflexivity | ].
  destruct (precedes k k0); simpl; [ reflexivity | ].
  rewrite IH. apply Permutation_swap.
Qed.

Lemma names_app (l1 l2 : list string) : names (l1 ++ l2) = names l1 ++ names l2.
Proof. apply List.filter_app. Qed.

Lemma names_insertNew {A} (k : string) (v : A) (o : list (string * A)) :
  names (keys (insertNew k v o))
  = match arrayIndex k with
    | Some _ => names (keys o)
    | None => names (keys o) ++ [k]
    end.
Proof.
  unfold keys, names. induction o as [ | [k0 x] rest IH ]; simpl.
  - destruct (arrayIndex k); reflexivity.
  - destruct (precedes k k0) eqn:E; simpl.
    + unfold precedes in E. destruct (arrayIndex k); [ reflexivity | discriminate ].
    + rewrite IH. destruct (arrayIndex k0), (arrayIndex k); reflexivity.
Qed.

(** The names that are not array indices, after a write. *)
Lemma names_set {A} (k : string) (v : A) (o : list (string * A)) :
  names (keys (set k v o))
  = if has k o then names (keys o)
    else match arrayIndex k with
         | Some _ => names (keys o)
         | None => names (keys o) ++ [k]
         end.
Proof.
  unfold set. destruct (has k o); [ rewrite keys_overwrite; reflexivity | apply names_insertNew ].
Qed.

Lemma insertNew_sorted {A} (k : string) (v : A) (o : list (string * A)) :
  k ∉ keys o -> StronglySorted before (keys o) ->
  StronglySorted before (keys (insertNew k v o)).
Proof.
  unfold keys. induction o as [ | [k0 x] rest IH ]; simpl; intros Hk Hs.
  - repeat constructor.
  - apply not_elem_of_cons in Hk as [Hne Hk].
    apply StronglySorted_cons in Hs as [Hall Hs].
    destruct (precedes k k0) eqn:E; simpl.
    + apply StronglySorted_cons. split.
      * constructor; [ apply precedes_before, E | ].
        eapply Forall_impl; [ exact Hall | ]. intros k1. apply before_trans, E.
      * apply StronglySorted_cons. split; assumption.
    + apply StronglySorted_cons. split; [ | apply IH; assumption ].
      apply Forall_forall. intros k1 H1.
      assert (H1' : k1 ∈ map fst (insertNew k v rest)) by exact H1.
      pose proof (keys_insertNew k v rest) as Hp. unfold keys in Hp.
      rewrite Hp in H1'. apply elem_of_cons in H1' as [-> | H1'].
      * apply not_precedes_before; assumption.
      * rewrite Forall_forall in Hall. apply Hall. exact H1'.
Qed.

(** A write keeps the properties in an order [Object.keys] can give. *)
Lemma set_ordered {A} (k : string) (v : A) (o : list (string * A)) :
  ordered (keys o) -> ordered (keys (set k v o)).
Proof.
  unfold set, ordered. intros [Hnd Hs]. destruct (has k o) eqn:E.
  - rewrite keys_overwrite. split; assumption.
  - apply has_false in E. split; [ | apply insertNew_sorted; assumption ].
    rewrite keys_insertNew. constructor; assumption.
Qed.

(** A new property that none of the others has to follow goes last. *)
Lemma set_last {A} (k : string) (v : A) (o : list (string * A)) :
  k ∉ keys o -> Forall (fun k0 => before k0 k) (keys o) ->
  set k v o = o ++ [(k, v)].
Proof.
  intros Hk Hall. unfold set. rewrite (proj2 (has_false k o) Hk). clear Hk.
  unfold keys in Hall. induction o as [ | [k0 x] rest IH ]; simpl; [ reflexivity | ].
  apply Forall_cons in Hall as [H0 Hall]. simpl in H0.
  rewrite (before_precedes _ _ H0). f_equal. apply IH, Hall.
Qed.

Lemma ordered_app_inv (l1 l2 : list string) :
  ordered (l1 ++ l2) ->
  ordered l1 /\ ordered l2 /\ (forall k1 k2, k1 ∈ l1 -> k2 ∈ l2 -> k1 <> k2 /\ before k1 k2).
Proof.
  unfold ordered. intros [Hnd Hs]. apply NoDup_app in Hnd as (Hn1 & Hdisj & Hn2).
  apply StronglySorted_app in Hs as (Hcross & Hs1 & Hs2).
  repeat split; try assumption.
  - intros ->. exact (Hdisj _ H H0).
  - apply Hcross; assumption.
Qed.

(** A loop that writes one property for each entry of a list in
    [Object.keys] order, into a fresh object, gives them in that order. *)
Lemma fold_set_ordered {A B} (f : string * A -> B) (l : list (string * A)) :
  ordered (keys l) ->
  fold_left (fun result kv => set (fst kv) (f kv) result) l []
  = map (fun kv => (fst kv, f kv)) l.
Proof.
  intros Hord.
  assert (H : forall done rest,
             ordered (keys (done ++ rest)) ->
             fold_left (fun result kv => set (fst kv) (f kv) result) rest
                       (map (fun kv => (fst kv, f kv)) done)
             = map (fun kv => (fst kv, f kv)) (done ++ rest)).
  { intros done rest. revert done.
    induction rest as [ | [k x] rest IH ]; intros done Ho; simpl.
    - rewrite app_nil_r. reflexivity.
    - unfold keys in Ho. rewrite map_app in Ho.
      destruct (ordered_app_inv _ _ Ho) as (_ & _ & Hcross).
      rewrite set_last.
      + replace (done ++ (k, x) :: rest) with ((done ++ [(k, x)]) ++ rest)
          by (rewrite <- app_assoc; reflexivity).
        rewrite <- IH.
        * rewrite map_app. reflexivity.
        * unfold keys. rewrite <- app_assoc, map_app. exact Ho.
      + unfold keys. rewrite map_map. simpl. intros Hin.
        destruct (Hcross k k Hin (list_elem_of_here _ _)) as [Hne _]. congruence.
      + unfold keys. rewrite map_map. simpl. apply Forall_forall. intros k0 Hin.
        apply (Hcross k0 k Hin (list_elem_of_here _ _)). }
  apply (H [] l). exact Hord.
Qed.

Lemma names_elem (k : string) (l : list string) :
  k ∈ names l <-> k ∈ l /\ arrayIndex k = None.
Proof.
  unfold names. rewrite list_elem_of_In, filter_In, <- list_elem_of_In.
  destruct (arrayIndex k); split; intros [? ?]; split; congruence.
Qed.

(** A list in [Object.keys] order is its array indices, ascending,
    followed by its other names. *)
Lemma ordered_split (l : list string) :
  StronglySorted before l ->
  l = List.filter (fun k => match arrayIndex k with Some _ => true | None => false end) l
      ++ names l.
Proof.
  unfold names. induction 1 as [ | k rest Hs IH Hall ]; simpl; [ reflexivity | ].
  destruct (arrayIndex k) eqn:Ek; simpl; [ f_equal; exact IH | ].
  assert (Hrest : List.filter (fun k0 => match arrayIndex k0 with Some _ => true | None => false end)
                    rest = []).
  { clear IH Hs. induction rest as [ | k0 r IHr ]; simpl; [ reflexivity | ].
    apply Forall_cons in Hall as [H0 Hall]. unfold before in H0. rewrite Ek in H0.
    destruct (arrayIndex k0); [ contradiction | apply IHr, Hall ]. }
  rewrite Hrest in *. simpl. f_equal. simpl in IH. exact IH.
Qed.

Lemma keys_eq_ext {A} (l1 l2 : list (string * A)) :
  NoDup (keys l1) -> keys l1 = keys l2 -> (forall k, get k l1 = get k l2) -> l1 = l2.
Proof.
  unfold keys. revert l2. induction l1 as [ | [k x] rest IH ]; intros [ | [k' x'] rest' ];
    simpl; intros Hnd Hk Hg; try discriminate; [ reflexivity | ].
  injection Hk as <- Hk. apply NoDup_cons in Hnd as [Hk0 Hnd].
  pose proof (Hg k) as H0. rewrite String.eqb_refl in H0. injection H0 as <-.
  f_equal. apply IH; [ exact Hnd | exact Hk | ].
  intros k1. specialize (Hg k1). destruct (String.eqb k k1) eqn:E; [ | exact Hg ].
  apply String.eqb_eq in E. subst k1.
  rewrite (proj2 (get_None k rest)) by exact Hk0.
  symmetry. apply get_None. unfold keys. rewrite <- Hk. exact Hk0.
Qed.

(** Two objects with the same properties, whose names that are not array
    indices come in the same order, are one object. *)
Lemma ordered_ext {A} (l1 l2 : list (string * A)) :
  ordered (keys l1) -> ordered (keys l2) ->
  (forall k, get k l1 = get k l2) ->
  names (keys l1) = names (keys l2) ->
  l1 = l2.
Proof.
  intros [Hn1 Hs1] [Hn2 Hs2] Hget Hnames.
  apply keys_eq_ext; [ exact Hn1 | | exact Hget ].
  rewrite (ordered_split _ Hs1), (ordered_split _ Hs2), Hnames. f_equal.
  set (isIndex := fun k => match arrayIndex k with Some _ => true | None => false end).
  apply (StronglySorted_unique_strong before).
  - intros k1 k2 H1 H2. apply list_elem_of_In, filter_In in H1 as [_ H1].
    apply list_elem_of_In, filter_In in H2 as [_ H2]. unfold isIndex in H1, H2.
    unfold before. destruct (arrayIndex k1), (arrayIndex k2); try discriminate. lia.
  - clear -Hs1. induction Hs1 as [ | k rest Hs IH Hall ]; simpl; [ constructor | ].
    destruct (isIndex k); [ | exact IH ]. constructor; [ exact IH | ].
    apply Forall_forall. intros k0 H0. apply list_elem_of_In, filter_In in H0 as [H0 _].
    rewrite Forall_forall in Hall. apply Hall, list_elem_of_In, H0.
  - clear -Hs2. induction Hs2 as [ | k rest Hs IH Hall ]; simpl; [ constructor | ].
    destruct (isIndex k); [ | exact IH ]. constructor; [ exact IH | ].
    apply Forall_forall. intros k0 H0. apply list_elem_of_In, filter_In in H0 as [H0 _].
    rewrite Forall_forall in Hall. apply Hall, list_elem_of_In, H0.
  - apply NoDup_Permutation.
    + apply NoDup_ListNoDup, List.NoDup_filter, NoDup_ListNoDup, Hn1.
    + apply NoDup_ListNoDup, List.NoDup_filter, NoDup_ListNoDup, Hn2.
    + intros k. rewrite !list_elem_of_In, !filter_In, <- !list_elem_of_In.
      assert (Hkeys : k ∈ keys l1 <-> k ∈ keys l2).
      { specialize (Hget k). pose proof (get_None k l1). pose proof (get_None k l2).
        destruct (get k l1), (get k l2); try discriminate; split; intros Hin;
          destruct (decide (k ∈ keys l1)), (decide (k ∈ keys l2)); tauto || (exfalso; intuition congruence). }
      tauto.
Qed.

Lemma get_app {A} (key : string) (o1 o2 : list (string * A)) :
  get key (o1 ++ o2) = match get key o1 with Some v => Some v | None => get key o2 end.
Proof.
  induction o1 as [ | [k x] rest IH ]; simpl; [ reflexivity | ].
  destruct (String.eqb k key); [ reflexivity | apply IH ].
Qed.

Lemma get_map {A B} (f : string -> A -> B) (key : string) (o : list (string * A)) :
  get key (map (fun kv => (fst kv, f (fst kv) (snd kv))) o) = option_map (f key) (get key o).
Proof.
  induction o as [ | [k x] rest IH ]; simpl; [ reflexivity | ].
  destruct (String.eqb k key) eqn:E; [ | apply IH ].
  apply String.eqb_eq in E. subst. reflexivity.
Qed.

Lemma keys_map {A B} (f : string * A -> B) (l : list (string * A)) :
  keys (map (fun kv => (fst kv, f kv)) l) = keys l.
Proof. unfold keys. rewrite map_map. reflexivity. Qed.

Lemma fold_left_pointwise {X Y} (f g : X -> Y -> X) (l : list Y) (acc : X) :
  (forall r y, y ∈ l -> f r y = g r y) -> fold_left f l acc = fold_left g l acc.
Proof.
  revert acc. induction l as [ | y ys IH ]; simpl; intros acc Hfg; [ reflexivity | ].
  rewrite Hfg by left. apply IH. intros r y' Hy. apply Hfg. right. exact Hy.
Qed.

Lemma set_NoDup {A} (k : string) (v : A) (o : list (string * A)) :
  NoDup (keys o) -> NoDup (keys (set k v o)).
Proof.
  intros Hnd. unfold set. destruct (has k o) eqn:E.
  - rewrite keys_overwrite. exact Hnd.
  - rewrite keys_insertNew. constructor; [ apply has_false, E | exact Hnd ].
Qed.

Lemma elem_keys_set {A} (k k' : string) (v : A) (o : list (string * A)) :
  k' ∈ keys (set k v o) <-> k' = k \/ k' ∈ keys o.
Proof.
  rewrite <- !has_elem, has_set, orb_true_iff, String.eqb_eq. intuition congruence.
Qed.

(** A loop that writes one property for each entry of [l] whose name
    passes [p]: what the result holds. *)
Lemma get_fold_set_when {A B} (p : string -> bool) (f : string * A -> B)
    (l : list (string * A)) (acc : list (string * B)) (k : string) :
  NoDup (keys l) ->
  get k (fold_left (fun result kv => if p (fst kv) then set (fst kv) (f kv) result else result)
                   l acc)
  = if p k
    then match get k l with
         | Some v => Some (f (k, v))
         | None => get k acc
         end
    else get k acc.
Proof.
  revert acc. induction l as [ | [k0 x] rest IH ]; simpl; intros acc Hnd.
  - destruct (p k); reflexivity.
  - apply NoDup_cons in Hnd as [Hk0 Hnd]. rewrite (IH _ Hnd).
    destruct (String.eqb k0 k) eqn:E.
    + apply String.eqb_eq in E. subst k0.
      rewrite (proj2 (get_None k rest) Hk0).
      destruct (p k); [ | reflexivity ]. rewrite get_set, String.eqb_refl. reflexivity.
    + destruct (p k0); [ | reflexivity ]. rewrite get_set, E. reflexivity.
Qed.

Lemma ordered_fold_set_when {A B} (p : string -> bool) (f : string * A -> B)
    (l : list (string * A)) (acc : list (string * B)) :
  ordered (keys acc) ->
  ordered (keys (fold_left
                   (fun result kv => if p (fst kv) then set (fst kv) (f kv) result else result)
                   l acc)).
Proof.
  revert acc. induction l as [ | [k0 x] rest IH ]; simpl; intros acc Ho; [ exact Ho | ].
  apply IH. destruct (p k0); [ apply set_ordered, Ho | exact Ho ].
Qed.

(** The names such a loop adds come after those that were there, in the
    order of [l]. *)
Lemma names_fold_set_when {A B} (p : string -> bool) (f : string * A -> B)
    (l : list (string * A)) (acc : list (string * B)) :
  NoDup (keys l) ->
  (forall k, k ∈ keys l -> p k = true -> k ∉ keys acc) ->
  names (keys (fold_left
                 (fun result kv => if p (fst kv) then set (fst kv) (f kv) result else result)
                 l acc))
  = names (keys acc) ++ names (List.filter p (keys l)).
Proof.
  revert acc. induction l as [ | [k0 x] rest IH ]; simpl; intros acc Hnd Hfresh.
  - rewrite app_nil_r. reflexivity.
  - apply NoDup_cons in Hnd as [Hk0 Hnd].
    destruct (p k0) eqn:Ep.
    + rewrite IH.
      * rewrite names_set, (proj2 (has_false k0 acc)) by (apply Hfresh; [ left | exact Ep ]).
        unfold names at 4. simpl.
        destruct (arrayIndex k0); [ reflexivity | ]. rewrite <- app_assoc. reflexivity.
      * exact Hnd.
      * intros k Hk Hp. rewrite elem_keys_set. intros [-> | Hin]; [ contradiction | ].
        revert Hin. apply Hfresh; [ right; exact Hk | exact Hp ].
    + apply IH; [ exact Hnd | ]. intros k Hk Hp. apply Hfresh; [ right; exact Hk | exact Hp ].
Qed.

End ObjFacts.

(** ** Parsed documents *)

Lemma wfValue_object (props : JsonObject) :
  wfValue (JObject props) = true <->
  NoDup (Obj.keys props) /\ Forall (fun kv => wfValue (snd kv) = true) props.
Proof.
  simpl. rewrite andb_true_iff, bool_decide_eq_true, forallb_forall, Forall_forall.
  unfold Obj.keys. split; intros [H1 H2]; (split; [ exact H1 | ]); intros x Hx; apply H2.
  - apply list_elem_of_In. exact Hx.
  - apply list_elem_of_In. exact Hx.
Qed.

(** ** Values at run time *)

(** Induction over values that reaches inside arrays, objects and
    prototypes. *)
Lemma Value_deep_ind (P : Value -> Prop) :
  P VNull ->
  (forall b, P (VBool b)) ->
  (forall n, P (VNumber n)) ->
  (forall s, P (VString s)) ->
  (forall items, Forall P items -> P (VArray items)) ->
  (forall proto props, P proto -> Forall (fun kv => P (snd kv)) props -> P (VObject proto props)) ->
  P VObjectPrototype ->
  (forall home name, P (VBuiltin home name)) ->
  forall v, P v.
Proof.
  intros Hnull Hbool Hnum Hstr Harr Hobj Hop Hbuiltin.
  fix IH 1. intros [ | b | n | s | items | proto props | | home name ].
  - exact Hnull.
  - apply Hbool.
  - apply Hnum.
  - apply Hstr.
  - apply Harr. induction items as [ | x xs IHxs ]; constructor; [ apply IH | exact IHxs ].
  - apply Hobj; [ apply IH | ].
    induction props as [ | [k x] ps IHps ]; constructor; [ apply IH | exact IHps ].
  - exact Hop.
  - apply Hbuiltin.
Qed.

(** ** Reading and writing properties *)

Lemma isOneOf_elem (names : list string) (key : string) :
  isOneOf names key = true <-> key ∈ names.
Proof.
  unfold isOneOf. induction names as [ | n rest IH ]; simpl.
  - split; [ discriminate | intros H; inversion H ].
  - rewrite orb_true_iff, IH, String.eqb_eq, elem_of_cons. tauto.
Qed.

Lemma lookupObjectPrototype_plain (key : string) :
  isOneOf objectPrototypeNames key = false -> lookupObjectPrototype key = Missing.
Proof.
  unfold objectPrototypeNames, lookupObjectPrototype, isOneOf. simpl.
  intros H. apply orb_false_iff in H as [H1 H2]. rewrite H1.
  fold (isOneOf objectPrototypeMethods key). unfold isOneOf. simpl. rewrite H2. reflexivity.
Qed.

Lemma lookupObjectPrototype_accessor (key : string) :
  lookupObjectPrototype key = Accessor <-> key = "__proto__".
Proof.
  unfold lookupObjectPrototype. destruct (String.eqb key "__proto__") eqn:E.
  - apply String.eqb_eq in E. tauto.
  - apply String.eqb_neq in E. destruct (isOneOf objectPrototypeMethods key); split; congruence.
Qed.

(** The one accessor a walk can meet is [__proto__]. *)
Lemma lookup_accessor (v : Value) (key : string) :
  lookup v key = Accessor -> key = "__proto__".
Proof.
  induction v as [ | | | | items _ | proto props IHproto _ | | ] using Value_deep_ind;
    cbn [lookup]; try discriminate.
  - destruct (Obj.arrayIndex key).
    + destruct (nth_error items _); [ discriminate | apply lookupObjectPrototype_accessor ].
    + destruct (String.eqb key "length"); [ discriminate | ].
      destruct (isOneOf arrayPrototypeMethods key); [ discriminate | ].
      apply lookupObjectPrototype_accessor.
  - destruct (Obj.get key props); [ discriminate | exact IHproto ].
  - apply lookupObjectPrototype_accessor.
Qed.

(** A property of the object itself is what a read finds. *)
Lemma getProp_own (proto : Value) (props : list (string * Value)) (key : string) (v : Value) :
  Obj.get key props = Some v -> getProp (VObject proto props) key = Some v.
Proof. unfold getProp. simpl. intros ->. reflexivity. Qed.

Lemma hasProp_own (proto : Value) (props : list (string * Value)) (key : string) :
  Obj.has key props = true -> hasProp (VObject proto props) key = true.
Proof.
  unfold hasProp. simpl. rewrite ObjFacts.get_has.
  destruct (Obj.get key props); [ reflexivity | discriminate ].
Qed.

(** Under a name that [Object.prototype] does not define, an object
    literal has what it has itself. *)
Lemma getProp_plain (props : list (string * Value)) (key : string) :
  isOneOf objectPrototypeNames key = false ->
  getProp (obj props) key = Obj.get key props.
Proof.
  intros H. unfold getProp, obj. simpl.
  destruct (Obj.get key props); [ reflexivity | ].
  rewrite (lookupObjectPrototype_plain key H). reflexivity.
Qed.

Lemma hasProp_plain (props : list (string * Value)) (key : string) :
  isOneOf objectPrototypeNames key = false ->
  hasProp (obj props) key = Obj.has key props.
Proof.
  intros H. unfold hasProp, obj. simpl. rewrite ObjFacts.get_has.
  destruct (Obj.get key props); [ reflexivity | ].
  rewrite (lookupObjectPrototype_plain key H). reflexivity.
Qed.

(** Every name that [Object.prototype] defines is [in] an object literal. *)
Lemma hasProp_inherited (props : list (string * Value)) (key : string) :
  isOneOf objectPrototypeNames key = true -> hasProp (obj props) key = true.
Proof.
  intros H. unfold hasProp, obj. simpl. destruct (Obj.get key props); [ reflexivity | ].
  unfold lookupObjectPrototype. destruct (String.eqb key "__proto__") eqn:E; [ reflexivity | ].
  unfold objectPrototypeNames, isOneOf in H. simpl in H. rewrite E in H. simpl in H.
  unfold isOneOf. simpl. rewrite H. reflexivity.
Qed.

(** A write under any name but [__proto__] gives the object a property. *)
Lemma setProp_obj (key : string) (value : Value) (props : list (string * Value)) :
  key <> "__proto__" ->
  setProp key value (obj props) = obj (Obj.set key value props).
Proof.
  intros Hne. unfold setProp, obj. destruct (Obj.has key props); [ reflexivity | ].
  simpl. destruct (lookupObjectPrototype key) eqn:E; try reflexivity.
  apply lookupObjectPrototype_accessor in E. contradiction.
Qed.

(** Whatever its prototype, the properties an object has itself after a
    write under [key]: at every other name, those it had. *)
Lemma setProp_is_object (key : string) (value : Value) (proto : Value)
    (props : list (string * Value)) :
  exists proto' props',
    setProp key value (VObject proto props) = VObject proto' props'
    /\ (forall k, k <> key -> Obj.get k props' = Obj.get k props)
    /\ (key <> "__proto__" -> proto' = proto /\ props' = Obj.set key value props).
Proof.
  unfold setProp. destruct (Obj.has key props) eqn:Eh.
  - exists proto, (Obj.set key value props). split; [ reflexivity | split ].
    + intros k Hk. rewrite ObjFacts.get_set.
      destruct (String.eqb key k) eqn:E; [ apply String.eqb_eq in E; congruence | reflexivity ].
    + tauto.
  - destruct (lookup proto key) eqn:El.
    + exists proto, (Obj.set key value props). split; [ reflexivity | split ].
      * intros k Hk. rewrite ObjFacts.get_set.
        destruct (String.eqb key k) eqn:E; [ apply String.eqb_eq in E; congruence | reflexivity ].
      * tauto.
    + pose proof (lookup_accessor _ _ El) as Hkey.
      destruct (isObjectOrNull value).
      * exists value, props. split; [ reflexivity | split; [ reflexivity | ] ].
        intros Hne. contradiction.
      * exists proto, props. split; [ reflexivity | split; [ reflexivity | ] ].
        intros Hne. contradiction.
    + exists proto, (Obj.set key value props). split; [ reflexivity | split ].
      * intros k Hk. rewrite ObjFacts.get_set.
        destruct (String.eqb key k) eqn:E; [ apply String.eqb_eq in E; congruence | reflexivity ].
      * tauto.
Qed.

(** ** Documents *)

Lemma isDocument_object (proto : Value) (props : list (string * Value)) :
  isDocument (VObject proto props) = true <->
  proto = VObjectPrototype
  /\ Obj.ordered (Obj.keys props)
  /\ Forall (fun kv => isDocument (snd kv) = true) props.
Proof.
  cbn [isDocument]. destruct proto; try (split; [ discriminate | intros [H _]; discriminate ]).
  rewrite andb_true_iff, bool_decide_eq_true, forallb_forall, Forall_forall.
  split.
  - intros [H1 H2]. split; [ reflexivity | split; [ exact H1 | ] ].
    intros x Hx. apply H2, list_elem_of_In, Hx.
  - intros (_ & H1 & H2). split; [ exact H1 | ]. intros x Hx. apply H2, list_elem_of_In, Hx.
Qed.

Lemma plainNames_object (proto : Value) (props : list (string * Value)) :
  plainNames (VObject proto props) = true <->
  Forall (fun kv => isOneOf objectPrototypeNames (fst kv) = false
                    /\ plainNames (snd kv) = true) props.
Proof.
  cbn [plainNames]. rewrite forallb_forall, Forall_forall. split.
  - intros H x Hx. specialize (H x (proj1 (list_elem_of_In _ _) Hx)).
    apply andb_true_iff in H as [H1 H2]. apply negb_true_iff in H1. tauto.
  - intros H x Hx. destruct (H x (proj2 (list_elem_of_In _ _) Hx)) as [H1 H2].
    rewrite H1, H2. reflexivity.
Qed.

(** A document without inherited names, taken apart. *)
Lemma plainDocument_object (proto : Value) (props : list (string * Value)) :
  plainDocument (VObject proto props) = true <->
  proto = VObjectPrototype
  /\ Obj.ordered (Obj.keys props)
  /\ Forall (fun kv => isOneOf objectPrototypeNames (fst kv) = false
                       /\ plainDocument (snd kv) = true) props.
Proof.
  unfold plainDocument. rewrite andb_true_iff, isDocument_object, plainNames_object.
  rewrite !Forall_forall. split.
  - intros ((Hp & Ho & Hd) & Hn). split; [ exact Hp | split; [ exact Ho | ] ].
    intros x Hx. destruct (Hn x Hx) as [H1 H2]. rewrite (Hd x Hx), H2. tauto.
  - intros (Hp & Ho & H). split; [ split; [ exact Hp | split; [ exact Ho | ] ] | ].
    + intros x Hx. destruct (H x Hx) as [_ H2]. apply andb_true_iff in H2. tauto.
    + intros x Hx. destruct (H x Hx) as [H1 H2]. apply andb_true_iff in H2. tauto.
Qed.

Lemma plainDocument_array (items : list Value) :
  plainDocument (VArray items) = true <-> Forall (fun x => plainDocument x = true) items.
Proof.
  unfold plainDocument. cbn [isDocument plainNames].
  rewrite andb_true_iff, !forallb_forall, Forall_forall. split.
  - intros [H1 H2] x Hx. apply list_elem_of_In in Hx. rewrite (H1 x Hx), (H2 x Hx). reflexivity.
  - intros H. split; intros x Hx; apply list_elem_of_In in Hx; specialize (H x Hx);
      apply andb_true_iff in H; tauto.
Qed.

Lemma plain_name_not_proto (key : string) :
  isOneOf objectPrototypeNames key = false -> key <> "__proto__".
Proof. intros H ->. discriminate. Qed.

Lemma plainDocument_lookup (props : list (string * Value)) (k : string) (v : Value) :
  plainDocument (obj props) = true -> Obj.get k props = Some v -> plainDocument v = true.
Proof.
  intros Hd. apply plainDocument_object in Hd as (_ & _ & Hall).
  induction props as [ | [k' x] rest IH ]; simpl; [ discriminate | ].
  apply Forall_cons in Hall as [[_ Hx] Hall]. destruct (String.eqb k' k); [ | auto ].
  intros [= <-]. exact Hx.
Qed.

Lemma plainDocument_key (props : list (string * Value)) (k : string) :
  plainDocument (obj props) = true -> Obj.has k props = true ->
  isOneOf objectPrototypeNames k = false.
Proof.
  intros Hd Hk. apply plainDocument_object in Hd as (_ & _ & Hall).
  apply ObjFacts.has_elem in Hk. unfold Obj.keys in Hk.
  apply list_elem_of_fmap in Hk as ([k' x] & -> & Hin).
  rewrite Forall_forall in Hall. apply (Hall _ Hin).
Qed.

(** ** Facts about the merge engine *)

Lemma fold_setProp_when {X} (c : X -> bool) (name : X -> string) (g : X -> Value)
    (l : list X) (acc : list (string * Value)) :
  Forall (fun x => name x <> "__proto__") l ->
  fold_left (fun result x => if c x then setProp (name x) (g x) result else result) l (obj acc)
  = obj (fold_left (fun result x => if c x then Obj.set (name x) (g x) result else result)
                   l acc).
Proof.
  revert acc. induction l as [ | x rest IH ]; cbn [fold_left]; intros acc Hall; [ reflexivity | ].
  apply Forall_cons in Hall as [Hx Hall].
  destruct (c x); [ rewrite (setProp_obj _ _ _ Hx) | ]; apply IH, Hall.
Qed.

Lemma fold_setProp {X} (name : X -> string) (g : X -> Value)
    (l : list X) (acc : list (string * Value)) :
  Forall (fun x => name x <> "__proto__") l ->
  fold_left (fun result x => setProp (name x) (g x) result) l (obj acc)
  = obj (fold_left (fun result x => Obj.set (name x) (g x) result) l acc).
Proof.
  revert acc. induction l as [ | x rest IH ]; cbn [fold_left]; intros acc Hall; [ reflexivity | ].
  apply Forall_cons in Hall as [Hx Hall].
  rewrite (setProp_obj _ _ _ Hx). apply IH, Hall.
Qed.

Lemma map_pair_id {A B} (l : list (A * B)) : map (fun kv => (fst kv, snd kv)) l = l.
Proof. induction l as [ | [a b] rest IH ]; simpl; congruence. Qed.

(** A clone of a document without the name [__proto__] is that document:
    [deepClone] only changes which heap cells hold it, which the embedding
    does not track. *)
Lemma deepClone_plain (v : Value) : plainDocument v = true -> deepClone v = v.
Proof.
  induction v as [ | b | n | s | items IH | proto props _ IH | | home name ]
    using Value_deep_ind; intros Hd; try reflexivity.
  - apply plainDocument_array in Hd. cbn [deepClone]. f_equal.
    induction items as [ | x xs IHxs ]; simpl; [ reflexivity | ].
    inversion IH; inversion Hd; subst. f_equal; auto.
  - apply plainDocument_object in Hd as (-> & Ho & Hall). cbn [deepClone]. unfold emptyObject.
    rewrite (fold_setProp fst (fun kv => deepClone (snd kv))).
    + rewrite (ObjFacts.fold_set_ordered (fun kv => deepClone (snd kv))) by exact Ho.
      unfold obj. f_equal. clear Ho.
      induction props as [ | [k x] ps IHps ]; simpl; [ reflexivity | ].
      inversion IH; inversion Hall; subst. simpl in *. f_equal; [ f_equal | ]; tauto.
    + eapply Forall_impl; [ exact Hall | ]. intros [k x] [Hk _]. apply plain_name_not_proto, Hk.
  - discriminate.
Qed.

Lemma deepMerge_unfold (proto : Value) (props : list (string * Value)) (override : Value) :
  deepMerge (VObject proto props) override
  = mergeLoops deepMerge props (VObject proto props) override.
Proof. reflexivity. Qed.

(** The merge of two documents without inherited names is an object
    literal again, with the properties [mergedProps] lists. *)
Lemma deepMerge_obj (a b : list (string * Value)) :
  plainDocument (obj a) = true -> plainDocument (obj b) = true ->
  deepMerge (obj a) (obj b) = obj (mergedProps a b).
Proof.
  intros Ha Hb. unfold obj at 1. rewrite deepMerge_unfold. fold (obj a).
  unfold mergeLoops, mergedProps. cbn [ownEntries obj].
  pose proof (proj1 (plainDocument_object _ _) Ha) as (_ & Hoa & Halla).
  pose proof (proj1 (plainDocument_object _ _) Hb) as (_ & Hob & Hallb).
  match goal with
  | |- fold_left _ b ?first = _ =>
      assert (first = obj (map (fun kv => (fst kv, pickMerged (snd kv) (Obj.get (fst kv) b))) a))
        as ->
  end.
  { rewrite <- (ObjFacts.fold_set_ordered
                  (fun kv => pickMerged (snd kv) (Obj.get (fst kv) b))) by exact Hoa.
    unfold emptyObject.
    rewrite <- (fold_setProp fst (fun kv => pickMerged (snd kv) (Obj.get (fst kv) b))).
    2:{ eapply Forall_impl; [ exact Halla | ]. intros [k x] [Hk _].
        apply plain_name_not_proto, Hk. }
    apply ObjFacts.fold_left_pointwise. intros r [k bv] Hin. cbn [fst snd].
    rewrite Forall_forall in Halla. destruct (Halla _ Hin) as [Hk Hbv]. cbn [fst snd] in Hk, Hbv.
    fold (obj b). rewrite (getProp_plain b k Hk). unfold pickMerged.
    destruct (Obj.get k b) as [ov | ] eqn:Eo.
    - destruct (isPlainObject (Some bv) && isPlainObject (Some ov)); [ reflexivity | ].
      rewrite (deepClone_plain ov (plainDocument_lookup b k ov Hb Eo)). reflexivity.
    - rewrite (deepClone_plain bv Hbv). reflexivity. }
  rewrite <- (fold_setProp_when (fun kv => negb (Obj.has (fst kv) a)) fst snd).
  2:{ eapply Forall_impl; [ exact Hallb | ]. intros [k x] [Hk _].
      apply plain_name_not_proto, Hk. }
  apply ObjFacts.fold_left_pointwise. intros r [k ov] Hin. cbn [fst snd].
  rewrite Forall_forall in Hallb. destruct (Hallb _ Hin) as [Hk Hov]. cbn [fst snd] in Hk, Hov.
  rewrite (hasProp_plain a k Hk), (deepClone_plain ov Hov). reflexivity.
Qed.

Lemma ordered_NoDup (l : list string) : Obj.ordered l -> NoDup l.
Proof. intros [H _]. exact H. Qed.

(** Lookup in the merge is what the contract prescribes. *)
Lemma get_mergedProps (a b : list (string * Value)) (k : string) :
  NoDup (Obj.keys b) ->
  Obj.get k (mergedProps a b) = specMergedProperty (Obj.get k a) (Obj.get k b).
Proof.
  intros Hnd. unfold mergedProps.
  rewrite (ObjFacts.get_fold_set_when (fun k => negb (Obj.has k a)) snd) by exact Hnd.
  rewrite (ObjFacts.get_map (fun k bv => pickMerged bv (Obj.get k b))).
  rewrite ObjFacts.get_has. cbn [snd]. unfold specMergedProperty, pickMerged.
  destruct (Obj.get k a) as [bv | ], (Obj.get k b) as [ov | ]; cbn [negb option_map];
    try reflexivity.
  destruct (isPlainObject (Some bv) && isPlainObject (Some ov)); reflexivity.
Qed.

Lemma has_mergedProps (a b : list (string * Value)) (k : string) :
  NoDup (Obj.keys b) ->
  Obj.has k (mergedProps a b) = Obj.has k a || Obj.has k b.
Proof.
  intros Hnd. rewrite !ObjFacts.get_has, get_mergedProps by exact Hnd.
  unfold specMergedProperty.
  destruct (Obj.get k a) as [bv | ], (Obj.get k b) as [ov | ]; cbn [orb]; try reflexivity.
  destruct (isPlainObject (Some bv) && isPlainObject (Some ov)); reflexivity.
Qed.

Lemma ordered_mergedProps (a b : list (string * Value)) :
  Obj.ordered (Obj.keys a) -> Obj.ordered (Obj.keys (mergedProps a b)).
Proof.
  intros Ho. unfold mergedProps.
  apply (ObjFacts.ordered_fold_set_when (fun k => negb (Obj.has k a)) snd).
  rewrite (ObjFacts.keys_map (fun kv => pickMerged (snd kv) (Obj.get (fst kv) b))). exact Ho.
Qed.

(** The names of the merge that are not array indices: those of [base],
    then those only [override] has. *)
Lemma names_mergedProps (a b : list (string * Value)) :
  NoDup (Obj.keys b) ->
  Obj.names (Obj.keys (mergedProps a b))
  = Obj.names (Obj.keys a)
    ++ Obj.names (List.filter (fun k => negb (Obj.has k a)) (Obj.keys b)).
Proof.
  intros Hnd. unfold mergedProps.
  rewrite (ObjFacts.names_fold_set_when (fun k => negb (Obj.has k a)) snd).
  - rewrite (ObjFacts.keys_map (fun kv => pickMerged (snd kv) (Obj.get (fst kv) b))).
    reflexivity.
  - exact Hnd.
  - intros k _ Hk.
    rewrite (ObjFacts.keys_map (fun kv => pickMerged (snd kv) (Obj.get (fst kv) b))).
    apply ObjFacts.has_false, negb_true_iff, Hk.
Qed.

Lemma get_entry {A} (o : list (string * A)) (k : string) (v : A) :
  NoDup (Obj.keys o) -> (k, v) ∈ o -> Obj.get k o = Some v.
Proof.
  unfold Obj.keys. induction o as [ | [k' x] rest IH ]; simpl; intros Hnd Hin.
  - inversion Hin.
  - apply NoDup_cons in Hnd as [Hk Hnd]. apply elem_of_cons in Hin as [Heq | Hin].
    + injection Heq as -> ->. rewrite String.eqb_refl. reflexivity.
    + destruct (String.eqb k' k) eqn:E; [ | auto ].
      apply String.eqb_eq in E. subst. exfalso. apply Hk.
      apply list_elem_of_fmap. exists (k, v). split; [ reflexivity | exact Hin ].
Qed.

Lemma plainDocument_entry (props : list (string * Value)) (k : string) (v : Value) :
  plainDocument (obj props) = true -> (k, v) ∈ props ->
  isOneOf objectPrototypeNames k = false /\ plainDocument v = true.
Proof.
  intros Hd Hin. apply plainDocument_object in Hd as (_ & _ & Hall).
  rewrite Forall_forall in Hall. exact (Hall _ Hin).
Qed.

Lemma plainDocument_ordered (props : list (string * Value)) :
  plainDocument (obj props) = true -> Obj.ordered (Obj.keys props).
Proof. intros Hd. apply plainDocument_object in Hd. tauto. Qed.

Lemma plainDocument_NoDup (props : list (string * Value)) :
  plainDocument (obj props) = true -> NoDup (Obj.keys props).
Proof. intros Hd. apply ordered_NoDup, plainDocument_ordered, Hd. Qed.

(** A plain object among documents is an object literal. *)
Lemma plainDocument_plainObject (v : Value) :
  plainDocument v = true -> isPlainObject (Some v) = true -> exists props, v = obj props.
Proof.
  destruct v; try discriminate.
  intros Hd _. apply plainDocument_object in Hd as (-> & _). eexists. reflexivity.
Qed.

(** Merging two documents without inherited names yields one. *)
Lemma deepMerge_plain_in (aVal : Value) :
  forall a b, aVal = obj a -> plainDocument (obj a) = true -> plainDocument (obj b) = true ->
              plainDocument (deepMerge (obj a) (obj b)) = true.
Proof.
  induction aVal as [ | b0 | n0 | s0 | items0 _ | proto props _ IH | | home name ]
    using Value_deep_ind; intros a b Heq Ha Hb; try discriminate.
  injection Heq as -> ->.
  rewrite (deepMerge_obj a b Ha Hb).
  pose proof (plainDocument_NoDup a Ha) as Hna.
  pose proof (plainDocument_NoDup b Hb) as Hnb.
  pose proof (ordered_mergedProps a b (plainDocument_ordered a Ha)) as Hom.
  apply plainDocument_object. split; [ reflexivity | split; [ exact Hom | ] ].
  apply Forall_forall. intros [k v] Hin. cbn [fst snd].
  pose proof (get_entry _ k v (ordered_NoDup _ Hom) Hin) as Hget.
  rewrite (get_mergedProps a b k Hnb) in Hget.
  assert (Hk : isOneOf objectPrototypeNames k = false).
  { destruct (Obj.get k a) eqn:Ea.
    - apply (plainDocument_key a k Ha). rewrite ObjFacts.get_has, Ea. reflexivity.
    - destruct (Obj.get k b) eqn:Eb; [ | discriminate ].
      apply (plainDocument_key b k Hb). rewrite ObjFacts.get_has, Eb. reflexivity. }
  split; [ exact Hk | ].
  unfold specMergedProperty in Hget.
  destruct (Obj.get k a) as [av | ] eqn:Ea.
  - pose proof (plainDocument_lookup a k av Ha Ea) as Hav.
    destruct (Obj.get k b) as [bv | ] eqn:Eb; [ | congruence ].
    pose proof (plainDocument_lookup b k bv Hb Eb) as Hbv.
    destruct (isPlainObject (Some av) && isPlainObject (Some bv)) eqn:Eplain; [ | congruence ].
    injection Hget as <-. apply andb_true_iff in Eplain as [Hpa Hpb].
    destruct (plainDocument_plainObject av Hav Hpa) as [ao ->].
    destruct (plainDocument_plainObject bv Hbv Hpb) as [bo ->].
    assert (Hav' : (k, obj ao) ∈ a).
    { clear -Ea. induction a as [ | [k' x] rest IHa ]; simpl in Ea; [ discriminate | ].
      destruct (String.eqb k' k) eqn:E.
      - apply String.eqb_eq in E. injection Ea as ->. subst. left.
      - right. apply IHa, Ea. }
    rewrite Forall_forall in IH. apply (IH _ Hav' ao bo eq_refl Hav Hbv).
  - destruct (Obj.get k b) as [bv | ] eqn:Eb; [ | discriminate ].
    injection Hget as <-. exact (plainDocument_lookup b k bv Hb Eb).
Qed.

Lemma deepMerge_plain (a b : list (string * Value)) :
  plainDocument (obj a) = true -> plainDocument (obj b) = true ->
  plainDocument (obj (mergedProps a b)) = true.
Proof.
  intros Ha Hb. rewrite <- (deepMerge_obj a b Ha Hb).
  apply (deepMerge_plain_in (obj a)); [ reflexivity | exact Ha | exact Hb ].
Qed.

Lemma get_elem {A} (o : list (string * A)) (k : string) (v : A) :
  Obj.get k o = Some v -> (k, v) ∈ o.
Proof.
  induction o as [ | [k' x] rest IH ]; simpl; [ discriminate | ].
  destruct (String.eqb k' k) eqn:E.
  - apply String.eqb_eq in E. intros [= ->]. subst. left.
  - intros H. right. apply IH, H.
Qed.

Lemma names_filter (p : string -> bool) (l : list string) :
  Obj.names (List.filter p l) = List.filter p (Obj.names l).
Proof.
  unfold Obj.names. induction l as [ | k rest IH ]; simpl; [ reflexivity | ].
  destruct (p k) eqn:Ep; simpl; destruct (Obj.arrayIndex k); simpl; rewrite ?Ep; congruence.
Qed.

Lemma filter_twice {X} (p q r : X -> bool) (l : list X) :
  (forall x, r x = q x && p x) ->
  List.filter r l = List.filter p (List.filter q l).
Proof.
  intros Hr. induction l as [ | x xs IH ]; simpl; [ reflexivity | ].
  rewrite Hr. destruct (q x); simpl; [ destruct (p x); congruence | assumption ].
Qed.

Lemma filter_ext_in' {X} (p q : X -> bool) (l : list X) :
  (forall x, In x l -> p x = q x) -> List.filter p l = List.filter q l.
Proof.
  induction l as [ | x xs IH ]; simpl; intros H; [ reflexivity | ].
  rewrite (H x (or_introl eq_refl)). rewrite IH by (intros; apply H; right; assumption).
  reflexivity.
Qed.

Lemma isPlainObject_obj (props : list (string * Value)) :
  isPlainObject (Some (obj props)) = true.
Proof. reflexivity. Qed.

(** One property of the first document, merged with the second and then
    the third, against merged with the merge of the second and third. *)
Lemma specMergedProperty_assoc (oa ob oc : option Value) :
  (forall ao bo co, oa = Some (obj ao) -> ob = Some (obj bo) -> oc = Some (obj co) ->
                    deepMerge (deepMerge (obj ao) (obj bo)) (obj co)
                    = deepMerge (obj ao) (deepMerge (obj bo) (obj co))) ->
  (forall v, oa = Some v -> plainDocument v = true) ->
  (forall v, ob = Some v -> plainDocument v = true) ->
  (forall v, oc = Some v -> plainDocument v = true) ->
  match oa, ob, oc with
  | Some (VObject _ _), Some (VObject _ _), Some (VObject _ _) => true
  | Some (VObject _ _), Some _, Some (VObject _ _) => false
  | _, _, _ => true
  end = true ->
  specMergedProperty (specMergedProperty oa ob) oc
  = specMergedProperty oa (specMergedProperty ob oc).
Proof.
  intros IH Ha Hb Hc Hshape.
  destruct oa as [av | ].
  2:{ destruct ob as [bv | ], oc as [cv | ]; cbn [specMergedProperty]; try reflexivity.
      destruct (isPlainObject (Some bv) && isPlainObject (Some cv)); reflexivity. }
  destruct ob as [bv | ]; [ | destruct oc; reflexivity ].
  destruct oc as [cv | ].
  2:{ cbn [specMergedProperty].
      destruct (isPlainObject (Some av) && isPlainObject (Some bv)); reflexivity. }
  specialize (Ha av eq_refl). specialize (Hb bv eq_refl). specialize (Hc cv eq_refl).
  unfold specMergedProperty.
  destruct (isPlainObject (Some av)) eqn:Pa.
  - destruct (plainDocument_plainObject av Ha Pa) as [ao ->].
    destruct (isPlainObject (Some bv)) eqn:Pb.
    + destruct (plainDocument_plainObject bv Hb Pb) as [bo ->].
      cbn [andb].
      rewrite (deepMerge_obj ao bo Ha Hb), isPlainObject_obj.
      rewrite <- (deepMerge_obj ao bo Ha Hb).
      destruct (isPlainObject (Some cv)) eqn:Pc.
      * destruct (plainDocument_plainObject cv Hc Pc) as [co ->].
        cbn [andb].
        rewrite (deepMerge_obj bo co Hb Hc), isPlainObject_obj.
        rewrite <- (deepMerge_obj bo co Hb Hc).
        rewrite ?isPlainObject_obj. cbn [andb]. f_equal. apply IH; reflexivity.
      * cbn [andb]. rewrite ?isPlainObject_obj, ?Pc. cbn [andb]. reflexivity.
    + cbn [andb]. rewrite ?Pb. cbn [andb].
      destruct (isPlainObject (Some cv)) eqn:Pc.
      * exfalso. destruct (plainDocument_plainObject cv Hc Pc) as [co ->].
        unfold obj in Hshape. destruct bv; discriminate.
      * rewrite ?isPlainObject_obj, ?Pc. cbn [andb]. reflexivity.
  - cbn [andb].
    destruct (isPlainObject (Some bv) && isPlainObject (Some cv)); rewrite ?Pa; reflexivity.
Qed.

Lemma deepMerge_assoc_in (aVal : Value) :
  forall a b c,
    aVal = obj a ->
    plainDocument (obj a) = true -> plainDocument (obj b) = true ->
    plainDocument (obj c) = true ->
    shapesAgree (obj a) (obj b) (obj c) = true ->
    deepMerge (deepMerge (obj a) (obj b)) (obj c)
    = deepMerge (obj a) (deepMerge (obj b) (obj c)).
Proof.
  induction aVal as [ | b0 | n0 | s0 | items0 _ | proto props _ IH | | home name ]
    using Value_deep_ind; intros a b c Heq Ha Hb Hc Hshape; try discriminate.
  injection Heq as -> ->.
  pose proof (deepMerge_plain a b Ha Hb) as Hab.
  pose proof (deepMerge_plain b c Hb Hc) as Hbc.
  rewrite (deepMerge_obj a b Ha Hb), (deepMerge_obj b c Hb Hc).
  rewrite (deepMerge_obj _ c Hab Hc), (deepMerge_obj a _ Ha Hbc).
  pose proof (plainDocument_NoDup a Ha) as Hna.
  pose proof (plainDocument_NoDup b Hb) as Hnb.
  pose proof (plainDocument_NoDup c Hc) as Hnc.
  pose proof (plainDocument_NoDup _ Hab) as Hnab.
  pose proof (plainDocument_NoDup _ Hbc) as Hnbc.
  f_equal. apply ObjFacts.ordered_ext.
  - apply plainDocument_ordered, deepMerge_plain; assumption.
  - apply plainDocument_ordered, deepMerge_plain; assumption.
  - intros k. rewrite !get_mergedProps by assumption.
    apply specMergedProperty_assoc.
    + intros ao bo co Ea Eb Ec.
      pose proof (get_elem _ _ _ Ea) as Hin.
      rewrite Forall_forall in IH.
      apply (IH (k, obj ao) Hin ao bo co eq_refl).
      * exact (plainDocument_lookup a k _ Ha Ea).
      * exact (plainDocument_lookup b k _ Hb Eb).
      * exact (plainDocument_lookup c k _ Hc Ec).
      * cbn [shapesAgree obj] in Hshape. rewrite forallb_forall in Hshape.
        specialize (Hshape (k, obj ao) (proj1 (list_elem_of_In _ _) Hin)).
        cbn [fst snd] in Hshape.
        destruct (plainDocument_entry a k _ Ha Hin) as [Hk _].
        fold (obj b) in Hshape. fold (obj c) in Hshape.
        rewrite (getProp_plain b k Hk), (getProp_plain c k Hk), Eb, Ec in Hshape.
        exact Hshape.
    + intros v. apply (plainDocument_lookup a k v Ha).
    + intros v. apply (plainDocument_lookup b k v Hb).
    + intros v. apply (plainDocument_lookup c k v Hc).
    + destruct (Obj.get k a) as [av | ] eqn:Ea; [ | reflexivity ].
      pose proof (get_elem _ _ _ Ea) as Hin.
      cbn [shapesAgree obj] in Hshape. rewrite forallb_forall in Hshape.
      specialize (Hshape (k, av) (proj1 (list_elem_of_In _ _) Hin)).
      cbn [fst snd] in Hshape.
      destruct (plainDocument_entry a k _ Ha Hin) as [Hk _].
      fold (obj b) in Hshape. fold (obj c) in Hshape.
      rewrite (getProp_plain b k Hk), (getProp_plain c k Hk) in Hshape.
      destruct av; try reflexivity.
      destruct (Obj.get k b) as [[ ] | ]; try reflexivity;
        destruct (Obj.get k c) as [[ ] | ]; try reflexivity; exact Hshape.
  - rewrite !names_mergedProps by assumption.
    rewrite <- app_assoc. f_equal.
    rewrite !names_filter, names_mergedProps by assumption.
    rewrite List.filter_app. f_equal.
    rewrite names_filter.
    rewrite <- (filter_twice (fun k => negb (Obj.has k a)) (fun k => negb (Obj.has k b))
                  (fun k => negb (Obj.has k (mergedProps a b)))); [ reflexivity | ].
    intros k. rewrite (has_mergedProps a b k Hnb), negb_orb. apply andb_comm.
Qed.

(** ** The merge engine and the diff renderer against the specification *)

(** C2 fails on the code.  A key only [override] has is dropped when its
    name is one that [Object.prototype] defines: [deepMerge({}, {toString:
    1})] is [{}].  A key only [base] has does not keep its value under such
    a name: [deepMerge({constructor: 1}, {})] holds the inherited function
    [Object] there. *)
Theorem deepMerge_inherited_names :
  deepMerge emptyObject Samples.onlyToString = emptyObject
  /\ deepMerge Samples.onlyConstructor emptyObject
     = obj [("constructor", VBuiltin OfObject "constructor")].
Proof. split; reflexivity. Qed.

(** C3 fails on the code.  [deepMerge({items:["a","b"]}, {items:["c"]})]
    is [{items:["c"]}], but for the key [__proto__], which both of
    [{"__proto__": [1]}] and [{"__proto__": 5}] have, the value of
    [override] does not replace that of [base]: the merged document has no
    such key, and reads [Object.prototype] there. *)
Theorem deepMerge_array_under_proto :
  deepMerge Samples.itemsAB Samples.itemsC = Samples.itemsC
  /\ deepMerge Samples.protoList Samples.protoFive = emptyObject
  /\ getProp (deepMerge Samples.protoList Samples.protoFive) "__proto__"
     = Some VObjectPrototype.
Proof. repeat split. Qed.

(** C4, as stated, fails: with [A = {k:{x:1}}], [B = {k:5}] and
    [C = {k:{y:2}}], merging left to right gives [{k:{y:2}}] while
    [deepMerge(A, deepMerge(B, C))] gives [{k:{x:1,y:2}}]. *)
Lemma deepMerge_not_associative :
  deepMerge (deepMerge Samples.docA Samples.docB) Samples.docC
  <> deepMerge Samples.docA (deepMerge Samples.docB Samples.docC).
Proof. vm_compute. discriminate. Qed.

(** C4, amended. For documents [A], [B], [C] none of whose property names
    is one that [Object.prototype] defines, and such that no key path holds
    a plain document in both [A] and [C] while [B] holds a value of another
    kind there, [deepMerge(deepMerge(A, B), C)] equals
    [deepMerge(A, deepMerge(B, C))]. *)
Theorem deepMerge_associative (A B C : list (string * Value)) :
  plainDocument (obj A) = true -> plainDocument (obj B) = true ->
  plainDocument (obj C) = true ->
  shapesAgree (obj A) (obj B) (obj C) = true ->
  deepMerge (deepMerge (obj A) (obj B)) (obj C)
  = deepMerge (obj A) (deepMerge (obj B) (obj C)).
Proof.
  intros HA HB HC Hshape.
  exact (deepMerge_assoc_in (obj A) A B C eq_refl HA HB HC Hshape).
Qed.

Lemma deepMerge_associative_witness :
  deepMerge (deepMerge Samples.docA' Samples.docB') Samples.docC'
  = deepMerge Samples.docA' (deepMerge Samples.docB' Samples.docC').
Proof.
  apply (deepMerge_associative (ownEntries Samples.docA') (ownEntries Samples.docB')
           (ownEntries Samples.docC')); reflexivity.
Defined.

(** C1 fails on the code.  For [D = { config: { a: 1 } }], merged with
    itself, [collectDiffLines] classifies [config] as modified although no
    nested key differs, and the rendering carries both markers and both
    side annotations. *)
Theorem generateDiffOutput_identical_nested :
  deepMerge Samples.nestedConfig Samples.nestedConfig = Samples.nestedConfig
  /\ map type (collectDiffLines Samples.nestedConfig Samples.nestedConfig Samples.nestedConfig
                 EmptyString) = [modified]
  /\ generateDiffOutput plainChalk Samples.nestedConfig Samples.nestedConfig Samples.nestedConfig
     = Str.join Str.nl
         ["// Merged configuration (project overrides global)";
          "// --------------------------------------------------";
          "{";
          "  - " +:+ Str.quote "config" +:+ ": { " +:+ Str.quote "a" +:+ ": 1 } // [global]";
          "  + " +:+ Str.quote "config" +:+ ": { " +:+ Str.quote "a" +:+ ": 1 } // [project]";
          "}"].
Proof. repeat split. Qed.

(** ** The scope resolver *)

Section ScopeResolverFacts.

Variable env : Env.

Lemma hasMarkerDirectory_absent (w : World) (dir : Path) :
  nodes w !! Child dir OPENCODE_DIR <> Some Dir ->
  denied env OpStat (Child dir OPENCODE_DIR) = false ->
  hasMarkerDirectory env dir w = (Returned false, w).
Proof.
  intros Hno Hok. unfold hasMarkerDirectory, bind, existsSync, statSync. simpl.
  rewrite Hok. destruct (nodes w !! Child dir OPENCODE_DIR) as [[c m | ] | ] eqn:E;
    rewrite ?E; try reflexivity.
  congruence.
Qed.

Lemma findProjectRootFrom_none (w : World) (dir : Path) :
  (forall d, d ∈ ancestorsOf dir ->
             nodes w !! Child d OPENCODE_DIR <> Some Dir
             /\ denied env OpStat (Child d OPENCODE_DIR) = false) ->
  findProjectRootFrom env dir w = (Returned None, w).
Proof.
  induction dir as [ | parent IH name ]; intros Hall.
  - destruct (Hall Root) as [Hno Hok]; [ left | ].
    simpl. unfold bind. rewrite (hasMarkerDirectory_absent w Root Hno Hok). reflexivity.
  - destruct (Hall (Child parent name)) as [Hno Hok]; [ left | ].
    simpl. unfold bind at 1.
    rewrite (hasMarkerDirectory_absent w (Child parent name) Hno Hok).
    apply IH. intros d Hd. apply Hall. right. exact Hd.
Qed.

End ScopeResolverFacts.

(** C8. When no directory from the starting directory up to and including
    the file system root holds a [.opencode] directory (and the file system
    answers [stat] there), [findProjectRoot] returns [null] and
    [resolveProjectRoot] returns the starting directory: the resolved
    [startDir], or the working directory when none is given. *)
Theorem findProjectRoot_without_marker (env : Env) (w : World) (startDir : option PathArg) :
  (forall d, d ∈ ancestorsOf (startingDirectory env startDir) ->
             nodes w !! Child d OPENCODE_DIR <> Some Dir
             /\ denied env OpStat (Child d OPENCODE_DIR) = false) ->
  findProjectRoot env startDir w = (Returned None, w)
  /\ resolveProjectRoot env startDir w = (Returned (startingDirectory env startDir), w)
  /\ startingDirectory env startDir
     = match startDir with
       | Some dir => resolve (cwd env) dir
       | None => cwd env
       end.
Proof.
  intros Hall.
  pose proof (findProjectRootFrom_none env w _ Hall) as Hfind.
  split; [ exact Hfind | split; [ | reflexivity ] ].
  unfold resolveProjectRoot, bind, findProjectRoot. rewrite Hfind. reflexivity.
Qed.

(** ** Reading the rc file and the settings file *)

(** Copying the properties of [source] over [acc], as an object spread does. *)
Lemma get_spread_step {A} (k : string) (source acc : list (string * A)) :
  NoDup (Obj.keys source) ->
  Obj.get k (fold_left (fun result kv => Obj.set (fst kv) (snd kv) result) source acc)
  = match Obj.get k source with
    | Some v => Some v
    | None => Obj.get k acc
    end.
Proof.
  revert acc. induction source as [ | [k0 v0] rest IH ]; simpl; intros acc Hnd.
  - reflexivity.
  - apply NoDup_cons in Hnd as [Hk0 Hnd]. rewrite IH by exact Hnd. rewrite ObjFacts.get_set.
    destruct (String.eqb k0 k) eqn:E; [ | reflexivity ].
    apply String.eqb_eq in E. subst.
    apply ObjFacts.get_None in Hk0. rewrite Hk0. reflexivity.
Qed.

Lemma wfObject_NoDup (o : JsonObject) : wfObject o = true -> NoDup (Obj.keys o).
Proof. intros H. apply wfValue_object in H. tauto. Qed.

Lemma get_spread_pair (defaults parsed : JsonObject) (k : string) :
  wfObject defaults = true -> wfObject parsed = true ->
  Obj.get k (spread [defaults; parsed])
  = match Obj.get k parsed with
    | Some v => Some v
    | None => Obj.get k defaults
    end.
Proof.
  intros Hd Hp. unfold spread. simpl.
  rewrite get_spread_step by (apply wfObject_NoDup; exact Hp).
  rewrite get_spread_step by (apply wfObject_NoDup; exact Hd).
  destruct (Obj.get k parsed), (Obj.get k defaults); reflexivity.
Qed.

(** C7. A project rc file or a global settings file whose content does not
    parse is read as if the file were absent: [loadProjectRc] returns
    [null] and [loadGlobalSettings] returns a copy of the default settings,
    and neither throws. *)
Theorem load_unparseable_as_absent (env : Env) (DEFAULT_SETTINGS : JsonObject)
    (w : World) (projectRoot : Path) :
  (forall content mtime,
      nodes w !! getProjectRcPath projectRoot = Some (File content mtime) ->
      JSON_parse env content = None ->
      loadProjectRc env projectRoot w = (Returned JNull, w))
  /\ (nodes w !! getProjectRcPath projectRoot = None ->
      loadProjectRc env projectRoot w = (Returned JNull, w))
  /\ (forall content mtime,
         nodes w !! getSettingsPath env = Some (File content mtime) ->
         JSON_parse env content = None ->
         loadGlobalSettings env DEFAULT_SETTINGS w
         = (Returned (spread [DEFAULT_SETTINGS]), w))
  /\ (nodes w !! getSettingsPath env = None ->
      loadGlobalSettings env DEFAULT_SETTINGS w
      = (Returned (spread [DEFAULT_SETTINGS]), w)).
Proof.
  split; [ | split; [ | split ] ].
  - intros content mtime Hfile Hparse.
    unfold loadProjectRc, bind, tryCatch, existsSync, readFileSync, jsonParse.
    cbn [lookupNode getProjectRcPath Fs.join fold_left] in *. rewrite Hfile. cbn.
    destruct (denied env OpRead _); [ reflexivity | ].
    rewrite Hfile, Hparse. reflexivity.
  - intros Hnone. unfold loadProjectRc, bind, existsSync.
    cbn [lookupNode getProjectRcPath Fs.join fold_left] in *. rewrite Hnone. reflexivity.
  - intros content mtime Hfile Hparse.
    unfold loadGlobalSettings, bind, tryCatch, existsSync, readFileSync, jsonParse.
    unfold getSettingsPath in *. cbn [lookupNode Fs.join fold_left] in *.
    rewrite Hfile. cbn.
    destruct (denied env OpRead _); [ reflexivity | ].
    rewrite Hfile, Hparse. reflexivity.
  - intros Hnone. unfold loadGlobalSettings, bind, existsSync.
    unfold getSettingsPath in *. cbn [lookupNode Fs.join fold_left] in *.
    rewrite Hnone. reflexivity.
Qed.

Lemma load_unparseable_as_absent_witness :
  loadProjectRc Host.sampleEnv Host.repo Host.corruptWorld
  = (Returned JNull, Host.corruptWorld)
  /\ loadGlobalSettings Host.sampleEnv Host.sampleDefaults Host.corruptWorld
     = (Returned Host.sampleDefaults, Host.corruptWorld).
Proof.
  pose proof (load_unparseable_as_absent Host.sampleEnv Host.sampleDefaults
                Host.corruptWorld Host.repo) as (Hrc & _ & Hsettings & _).
  split.
  - apply (Hrc "{ not json" 0); reflexivity.
  - apply (Hsettings "{ not json" 0); reflexivity.
Defined.

(** C10. When the settings file parses to an object, [loadGlobalSettings]
    returns the object spread [{ ...DEFAULT_SETTINGS, ...parsed }]: every
    field of the default settings is present in it, a field the file has
    keeps the file's value, and a field the file lacks takes the default. *)
Theorem loadGlobalSettings_fills_defaults (env : Env) (DEFAULT_SETTINGS : JsonObject)
    (w : World) (content : string) (mtime : Z) (parsed : JsonObject) :
  nodes w !! getSettingsPath env = Some (File content mtime) ->
  denied env OpRead (getSettingsPath env) = false ->
  JSON_parse env content = Some (JObject parsed) ->
  wfObject DEFAULT_SETTINGS = true ->
  wfObject parsed = true ->
  exists settings,
    loadGlobalSettings env DEFAULT_SETTINGS w = (Returned settings, w)
    /\ (forall name, Obj.has name DEFAULT_SETTINGS = true -> Obj.has name settings = true)
    /\ (forall name v, Obj.get name parsed = Some v -> Obj.get name settings = Some v)
    /\ (forall name, Obj.get name parsed = None ->
                     Obj.get name settings = Obj.get name DEFAULT_SETTINGS).
Proof.
  intros Hfile Hread Hparse Hd Hp.
  exists (spread [DEFAULT_SETTINGS; parsed]). split; [ | split; [ | split ] ].
  - unfold loadGlobalSettings, bind, tryCatch, existsSync, readFileSync, jsonParse.
    rewrite Hread. unfold getSettingsPath in *. cbn [lookupNode Fs.join fold_left] in *.
    rewrite Hfile. cbn. rewrite Hfile, Hparse. reflexivity.
  - intros name. rewrite !ObjFacts.get_has, (get_spread_pair _ _ name Hd Hp).
    destruct (Obj.get name parsed), (Obj.get name DEFAULT_SETTINGS);
      intros; congruence.
  - intros name v Hget. rewrite (get_spread_pair _ _ name Hd Hp), Hget. reflexivity.
  - intros name Hget. rewrite (get_spread_pair _ _ name Hd Hp), Hget. reflexivity.
Qed.

Lemma loadGlobalSettings_fills_defaults_witness :
  exists settings,
    loadGlobalSettings Host.sampleEnv [("activeType", JString "omo"); ("theme", JString "dark")]
      Host.slimWorld = (Returned settings, Host.slimWorld)
    /\ Obj.get "activeType" settings = Some (JString "slim")
    /\ Obj.get "theme" settings = Some (JString "dark").
Proof.
  destruct (loadGlobalSettings_fills_defaults Host.sampleEnv
              [("activeType", JString "omo"); ("theme", JString "dark")]
              Host.slimWorld
              (stringifyPretty (JObject [("activeType", JString "slim")])) 0
              [("activeType", JString "slim")])
    as (settings & Hload & _ & Hfile & Hdefault); try reflexivity.
  exists settings. split; [ exact Hload | split ].
  - apply Hfile. reflexivity.
  - rewrite Hdefault; reflexivity.
Defined.

Lemma findProjectRoot_without_marker_witness :
  findProjectRoot Host.sampleEnv None Host.bareWorld = (Returned None, Host.bareWorld)
  /\ resolveProjectRoot Host.sampleEnv None Host.bareWorld
     = (Returned (Fs.join Root ["repo"; "packages"; "app"]), Host.bareWorld).
Proof.
  destruct (findProjectRoot_without_marker Host.sampleEnv Host.bareWorld None)
    as (Hfind & Hresolve & _).
  - intros d Hd. cbn in Hd.
    repeat (apply elem_of_cons in Hd as [-> | Hd]);
      try (split; [ vm_compute; discriminate | reflexivity ]).
    inversion Hd.
  - split; [ exact Hfind | exact Hresolve ].
Defined.

(** ** The backup sweep *)

Section BackupCleanerFacts.

Variable env : Env.

(** One pass of the loop body, case by case. *)
Lemma sweepEntry_cases (dir : Path) (file : string) (n : nat) (w : World) :
  sweepEntry env dir file n w
  = if denied env OpStat (Child dir file) then (Thrown "EACCES", n, w)
    else match nodes w !! Child dir file with
         | None => (Thrown "ENOENT", n, w)
         | Some Dir => (Returned tt, n, w)
         | Some (File _ m) =>
             if (m <? cutoffTime env) && negb (denied env OpUnlink (Child dir file))
             then (Returned tt, S n, mkWorld (delete (Child dir file) (nodes w)) (output w))
             else (Returned tt, n, w)
         end.
Proof.
  unfold sweepEntry, blockBind, blockTry, lift, statSync, unlinkSync, assign, blockRet.
  cbn [lookupNode].
  destruct (denied env OpStat (Child dir file)); [ reflexivity | ].
  destruct (nodes w !! Child dir file) as [[c m | ] | ] eqn:E; cbn; try reflexivity.
  destruct (m <? cutoffTime env); cbn; [ | reflexivity ].
  destruct (denied env OpUnlink (Child dir file)); cbn; [ reflexivity | ].
  rewrite E. reflexivity.
Qed.

Lemma sweptFrom_refl (dir : Path) (n : nat) (w : World) : sweptFrom env dir n w n w.
Proof.
  split; [ reflexivity | split; [ reflexivity | split; [ reflexivity | ] ] ].
  intros p Hsome Hnone. contradiction.
Qed.

Lemma sweptFrom_trans (dir : Path) n1 w1 n2 w2 n3 w3 :
  sweptFrom env dir n1 w1 n2 w2 -> sweptFrom env dir n2 w2 n3 w3 -> sweptFrom env dir n1 w1 n3 w3.
Proof.
  intros (Ho1 & Hs1 & Hc1 & Hd1) (Ho2 & Hs2 & Hc2 & Hd2).
  split; [ congruence | split; [ etrans; eassumption | split; [ lia | ] ] ].
  intros p Hsome Hnone.
  destruct (nodes w2 !! p) as [node | ] eqn:E2.
  - destruct (Hd2 p) as (file & c & m & -> & Hfile & Hold & Hok); [ congruence | exact Hnone | ].
    exists file, c, m. repeat split; try assumption.
    eapply lookup_weaken; [ | exact Hs1 ]. congruence.
  - apply Hd1; assumption.
Qed.

Lemma sweptFrom_delete (dir : Path) (file content : string) (mtime : Z) (n : nat) (w : World) :
  nodes w !! Child dir file = Some (File content mtime) ->
  mtime < cutoffTime env ->
  denied env OpUnlink (Child dir file) = false ->
  sweptFrom env dir n w (S n) (mkWorld (delete (Child dir file) (nodes w)) (output w)).
Proof.
  intros Hfile Hold Hok.
  split; [ reflexivity | split; [ apply delete_subseteq | split ] ]; cbn [nodes].
  - rewrite map_size_delete, Hfile.
    assert (size (nodes w) <> 0%nat).
    { intros Hz. apply map_size_empty_inv in Hz. rewrite Hz, lookup_empty in Hfile.
      discriminate. }
    lia.
  - intros p Hsome Hnone. destruct (decide (p = Child dir file)) as [-> | Hne].
    + exists file, content, mtime. auto.
    + rewrite lookup_delete_ne in Hnone by congruence. contradiction.
Qed.

Lemma sweepEntry_swept (dir : Path) (file : string) (n : nat) (w : World) :
  exists r n' w',
    sweepEntry env dir file n w = (r, n', w')
    /\ (forall c, r <> Exited c)
    /\ sweptFrom env dir n w n' w'.
Proof.
  rewrite sweepEntry_cases.
  destruct (denied env OpStat (Child dir file)).
  { eexists _, _, _. split; [ reflexivity | split; [ discriminate | apply sweptFrom_refl ] ]. }
  destruct (nodes w !! Child dir file) as [[c m | ] | ] eqn:E.
  - destruct ((m <? cutoffTime env) && negb (denied env OpUnlink (Child dir file))) eqn:Hdel.
    + apply andb_true_iff in Hdel as [Hold Hok].
      apply Z.ltb_lt in Hold. apply negb_true_iff in Hok.
      eexists _, _, _. split; [ reflexivity | split; [ discriminate | ] ].
      eapply sweptFrom_delete; eassumption.
    + eexists _, _, _. split; [ reflexivity | split; [ discriminate | apply sweptFrom_refl ] ].
  - eexists _, _, _. split; [ reflexivity | split; [ discriminate | apply sweptFrom_refl ] ].
  - eexists _, _, _. split; [ reflexivity | split; [ discriminate | apply sweptFrom_refl ] ].
Qed.

Lemma forOf_swept (dir : Path) (files : list string) :
  forall n w,
  exists r n' w',
    forOf files (sweepEntry env dir) n w = (r, n', w')
    /\ (forall c, r <> Exited c)
    /\ sweptFrom env dir n w n' w'.
Proof.
  induction files as [ | file rest IH ]; intros n w; simpl.
  - eexists _, _, _. split; [ reflexivity | split; [ discriminate | apply sweptFrom_refl ] ].
  - unfold blockBind.
    destruct (sweepEntry_swept dir file n w) as (r1 & n1 & w1 & -> & Hr1 & Hs1).
    destruct r1 as [ [] | e | c ].
    + destruct (IH n1 w1) as (r2 & n2 & w2 & -> & Hr2 & Hs2).
      eexists _, _, _. split; [ reflexivity | split; [ exact Hr2 | ] ].
      eapply sweptFrom_trans; eassumption.
    + eexists _, _, _. split; [ reflexivity | split; [ discriminate | exact Hs1 ] ].
    + exfalso. exact (Hr1 c eq_refl).
Qed.

(** With [stat] answering and every listed entry present once, the loop
    runs to its end, and every old file whose deletion is allowed is gone
    afterwards, whatever happened to the others. *)
Lemma forOf_processes_all (dir : Path) (files : list string) :
  forall n w,
    NoDup files ->
    (forall file, file ∈ files -> nodes w !! Child dir file <> None) ->
    (forall file, file ∈ files -> denied env OpStat (Child dir file) = false) ->
    exists n' w',
      forOf files (sweepEntry env dir) n w = (Returned tt, n', w')
      /\ forall file content mtime,
           file ∈ files ->
           nodes w !! Child dir file = Some (File content mtime) ->
           mtime < cutoffTime env ->
           denied env OpUnlink (Child dir file) = false ->
           nodes w' !! Child dir file = None.
Proof.
  induction files as [ | file rest IH ]; intros n w Hnd Hpresent Hstat; simpl.
  - eexists _, _. split; [ reflexivity | ]. intros f c m Hin. inversion Hin.
  - apply NoDup_cons in Hnd as [Hfresh Hnd].
    unfold blockBind. rewrite sweepEntry_cases.
    rewrite (Hstat file) by left.
    pose proof (Hpresent file ltac:(left)) as Hhere.
    destruct (nodes w !! Child dir file) as [node | ] eqn:E; [ | contradiction ].
    assert (Hrest : forall w1,
               (forall f, f <> file -> nodes w1 !! Child dir f = nodes w !! Child dir f) ->
               nodes w1 ⊆ nodes w ->
               (forall c m, node = File c m -> m < cutoffTime env ->
                            denied env OpUnlink (Child dir file) = false ->
                            nodes w1 !! Child dir file = None) ->
               forall n1,
               exists n' w',
                 forOf rest (sweepEntry env dir) n1 w1 = (Returned tt, n', w')
                 /\ forall f c m,
                      f ∈ file :: rest ->
                      nodes w !! Child dir f = Some (File c m) ->
                      m < cutoffTime env ->
                      denied env OpUnlink (Child dir f) = false ->
                      nodes w' !! Child dir f = None).
    { intros w1 Hsame Hsub Hhead n1.
      assert (Hne : forall f, f ∈ rest -> f <> file) by (intros f Hf ->; contradiction).
      destruct (IH n1 w1 Hnd) as (n' & w' & Hrun & Hgone).
      - intros f Hf. rewrite (Hsame f (Hne f Hf)). apply Hpresent. right. exact Hf.
      - intros f Hf. apply Hstat. right. exact Hf.
      - exists n', w'. split; [ exact Hrun | ].
        intros f c m Hin Hfile Hold Hok. apply elem_of_cons in Hin as [-> | Hin].
        + destruct (forOf_swept dir rest n1 w1) as (r2 & n2 & w2 & Hrun2 & _ & Hs2).
          rewrite Hrun in Hrun2. injection Hrun2 as <- <- <-.
          destruct Hs2 as (_ & Hsub2 & _).
          assert (Hnone : nodes w1 !! Child dir file = None).
          { apply (Hhead c m); [ congruence | assumption | assumption ]. }
          destruct (nodes w' !! Child dir file) as [x | ] eqn:Ex; [ | reflexivity ].
          pose proof (lookup_weaken _ _ _ _ Ex Hsub2). congruence.
        + apply (Hgone f c m Hin); try assumption.
          rewrite (Hsame f (Hne f Hin)). exact Hfile. }
    destruct node as [c m | ].
    + destruct ((m <? cutoffTime env) && negb (denied env OpUnlink (Child dir file))) eqn:Hdel.
      * apply Hrest; cbn [nodes].
        -- intros f Hf. apply lookup_delete_ne. congruence.
        -- apply delete_subseteq.
        -- intros. apply lookup_delete_eq.
      * apply Hrest.
        -- reflexivity.
        -- reflexivity.
        -- intros c' m' [= <- <-] Hold Hok.
           apply Z.ltb_lt in Hold. rewrite Hold, Hok in Hdel. discriminate.
    + apply Hrest; [ reflexivity | reflexivity | discriminate ].
Qed.

Lemma omap_NoDup {X Y} (f : X -> option Y) (l : list X) :
  (forall x y z, x ∈ l -> y ∈ l -> f x = Some z -> f y = Some z -> x = y) ->
  NoDup l -> NoDup (omap f l).
Proof.
  intros Hinj Hnd. induction Hnd as [ | x xs Hx Hnd IH ]; simpl; [ constructor | ].
  assert (Htail : NoDup (omap f xs)).
  { apply IH. intros a b z Ha Hb. apply Hinj; right; assumption. }
  destruct (f x) as [z | ] eqn:E; [ | exact Htail ].
  constructor; [ | exact Htail ].
  intros Hin. apply list_elem_of_omap in Hin as (y & Hy & Hfy).
  rewrite (Hinj x y z ltac:(left) ltac:(right; exact Hy) E Hfy) in Hx. contradiction.
Qed.

Lemma entryName_Some (dir p : Path) (file : string) :
  entryName dir p = Some file <-> p = Child dir file.
Proof.
  destruct p as [ | parent name ]; simpl; [ split; discriminate | ].
  case_bool_decide as Hparent; split; intros Heq; try discriminate; congruence.
Qed.

Lemma entriesOf_elem (w : World) (dir : Path) (file : string) :
  file ∈ entriesOf w dir <-> nodes w !! Child dir file <> None.
Proof.
  unfold entriesOf. rewrite list_elem_of_omap. split.
  - intros ([p node] & Hin & Hname). apply entryName_Some in Hname. simpl in Hname. subst.
    apply elem_of_map_to_list in Hin. congruence.
  - intros Hsome. destruct (nodes w !! Child dir file) as [node | ] eqn:E; [ | contradiction ].
    exists (Child dir file, node). split.
    + apply elem_of_map_to_list. exact E.
    + apply entryName_Some. reflexivity.
Qed.

Lemma entriesOf_NoDup (w : World) (dir : Path) : NoDup (entriesOf w dir).
Proof.
  unfold entriesOf. apply omap_NoDup; [ | apply NoDup_map_to_list ].
  intros [p1 n1] [p2 n2] z H1 H2 Hz1 Hz2. simpl in Hz1, Hz2.
  apply entryName_Some in Hz1, Hz2. subst.
  apply elem_of_map_to_list in H1, H2. congruence.
Qed.

End BackupCleanerFacts.

(** C9. [cleanOldBackups] always returns, whatever calls of the file system
    fail.  It only removes entries, and it returns how many it removed
    (none when the directory does not exist); each removed entry is a file
    of the directory older than the retention window.  When the directory
    can be listed and its entries inspected, every such file whose own
    deletion is allowed is removed, whichever other deletions failed. *)
Theorem cleanOldBackups_tolerant (env : Env) (w : World) (backupsPath : Path) :
  exists deletedCount w',
    cleanOldBackups env backupsPath w = (Returned deletedCount, w')
    /\ output w' = output w
    /\ nodes w' ⊆ nodes w
    /\ (size (nodes w') + deletedCount = size (nodes w))%nat
    /\ (forall p, nodes w !! p <> None -> nodes w' !! p = None ->
                  exists file content mtime,
                    p = Child backupsPath file
                    /\ nodes w !! p = Some (File content mtime)
                    /\ mtime < cutoffTime env
                    /\ denied env OpUnlink p = false)
    /\ (lookupNode w backupsPath = None -> deletedCount = 0%nat /\ w' = w)
    /\ (lookupNode w backupsPath = Some Dir ->
        denied env OpReaddir backupsPath = false ->
        (forall file, denied env OpStat (Child backupsPath file) = false) ->
        forall file content mtime,
          nodes w !! Child backupsPath file = Some (File content mtime) ->
          mtime < cutoffTime env ->
          denied env OpUnlink (Child backupsPath file) = false ->
          nodes w' !! Child backupsPath file = None).
Proof.
  unfold cleanOldBackups, bind, existsSync.
  destruct (lookupNode w backupsPath) as [node | ] eqn:Hdir; cbn [negb].
  2:{ exists 0%nat, w. unfold ret.
      split; [ reflexivity | split; [ reflexivity | split; [ reflexivity | ] ] ].
      split; [ lia | split; [ intros; contradiction | split; [ auto | discriminate ] ] ]. }
  unfold blockTry, blockBind, lift, readdirSync. rewrite Hdir.
  destruct (denied env OpReaddir backupsPath) eqn:Hlist.
  { exists 0%nat, w. cbn.
    split; [ reflexivity | split; [ reflexivity | split; [ reflexivity | ] ] ].
    split; [ lia | split; [ intros; contradiction | split; [ discriminate | discriminate ] ] ]. }
  destruct node as [c m | ].
  { exists 0%nat, w. cbn.
    split; [ reflexivity | split; [ reflexivity | split; [ reflexivity | ] ] ].
    split; [ lia | split; [ intros; contradiction | split; [ discriminate | discriminate ] ] ]. }
  destruct (forOf_swept env backupsPath (entriesOf w backupsPath) 0 w)
    as (r & n' & w' & Hrun & Hr & Hout & Hsub & Hsize & Hgone).
  rewrite Hrun.
  exists n', w'.
  split.
  { destruct r as [ [] | e | c ]; [ reflexivity | reflexivity | ].
    exfalso. exact (Hr c eq_refl). }
  split; [ exact Hout | split; [ exact Hsub | split; [ lia | split; [ exact Hgone | ] ] ] ].
  split; [ discriminate | ].
  intros _ _ Hstat file content mtime Hfile Hold Hok.
  destruct (forOf_processes_all env backupsPath (entriesOf w backupsPath) 0 w)
    as (n2 & w2 & Hrun2 & Hall).
  - apply entriesOf_NoDup.
  - intros f Hf. apply entriesOf_elem. exact Hf.
  - intros f _. apply Hstat.
  - rewrite Hrun in Hrun2. injection Hrun2 as -> -> ->.
    apply (Hall file content mtime); try assumption.
    apply entriesOf_elem. congruence.
Qed.

Lemma cleanOldBackups_tolerant_witness :
  exists w',
    cleanOldBackups Host.lockedEnv Host.backups Host.backupsWorld = (Returned 1%nat, w')
    /\ nodes w' !! Child Host.backups "old2.json" = None.
Proof.
  destruct (cleanOldBackups_tolerant Host.lockedEnv Host.backupsWorld Host.backups)
    as (n & w' & Hrun & _ & _ & _ & _ & _ & Hall).
  exists w'. split.
  - rewrite Hrun. f_equal. f_equal.
    assert (Hn : fst (cleanOldBackups Host.lockedEnv Host.backups Host.backupsWorld)
                 = Returned 1%nat) by (vm_compute; reflexivity).
    rewrite Hrun in Hn. simpl in Hn. congruence.
  - apply (Hall eq_refl eq_refl (fun _ => eq_refl) "old2.json" "{}" Host.fortyDaysAgo);
      reflexivity.
Defined.

(** ** Running commands: reading the stores *)

Lemma bind_Returned {A B} (m : Eff A) (k : A -> Eff B) (w w' : World) (b : B) :
  bind m k w = (Returned b, w') ->
  exists a w1, m w = (Returned a, w1) /\ k a w1 = (Returned b, w').
Proof.
  unfold bind. destruct (m w) as [[a | e | c] w1]; intros H; try discriminate.
  exists a, w1. split; [ reflexivity | exact H ].
Qed.

Lemma bind_run {A B} (m : Eff A) (k : A -> Eff B) (w w1 : World) (a : A) :
  m w = (Returned a, w1) -> bind m k w = k a w1.
Proof. unfold bind. intros ->. reflexivity. Qed.

Section StoredStateFacts.

Variable env : Env.

Lemma loadProjectRc_run (w : World) (projectRoot : Path) :
  loadProjectRc env projectRoot w = (Returned (rcOf env w projectRoot), w).
Proof.
  unfold loadProjectRc, rcOf, parsedAt, bind, tryCatch, existsSync, readFileSync, jsonParse.
  cbn [getProjectRcPath Fs.join fold_left lookupNode].
  destruct (nodes w !! _) as [[content m | ] | ] eqn:E; cbn [negb]; try reflexivity.
  - destruct (denied env OpRead _); [ reflexivity | ]. rewrite ?E.
    destruct (JSON_parse env content); reflexivity.
  - destruct (denied env OpRead _); rewrite ?E; reflexivity.
Qed.

Lemma loadIndex_run (w : World) : StoreManager.loadIndex env w = (Returned (indexOf env w), w).
Proof.
  unfold StoreManager.loadIndex, indexOf, parsedAt, bind, tryCatch, existsSync, readFileSync, jsonParse.
  unfold StoreManager.getIndexPath. cbn [lookupNode].
  destruct (nodes w !! _) as [[content m | ] | ] eqn:E; cbn [negb]; try reflexivity.
  - destruct (denied env OpRead _); [ reflexivity | ]. rewrite ?E.
    destruct (JSON_parse env content) as [v | ]; [ | reflexivity ].
    cbn. destruct (decodeIndex v); reflexivity.
  - destruct (denied env OpRead _); rewrite ?E; reflexivity.
Qed.

Lemma resolveConfigPath_run (w : World) (configsPath : Path) (id : string) :
  resolveConfigPath configsPath id w = (Returned (resolvedIn w configsPath id), w).
Proof.
  unfold resolveConfigPath, resolvedIn, bind, existsSync. cbn [lookupNode].
  destruct (nodes w !! Child configsPath (id +:+ ".jsonc")); [ reflexivity | ].
  destruct (nodes w !! Child configsPath (id +:+ ".json")); reflexivity.
Qed.

Lemma emit_run (e : Event) (w : World) :
  emit e w = (Returned tt, mkWorld (nodes w) (output w ++ [e])).
Proof. reflexivity. Qed.

End StoredStateFacts.

(** ** Removing a profile *)

Lemma child_neq_parent (p : Path) (name : string) : Child p name <> p.
Proof.
  revert name. induction p as [ | parent IH n ]; intros name H; [ discriminate | ].
  injection H as H _. exact (IH _ H).
Qed.

Lemma decodeAll_encode (ps : list Types.Profile) :
  decodeAll decodeProfile (map encodeProfile ps) = Some ps.
Proof.
  induction ps as [ | p rest IH ]; simpl; [ reflexivity | ].
  rewrite IH. destruct p as [i n c ca ua]. destruct c; reflexivity.
Qed.

(** Reading back what [encodeIndex] wrote gives the index. *)
Lemma decodeIndex_encode (index : Types.StoreIndex) :
  decodeIndex (encodeIndex index) = Some index.
Proof.
  destruct index as [version active ps]. unfold decodeIndex, encodeIndex. cbn.
  rewrite decodeAll_encode. destruct active; reflexivity.
Qed.

Section RmFacts.

Variable env : Env.

Lemma writeFileSync_Returned (p : Path) (content : string) (w w' : World) :
  writeFileSync env p content w = (Returned tt, w') ->
  w' = mkWorld (<[p := File content (nowMs env)]> (nodes w)) (output w).
Proof.
  unfold writeFileSync. destruct (denied env OpWrite p); [ discriminate | ].
  destruct p as [ | parent name ]; [ discriminate | ].
  destruct (lookupNode w parent) as [[ | ] | ]; try discriminate.
  destruct (nodes w !! Child parent name) as [[ | ] | ]; intros [= <-]; reflexivity.
Qed.

Lemma unlinkSync_Returned (p : Path) (w w' : World) :
  unlinkSync env p w = (Returned tt, w') ->
  w' = mkWorld (delete p (nodes w)) (output w).
Proof.
  unfold unlinkSync. destruct (denied env OpUnlink p); [ discriminate | ].
  destruct (nodes w !! p) as [[ | ] | ]; intros [= <-]; reflexivity.
Qed.

Lemma saveProjectRc_Returned (projectRoot : Path) (rc : JsonValue) (w w' : World) :
  saveProjectRc env projectRoot rc w = (Returned tt, w') ->
  nodes w' !! getProjectRcPath projectRoot
  = Some (File (stringifyPretty rc) (nowMs env)).
Proof.
  unfold saveProjectRc. intros H.
  apply bind_Returned in H as (found & w1 & Hfound & H).
  apply bind_Returned in H as ([] & w2 & _ & H).
  apply writeFileSync_Returned in H. subst w'. cbn. apply lookup_insert_eq.
Qed.

Lemma strictEqualsString_truthy (rc : JsonValue) (name s : string) :
  strictEqualsString (field rc name) s = true -> truthy rc = true.
Proof. destruct rc; simpl; try discriminate. reflexivity. Qed.

Lemma resetActiveProfile_clears (projectRoot : Path) (profileId : string) (w w' : World) :
  strictEqualsString (field (rcOf env w projectRoot) "activeProfileId") profileId = true ->
  resetActiveProfile env projectRoot profileId w = (Returned tt, w') ->
  nodes w' !! getProjectRcPath projectRoot
  = Some (File (stringifyPretty clearedRc) (nowMs env)).
Proof.
  intros Hactive. unfold resetActiveProfile, ProjectStoreManager.loadRc, ProjectStoreManager.saveRc.
  rewrite (bind_run _ _ _ _ _ (loadProjectRc_run env w projectRoot)).
  rewrite (strictEqualsString_truthy _ _ _ Hactive), Hactive. cbn [andb].
  apply saveProjectRc_Returned.
Qed.

Lemma rcOf_delete (projectRoot : Path) (id suffix : string) (w : World) :
  rcOf env (mkWorld (delete (Child (getProjectConfigsPath projectRoot) (id +:+ suffix))
                       (nodes w)) (output w)) projectRoot
  = rcOf env w projectRoot.
Proof.
  unfold rcOf, parsedAt. cbn [getProjectRcPath getProjectConfigsPath Fs.join fold_left
                              lookupNode nodes].
  rewrite lookup_delete_ne; [ reflexivity | ].
  intros H. injection H as H _. exact (child_neq_parent _ _ H).
Qed.

(** Deleting the raw file of a project profile leaves the rc record as it is. *)
Lemma deleteProfileConfig_keeps_rc (projectRoot : Path) (id : string) (w w' : World)
    (deleted : bool) :
  ProjectStoreManager.deleteProfileConfig env projectRoot id w = (Returned deleted, w') ->
  rcOf env w' projectRoot = rcOf env w projectRoot.
Proof.
  unfold ProjectStoreManager.deleteProfileConfig, ProjectStoreManager.getProfileConfigPath.
  rewrite (bind_run _ _ _ _ _ (resolveConfigPath_run w _ id)).
  unfold resolvedIn.
  destruct (nodes w !! Child (getProjectConfigsPath projectRoot) (id +:+ ".jsonc")).
  - intros H. apply bind_Returned in H as ([] & w1 & Hun & H).
    injection H as _ <-. apply unlinkSync_Returned in Hun. subst w1. apply rcOf_delete.
  - destruct (nodes w !! Child (getProjectConfigsPath projectRoot) (id +:+ ".json")).
    + intros H. apply bind_Returned in H as ([] & w1 & Hun & H).
      injection H as _ <-. apply unlinkSync_Returned in Hun. subst w1. apply rcOf_delete.
    + intros [= _ <-]. reflexivity.
Qed.

End RmFacts.

Section RmBranches.

Variable env : Env.

Lemma deleteProfile_Returned (id : string) (w w' : World) :
  StoreManager.deleteProfile env id w = (Returned tt, w') ->
  nodes w' !! StoreManager.getIndexPath env
  = Some (File (stringifyPretty (encodeIndex (StoreManager.withoutProfile id (indexOf env w))))
               (nowMs env)).
Proof.
  unfold StoreManager.deleteProfile, StoreManager.getProfileConfigPath, StoreManager.saveIndex.
  rewrite (bind_run _ _ _ _ _ (loadIndex_run env w)).
  rewrite (bind_run _ _ _ _ _ (resolveConfigPath_run w _ id)).
  intros H. apply bind_Returned in H as ([] & w1 & _ & H).
  apply writeFileSync_Returned in H. subst w'. cbn. apply lookup_insert_eq.
Qed.

Variable force : bool.

Hypothesis Hproceeds : proceeds env force.

(** The prompt, when there is one, is confirmed; it only prints. *)
Lemma confirmUnlessForced_proceeds (message : string) (w : World) :
  exists printed,
    confirmUnlessForced env force message w = (Returned true, mkWorld (nodes w) printed).
Proof.
  unfold confirmUnlessForced. destruct Hproceeds as [-> | Hyes].
  - exists (output w). destruct w; reflexivity.
  - destruct force.
    + exists (output w). destruct w; reflexivity.
    + rewrite Hyes. eexists. reflexivity.
Qed.

Ltac confirmed :=
  match goal with
  | |- context [bind (confirmUnlessForced env force ?message) _ ?w] =>
      let printed := fresh "printed" in
      let Hconfirm := fresh "Hconfirm" in
      destruct (confirmUnlessForced_proceeds message w) as [printed Hconfirm];
      rewrite (bind_run _ _ _ _ _ Hconfirm); clear Hconfirm
  end.

Ltac confirmed_in H :=
  match type of H with
  | context [bind (confirmUnlessForced env force ?message) _ ?w] =>
      let printed := fresh "printed" in
      let Hconfirm := fresh "Hconfirm" in
      destruct (confirmUnlessForced_proceeds message w) as [printed Hconfirm];
      rewrite (bind_run _ _ _ _ _ Hconfirm) in H; clear Hconfirm
  end.

Lemma rmFromUser_Returned (id : string) (w w' : World) (step : Rm.Step) :
  rmFromUser env id force w = (Returned step, w') ->
  nodes w' !! StoreManager.getIndexPath env
  = Some (File (stringifyPretty (encodeIndex (StoreManager.withoutProfile id (indexOf env w))))
               (nowMs env)).
Proof.
  unfold rmFromUser. rewrite (bind_run _ _ _ _ _ (emit_run _ w)).
  rewrite (bind_run _ _ _ _ _ (loadIndex_run env _)).
  destruct (findProfileById _ id); [ | discriminate ].
  confirmed. cbn [negb].
  rewrite (bind_run _ _ _ _ _ (emit_run _ _)).
  intros H. apply bind_Returned in H as ([] & w1 & Hdel & H).
  injection H as _ <-. exact (deleteProfile_Returned id _ _ Hdel).
Qed.

(** The statements that delete from the project and reset the rc record. *)
Lemma project_removal_Returned (root : Path) (id text : string) (w w' : World)
    (step : Rm.Step) :
  strictEqualsString (field (rcOf env w root) "activeProfileId") id = true ->
  (let! _ := emit (SpinnerText text) in
   let! _ := ProjectStoreManager.deleteProfileConfig env root id in
   let! _ := resetActiveProfile env root id in
   ret (Rm.DeletedFrom "project")) w = (Returned step, w') ->
  nodes w' !! getProjectRcPath root
  = Some (File (stringifyPretty clearedRc) (nowMs env)).
Proof.
  intros Hactive. rewrite (bind_run _ _ _ _ _ (emit_run _ w)).
  intros H. apply bind_Returned in H as (deleted & w1 & Hdel & H).
  apply bind_Returned in H as ([] & w2 & Hreset & H). injection H as _ <-.
  apply (resetActiveProfile_clears env root id w1); [ | exact Hreset ].
  rewrite (deleteProfileConfig_keeps_rc env root id _ _ _ Hdel). exact Hactive.
Qed.

Lemma rcOf_output (root : Path) (w : World) (printed : list Event) :
  rcOf env (mkWorld (nodes w) printed) root = rcOf env w root.
Proof. reflexivity. Qed.

Lemma indexOf_output (w : World) (printed : list Event) :
  indexOf env (mkWorld (nodes w) printed) = indexOf env w.
Proof. reflexivity. Qed.

Lemma configExists_run (root : Path) (id : string) (w : World) :
  ProjectStoreManager.configExists root id w
  = (Returned (match resolvedIn w (getProjectConfigsPath root) id with
               | Some _ => true
               | None => false
               end), w).
Proof.
  unfold ProjectStoreManager.configExists, ProjectStoreManager.getProfileConfigPath.
  rewrite (bind_run _ _ _ _ _ (resolveConfigPath_run w _ id)). reflexivity.
Qed.

Lemma rmFromProject_Returned (root : Path) (id : string) (w w' : World) (step : Rm.Step) :
  strictEqualsString (field (rcOf env w root) "activeProfileId") id = true ->
  rmFromProject env id force (Some root) w = (Returned step, w') ->
  nodes w' !! getProjectRcPath root
  = Some (File (stringifyPretty clearedRc) (nowMs env)).
Proof.
  intros Hactive. unfold rmFromProject.
  rewrite (bind_run _ _ _ _ _ (emit_run _ w)).
  rewrite (bind_run _ _ _ _ _ (configExists_run root id _)).
  destruct (resolvedIn _ _ id); cbn [negb]; [ | discriminate ].
  confirmed. cbn [negb].
  apply project_removal_Returned. exact Hactive.
Qed.

Lemma rmFromEither_project (root : Path) (id : string) (w w' : World) (step : Rm.Step) :
  resolvedIn w (getProjectConfigsPath root) id <> None ->
  strictEqualsString (field (rcOf env w root) "activeProfileId") id = true ->
  rmFromEither env id force (Some root) w = (Returned step, w') ->
  nodes w' !! getProjectRcPath root
  = Some (File (stringifyPretty clearedRc) (nowMs env)).
Proof.
  intros Hpresent Hactive. unfold rmFromEither.
  rewrite (bind_run _ _ _ _ _ (emit_run _ w)).
  intros H. apply bind_Returned in H as (inProject & w1 & Hproject & H).
  rewrite (bind_run _ _ _ _ _ (configExists_run root id _)) in Hproject.
  change (resolvedIn {| nodes := nodes w; output := output w ++ [SpinnerText "Searching for profile..."] |}
            (getProjectConfigsPath root) id)
    with (resolvedIn w (getProjectConfigsPath root) id) in Hproject.
  destruct (resolvedIn w (getProjectConfigsPath root) id); [ | contradiction ].
  cbn [negb] in Hproject.
  confirmed_in Hproject. cbn [negb] in Hproject.
  rewrite <- (rcOf_output root w printed) in Hactive.
  pose proof (project_removal_Returned root id _ _ _ _ Hactive Hproject) as Hrc.
  assert (inProject = Rm.DeletedFrom "project") as ->.
  { rewrite (bind_run _ _ _ _ _ (emit_run _ _)) in Hproject.
    apply bind_Returned in Hproject as (d & w2 & _ & Hproject).
    apply bind_Returned in Hproject as ([] & w3 & _ & Hproject).
    injection Hproject as <- _. reflexivity. }
  injection H as _ <-. exact Hrc.
Qed.

Lemma rmFromEither_user (projectRoot : option Path) (id : string) (w w' : World)
    (step : Rm.Step) :
  (forall root, projectRoot = Some root ->
                resolvedIn w (getProjectConfigsPath root) id = None) ->
  rmFromEither env id force projectRoot w = (Returned step, w') ->
  step = Rm.NotFound
  \/ nodes w' !! StoreManager.getIndexPath env
     = Some (File (stringifyPretty (encodeIndex (StoreManager.withoutProfile id (indexOf env w))))
                  (nowMs env)).
Proof.
  intros Habsent. unfold rmFromEither.
  rewrite (bind_run _ _ _ _ _ (emit_run _ w)).
  intros H. apply bind_Returned in H as (inProject & w1 & Hproject & H).
  assert (inProject = Rm.NotFound
          /\ w1 = mkWorld (nodes w) (output w ++ [SpinnerText "Searching for profile..."]))
    as [-> ->].
  { destruct projectRoot as [root | ].
    - rewrite (bind_run _ _ _ _ _ (configExists_run root id _)) in Hproject.
      change (resolvedIn {| nodes := nodes w;
                            output := output w ++ [SpinnerText "Searching for profile..."] |}
                (getProjectConfigsPath root) id)
        with (resolvedIn w (getProjectConfigsPath root) id) in Hproject.
      rewrite (Habsent root eq_refl) in Hproject. cbn in Hproject.
      injection Hproject as <- <-. split; reflexivity.
    - injection Hproject as <- <-. split; reflexivity. }
  rewrite (bind_run _ _ _ _ _ (loadIndex_run env _)) in H.
  destruct (findProfileById _ id).
  - right. confirmed_in H. cbn [negb] in H. rewrite (bind_run _ _ _ _ _ (emit_run _ _)) in H.
    apply bind_Returned in H as ([] & w2 & Hdel & H). injection H as _ <-.
    exact (deleteProfile_Returned id _ _ Hdel).
  - left. injection H as <- _. reflexivity.
Qed.

Lemma loadProjectRc_cleared (root : Path) (w : World) (mtime : Z) :
  nodes w !! getProjectRcPath root = Some (File (stringifyPretty clearedRc) mtime) ->
  JSON_parse env (stringifyPretty clearedRc) = Some clearedRc ->
  denied env OpRead (getProjectRcPath root) = false ->
  loadProjectRc env root w = (Returned clearedRc, w).
Proof.
  intros Hfile Hparse Hread. rewrite loadProjectRc_run. unfold rcOf, parsedAt.
  cbn [getProjectRcPath Fs.join fold_left lookupNode] in *.
  rewrite Hfile, Hread, Hparse. reflexivity.
Qed.

Lemma loadIndex_saved (index : Types.StoreIndex) (w : World) (mtime : Z) :
  nodes w !! StoreManager.getIndexPath env = Some (File (stringifyPretty (encodeIndex index)) mtime) ->
  JSON_parse env (stringifyPretty (encodeIndex index)) = Some (encodeIndex index) ->
  denied env OpRead (StoreManager.getIndexPath env) = false ->
  StoreManager.loadIndex env w = (Returned index, w).
Proof.
  intros Hfile Hparse Hread. rewrite loadIndex_run. unfold indexOf, parsedAt.
  unfold StoreManager.getIndexPath in *. cbn [lookupNode].
  rewrite Hfile, Hread, Hparse, decodeIndex_encode. reflexivity.
Qed.

(** How [handleOmoRm] returns: the chosen branch returned a step, and
    what follows only prints. *)
Lemma handleOmoRm_Returned (id : string) (options : Rm.RmOptions)
    (projectRoot : option Path) (w w' : World) :
  handleOmoRm env id options projectRoot w = (Returned tt, w') ->
  exists step w1,
    (if bool_decide (Rm.scope options = Some "user")
     then rmFromUser env id (Rm.force options)
     else if bool_decide (Rm.scope options = Some "project")
          then rmFromProject env id (Rm.force options) projectRoot
          else rmFromEither env id (Rm.force options) projectRoot) w
    = (Returned step, w1)
    /\ step <> Rm.NotFound
    /\ nodes w' = nodes w1.
Proof.
  unfold handleOmoRm. intros H.
  apply bind_Returned in H as ([] & w0 & Hcheck & H).
  assert (w0 = w) as ->.
  { destruct (isSet (Rm.scope options) && _ && _); [ discriminate | ].
    injection Hcheck as <-. reflexivity. }
  apply bind_Returned in H as (step & w1 & Hstep & H).
  exists step, w1. split; [ exact Hstep | ].
  destruct step as [ | | d ].
  - injection H as <-. split; [ discriminate | reflexivity ].
  - discriminate.
  - injection H as <-. split; [ discriminate | reflexivity ].
Qed.

End RmBranches.

(** C5. When [handleOmoRm] deletes a profile (under [--force] or with
    the prompt confirmed, and returning normally) that the scope it deletes
    from records as active,
    the persisted reference is [null] afterwards: the project rc file holds
    [{ activeProfileId: null }], or the global index file holds an index
    whose [activeProfileId] is [null]; and loading the rc or the index
    again, with a parser that reads back what was written, observes it. *)
Theorem rm_clears_active_reference (env : Env) (profileId : string)
    (options : Rm.RmOptions) (projectRoot : option Path) (w w' : World) :
  proceeds env (Rm.force options) ->
  handleOmoRm env profileId options projectRoot w = (Returned tt, w') ->
  (forall root rc,
      projectRoot = Some root ->
      Rm.scope options = Some "project"
      \/ (Rm.scope options <> Some "user" /\ Rm.scope options <> Some "project"
          /\ ProjectStoreManager.configExists root profileId w = (Returned true, w)) ->
      loadProjectRc env root w = (Returned rc, w) ->
      strictEqualsString (field rc "activeProfileId") profileId = true ->
      nodes w' !! getProjectRcPath root
      = Some (File (stringifyPretty clearedRc) (nowMs env))
      /\ field clearedRc "activeProfileId" = Some JNull
      /\ (JSON_parse env (stringifyPretty clearedRc) = Some clearedRc ->
          denied env OpRead (getProjectRcPath root) = false ->
          loadProjectRc env root w' = (Returned clearedRc, w')))
  /\ (forall index,
         Rm.scope options = Some "user"
         \/ (Rm.scope options <> Some "user" /\ Rm.scope options <> Some "project"
             /\ forall root, projectRoot = Some root ->
                             ProjectStoreManager.configExists root profileId w = (Returned false, w)) ->
         StoreManager.loadIndex env w = (Returned index, w) ->
         Types.activeProfileId index = Some profileId ->
         let index' := StoreManager.withoutProfile profileId index in
         Types.activeProfileId index' = None
         /\ nodes w' !! StoreManager.getIndexPath env
            = Some (File (stringifyPretty (encodeIndex index')) (nowMs env))
         /\ (JSON_parse env (stringifyPretty (encodeIndex index')) = Some (encodeIndex index') ->
             denied env OpRead (StoreManager.getIndexPath env) = false ->
             StoreManager.loadIndex env w' = (Returned index', w'))).
Proof.
  intros Hproceeds Hrun.
  destruct (handleOmoRm_Returned env profileId options projectRoot w w' Hrun)
    as (step & w1 & Hstep & Hfound & Hnodes).
  split.
  - intros root rc -> Hscope Hload Hactive.
    rewrite loadProjectRc_run in Hload. injection Hload as <-.
    assert (Hfile : nodes w' !! getProjectRcPath root
                    = Some (File (stringifyPretty clearedRc) (nowMs env))).
    { rewrite Hnodes. destruct Hscope as [Hscope | (Hnu & Hnp & Hpresent)].
      - rewrite Hscope in Hstep. cbn in Hstep.
        exact (rmFromProject_Returned env _ Hproceeds root profileId w w1 step Hactive Hstep).
      - rewrite !bool_decide_eq_false_2 in Hstep by assumption.
        apply (rmFromEither_project env _ Hproceeds root profileId w w1 step); try assumption.
        rewrite configExists_run in Hpresent.
        destruct (resolvedIn w _ profileId); [ discriminate | discriminate ]. }
    split; [ exact Hfile | split; [ reflexivity | ] ].
    intros Hparse Hread. exact (loadProjectRc_cleared env root w' _ Hfile Hparse Hread).
  - intros index Hscope Hload Hactive.
    rewrite loadIndex_run in Hload. injection Hload as <-. intros index'. subst index'.
    assert (Hfile : nodes w' !! StoreManager.getIndexPath env
                    = Some (File (stringifyPretty
                                    (encodeIndex (StoreManager.withoutProfile profileId (indexOf env w))))
                                 (nowMs env))).
    { rewrite Hnodes. destruct Hscope as [Hscope | (Hnu & Hnp & Habsent)].
      - rewrite Hscope in Hstep. cbn in Hstep.
        exact (rmFromUser_Returned env _ Hproceeds profileId w w1 step Hstep).
      - rewrite !bool_decide_eq_false_2 in Hstep by assumption.
        destruct (rmFromEither_user env _ Hproceeds projectRoot profileId w w1 step) as [Hnone | Hfile];
          [ | exact Hstep | contradiction | exact Hfile ].
        intros root Hroot. specialize (Habsent root Hroot).
        rewrite configExists_run in Habsent.
        destruct (resolvedIn w _ profileId); [ discriminate | reflexivity ]. }
    split; [ | split; [ exact Hfile | ] ].
    + unfold StoreManager.withoutProfile. cbn. rewrite Hactive, String.eqb_refl. reflexivity.
    + intros Hparse Hread. exact (loadIndex_saved env _ w' _ Hfile Hparse Hread).
Qed.

Lemma rm_clears_active_reference_witness :
  exists w1 w2,
    handleOmoRm Host.sampleEnv "work" {| Rm.scope := Some "project"; Rm.force := true |}
      (Some Host.repo) Host.activeWorld = (Returned tt, w1)
    /\ loadProjectRc Host.sampleEnv Host.repo w1 = (Returned clearedRc, w1)
    /\ handleOmoRm Host.sampleEnv "work" {| Rm.scope := Some "user"; Rm.force := false |}
         (Some Host.repo) Host.activeWorld = (Returned tt, w2)
    /\ Types.activeProfileId (StoreManager.withoutProfile "work" Host.workIndex) = None
    /\ StoreManager.loadIndex Host.sampleEnv w2 = (Returned (StoreManager.withoutProfile "work" Host.workIndex), w2).
Proof.
  destruct (handleOmoRm Host.sampleEnv "work"
              {| Rm.scope := Some "project"; Rm.force := true |}
              (Some Host.repo) Host.activeWorld) as [r1 w1] eqn:Hrun1.
  assert (Hr1 : r1 = Returned tt).
  { apply (f_equal fst) in Hrun1. vm_compute in Hrun1. congruence. }
  subst r1.
  destruct (handleOmoRm Host.sampleEnv "work"
              {| Rm.scope := Some "user"; Rm.force := false |}
              (Some Host.repo) Host.activeWorld) as [r2 w2] eqn:Hrun2.
  assert (Hr2 : r2 = Returned tt).
  { apply (f_equal fst) in Hrun2. vm_compute in Hrun2. congruence. }
  subst r2.
  destruct (rm_clears_active_reference Host.sampleEnv "work"
              {| Rm.scope := Some "project"; Rm.force := true |}
              (Some Host.repo) Host.activeWorld w1 (or_introl eq_refl) Hrun1) as [Hproject _].
  destruct (Hproject Host.repo (JObject [("activeProfileId", JString "work")]) eq_refl)
    as (_ & _ & Hreload); [ left | | | ]; try reflexivity.
  destruct (rm_clears_active_reference Host.sampleEnv "work"
              {| Rm.scope := Some "user"; Rm.force := false |}
              (Some Host.repo) Host.activeWorld w2
              (or_intror (fun _ => eq_refl)) Hrun2) as [_ Huser].
  destruct (Huser Host.workIndex) as (Hnone & _ & Hreindex);
    [ left | | | ]; try reflexivity.
  exists w1, w2.
  split; [ reflexivity | split; [ apply Hreload; reflexivity | ] ].
  split; [ reflexivity | split; [ exact Hnone | ] ].
  apply Hreindex; reflexivity.
Defined.

(** ** Applying a profile: what a run may write *)

Section Frames.

Variable env : Env.
Variable allowed : Path -> Prop.

Lemma framed_refl (w : World) : framed allowed w w.
Proof.
  split; [ intros p _; reflexivity | ].
  exists []. split; [ rewrite app_nil_r; reflexivity | intros [] ].
Qed.

Lemma sameFiles_trans (w1 w2 w3 : World) :
  sameFiles allowed w1 w2 -> sameFiles allowed w2 w3 -> sameFiles allowed w1 w3.
Proof. intros H12 H23 p Hp. rewrite (H23 p Hp). apply H12. exact Hp. Qed.

Lemma framed_trans (w1 w2 w3 : World) :
  framed allowed w1 w2 -> framed allowed w2 w3 -> framed allowed w1 w3.
Proof.
  intros [H12 (o1 & Ho1 & Hq1)] [H23 (o2 & Ho2 & Hq2)].
  split; [ eapply sameFiles_trans; eassumption | ].
  exists (o1 ++ o2). split.
  - rewrite Ho2, Ho1, <- app_assoc. reflexivity.
  - rewrite in_app_iff. tauto.
Qed.

Lemma tame_ret {A} (a : A) : tame allowed (ret a).
Proof. intros w r w' [= <- <-]. split; [ discriminate | apply framed_refl ]. Qed.

Lemma tame_throw {A} (message : string) : tame allowed (@throw A message).
Proof. intros w r w' [= <- <-]. split; [ discriminate | apply framed_refl ]. Qed.

Lemma tame_bind {A B} (m : Eff A) (k : A -> Eff B) :
  tame allowed m -> (forall a, tame allowed (k a)) -> tame allowed (bind m k).
Proof.
  intros Hm Hk w r w'. unfold bind.
  destruct (m w) as [[a | e | c] w1] eqn:E; destruct (Hm _ _ _ E) as [Hne H1].
  - intros H2. destruct (Hk a _ _ _ H2) as [Hne2 H2'].
    split; [ exact Hne2 | eapply framed_trans; eassumption ].
  - intros [= <- <-]. split; [ discriminate | exact H1 ].
  - exfalso. exact (Hne c eq_refl).
Qed.

Lemma tame_tryCatch {A} (m : Eff A) (handler : string -> Eff A) :
  tame allowed m -> (forall e, tame allowed (handler e)) -> tame allowed (tryCatch m handler).
Proof.
  intros Hm Hh w r w'. unfold tryCatch.
  destruct (m w) as [[a | e | c] w1] eqn:E; destruct (Hm _ _ _ E) as [Hne H1].
  - intros [= <- <-]. split; [ discriminate | exact H1 ].
  - intros H2. destruct (Hh e _ _ _ H2) as [Hne2 H2'].
    split; [ exact Hne2 | eapply framed_trans; eassumption ].
  - exfalso. exact (Hne c eq_refl).
Qed.

Lemma tame_emit (e : Event) : e <> validationFailed -> tame allowed (emit e).
Proof.
  intros He w r w' [= <- <-]. split; [ discriminate | ]. split.
  - intros p _. reflexivity.
  - exists [e]. split; [ reflexivity | ]. intros [Hin | []]. congruence.
Qed.

Lemma tame_existsSync (p : Path) : tame allowed (existsSync p).
Proof. intros w r w' [= <- <-]. split; [ discriminate | apply framed_refl ]. Qed.

Lemma tame_statSync (p : Path) : tame allowed (statSync env p).
Proof.
  intros w r w'. unfold statSync.
  destruct (denied env OpStat p); [ | destruct (lookupNode w p) ];
    intros [= <- <-]; (split; [ discriminate | apply framed_refl ]).
Qed.

Lemma tame_readdirSync (p : Path) : tame allowed (readdirSync env p).
Proof.
  intros w r w'. unfold readdirSync.
  destruct (denied env OpReaddir p); [ | destruct (lookupNode w p) as [[ | ] | ] ];
    intros [= <- <-]; (split; [ discriminate | apply framed_refl ]).
Qed.

Lemma tame_readFileSync (p : Path) : tame allowed (readFileSync env p).
Proof.
  intros w r w'. unfold readFileSync.
  destruct (denied env OpRead p); [ | destruct (lookupNode w p) as [[ | ] | ] ];
    intros [= <- <-]; (split; [ discriminate | apply framed_refl ]).
Qed.

Lemma tame_jsonParse (text : string) : tame allowed (jsonParse env text).
Proof.
  unfold jsonParse. destruct (JSON_parse env text); [ apply tame_ret | apply tame_throw ].
Qed.

Lemma fileAt_insert_ne (w : World) (p q : Path) (node : Node) (printed : list Event) :
  p <> q -> fileAt (mkWorld (<[q := node]> (nodes w)) printed) p = fileAt w p.
Proof. intros Hne. unfold fileAt. cbn. rewrite lookup_insert_ne by congruence. reflexivity. Qed.

Lemma tame_writeFileSync (p : Path) (content : string) :
  allowed p -> tame allowed (writeFileSync env p content).
Proof.
  intros Hp w r w'. unfold writeFileSync.
  destruct (denied env OpWrite p); [ intros [= <- <-]; split; [ discriminate | apply framed_refl ] | ].
  destruct p as [ | parent name ];
    [ intros [= <- <-]; split; [ discriminate | apply framed_refl ] | ].
  assert (Hw : framed allowed w
                 (mkWorld (<[Child parent name := File content (nowMs env)]> (nodes w))
                          (output w))).
  { split.
    - intros q Hq. apply fileAt_insert_ne. intros ->. contradiction.
    - exists []. split; [ cbn; rewrite app_nil_r; reflexivity | intros [] ]. }
  destruct (lookupNode w parent) as [[ | ] | ];
    try (intros [= <- <-]; split; [ discriminate | apply framed_refl ]).
  destruct (nodes w !! Child parent name) as [[ | ] | ]; intros [= <- <-];
    (split; [ discriminate | first [ exact Hw | apply framed_refl ] ]).
Qed.

Lemma mkdirp_fileAt (p : Path) (tree tree' : gmap Path Node) :
  mkdirp p tree = Some tree' ->
  forall q, match tree' !! q with Some (File c m) => Some (c, m) | _ => None end
            = match tree !! q with Some (File c m) => Some (c, m) | _ => None end.
Proof.
  revert tree'. induction p as [ | parent IH name ]; simpl; intros tree' H q.
  - injection H as <-. reflexivity.
  - destruct (mkdirp parent tree) as [t1 | ] eqn:E1; [ | discriminate ].
    rewrite <- (IH t1 eq_refl q).
    destruct (t1 !! Child parent name) as [[ | ] | ] eqn:E2; try discriminate.
    + injection H as <-. reflexivity.
    + injection H as <-. destruct (decide (q = Child parent name)) as [-> | Hne].
      * rewrite lookup_insert_eq, E2. reflexivity.
      * rewrite lookup_insert_ne by congruence. reflexivity.
Qed.

Lemma tame_mkdirSync (p : Path) : tame allowed (mkdirSync env p).
Proof.
  intros w r w'. unfold mkdirSync.
  destruct (denied env OpMkdir p); [ intros [= <- <-]; split; [ discriminate | apply framed_refl ] | ].
  destruct (mkdirp p (nodes w)) as [tree | ] eqn:E; intros [= <- <-];
    (split; [ discriminate | ]); [ | apply framed_refl ].
  split.
  - intros q _. unfold fileAt. cbn. apply (mkdirp_fileAt p). exact E.
  - exists []. split; [ cbn; rewrite app_nil_r; reflexivity | intros [] ].
Qed.

Lemma tame_copyFileSync (src dest : Path) :
  allowed dest -> tame allowed (copyFileSync env src dest).
Proof.
  intros Hd w r w'. unfold copyFileSync.
  destruct (denied env OpCopy src);
    [ intros [= <- <-]; split; [ discriminate | apply framed_refl ] | ].
  apply tame_bind; [ apply tame_readFileSync | intros c; apply tame_writeFileSync; exact Hd ].
Qed.

(** A tame computation is quiet. *)
Lemma quiet_tame {A} (m : Eff A) : tame allowed m -> quiet allowed m.
Proof. intros Hm w r w' H. exact (proj2 (Hm _ _ _ H)). Qed.

Lemma quiet_exit {A} (c : Z) : quiet allowed (@exit A c).
Proof. intros w r w' [= <- <-]. apply framed_refl. Qed.

Lemma quiet_bind {A B} (m : Eff A) (k : A -> Eff B) :
  quiet allowed m -> (forall a, quiet allowed (k a)) -> quiet allowed (bind m k).
Proof.
  intros Hm Hk w r w'. unfold bind.
  destruct (m w) as [[a | e | c1] w1] eqn:E; pose proof (Hm _ _ _ E) as H1.
  - intros H2. exact (framed_trans _ _ _ H1 (Hk a _ _ _ H2)).
  - intros [= <- <-]. exact H1.
  - intros [= <- <-]. exact H1.
Qed.

End Frames.

(** Breaks a goal [tame allowed m] down along the structure of [m]. *)
Ltac tame_step :=
  first
    [ apply tame_ret
    | apply tame_throw
    | apply tame_emit; discriminate
    | apply tame_existsSync
    | apply tame_statSync
    | apply tame_readdirSync
    | apply tame_readFileSync
    | apply tame_jsonParse
    | apply tame_mkdirSync
    | apply tame_bind; [ | intros ? ]
    | apply tame_tryCatch; [ | intros ? ]
    | match goal with
      | |- tame _ (if ?b then _ else _) => destruct b
      | |- tame _ (match ?x with _ => _ end) => destruct x
      | |- tame _ (let (_, _) := ?x in _) => destruct x
      end ].

Ltac tame_auto := repeat tame_step.

Section TameCalls.

Variable env : Env.
Variable allowed : Path -> Prop.

Lemma tame_loadIndex : tame allowed (StoreManager.loadIndex env).
Proof. unfold StoreManager.loadIndex. tame_auto. Qed.

Lemma tame_saveIndex (index : Types.StoreIndex) :
  allowed (StoreManager.getIndexPath env) -> tame allowed (StoreManager.saveIndex env index).
Proof. intros H. apply tame_writeFileSync. exact H. Qed.

Lemma tame_syncProfiles : allowed (StoreManager.getIndexPath env) -> tame allowed (StoreManager.syncProfiles env).
Proof.
  intros H. unfold StoreManager.syncProfiles.
  apply tame_bind; [ apply tame_loadIndex | intros index ].
  apply tame_bind; [ apply tame_existsSync | intros found ].
  destruct (negb found); [ apply tame_ret | ].
  apply tame_bind; [ apply tame_readdirSync | intros files ].
  destruct (List.filter _ _); [ apply tame_ret | ].
  apply tame_bind; [ apply tame_saveIndex; exact H | intros ? ]. apply tame_ret.
Qed.

Lemma tame_hasMarkerDirectory (dir : Path) : tame allowed (hasMarkerDirectory env dir).
Proof. unfold hasMarkerDirectory. tame_auto. Qed.

Lemma tame_findProjectRootFrom (dir : Path) : tame allowed (findProjectRootFrom env dir).
Proof.
  induction dir as [ | parent IH name ]; simpl.
  - apply tame_bind; [ apply tame_hasMarkerDirectory | intros ? ]. apply tame_ret.
  - apply tame_bind; [ apply tame_hasMarkerDirectory | intros marked ].
    destruct marked; [ apply tame_ret | exact IH ].
Qed.

Lemma tame_resolveProjectRoot (startDir : option PathArg) :
  tame allowed (resolveProjectRoot env startDir).
Proof.
  unfold resolveProjectRoot, findProjectRoot.
  apply tame_bind; [ apply tame_findProjectRootFrom | intros ? ]. apply tame_ret.
Qed.

Lemma tame_ensureProjectDirs (root : Path) : tame allowed (ensureProjectDirs env root).
Proof. unfold ensureProjectDirs. tame_auto. Qed.

Lemma tame_projectEnsureDirectories (root : Path) :
  allowed (ProjectStoreManager.getGitignorePath root) -> tame allowed (ProjectStoreManager.ensureDirectories env root).
Proof.
  intros H. unfold ProjectStoreManager.ensureDirectories.
  apply tame_bind; [ apply tame_ensureProjectDirs | intros ? ].
  apply tame_bind; [ apply tame_existsSync | intros hasBackups ].
  apply tame_bind; [ destruct (negb hasBackups); tame_auto | intros ? ].
  apply tame_bind; [ apply tame_existsSync | intros hasIgnore ].
  destruct (negb hasIgnore); [ apply tame_writeFileSync; exact H | ].
  apply tame_bind; [ apply tame_readFileSync | intros content ].
  destruct (Str.includes _ content); [ apply tame_ret | apply tame_writeFileSync; exact H ].
Qed.

Lemma tame_resolveConfigPath (dir : Path) (id : string) :
  tame allowed (resolveConfigPath dir id).
Proof. unfold resolveConfigPath. tame_auto. Qed.

Lemma tame_readConfigRaw (dir : Path) (id : string) : tame allowed (readConfigRaw env dir id).
Proof.
  unfold readConfigRaw.
  apply tame_bind; [ apply tame_resolveConfigPath | intros resolved ].
  destruct resolved; tame_auto.
Qed.

Lemma tame_listProfiles (root : Path) : tame allowed (ProjectStoreManager.listProfiles env root).
Proof. unfold ProjectStoreManager.listProfiles. tame_auto. Qed.

Lemma tame_newValidator (schemaPath : Path) : tame allowed (newValidator env schemaPath).
Proof. unfold newValidator. tame_auto. Qed.

Lemma tame_readBundledAsset (name : string) : tame allowed (readBundledAsset env name).
Proof. unfold readBundledAsset. tame_auto. Qed.

Lemma tame_downloadFile (url : string) (dir : Path) (name : string) (meta : JsonObject) :
  allowed (Child dir name) -> allowed (Child dir "meta.json") ->
  tame allowed (downloadFile env url dir name meta).
Proof.
  intros H1 H2. unfold downloadFile. destruct (httpGet env url); [ | apply tame_throw ].
  apply tame_bind; [ apply tame_writeFileSync, H1 | intros ? ].
  apply tame_bind; [ apply tame_writeFileSync, H2 | intros ? ]. apply tame_ret.
Qed.

Lemma tame_saveCacheFile (dir : Path) (name content : string) (meta : JsonObject) :
  allowed (Child dir name) -> allowed (Child dir "meta.json") ->
  tame allowed (StoreManager.saveCacheFile env dir name content meta).
Proof.
  intros H1 H2. unfold StoreManager.saveCacheFile.
  apply tame_bind; [ apply tame_existsSync | intros found ].
  apply tame_bind; [ destruct (negb found); tame_auto | intros ? ].
  apply tame_bind; [ apply tame_writeFileSync, H1 | intros ? ].
  apply tame_writeFileSync, H2.
Qed.

Lemma tame_ensureSchemaAvailable :
  allowed (Child (StoreManager.getCacheSchemaPath env) SCHEMA_FILE) ->
  allowed (Child (StoreManager.getCacheSchemaPath env) "meta.json") ->
  tame allowed (ensureSchemaAvailable env).
Proof.
  intros H1 H2. unfold ensureSchemaAvailable.
  apply tame_bind; [ apply tame_existsSync | intros found ].
  destruct found; [ apply tame_ret | ].
  apply tame_tryCatch.
  - apply tame_bind; [ apply tame_downloadFile; assumption | intros ? ]. apply tame_ret.
  - intros e. apply tame_bind; [ apply tame_readBundledAsset | intros bundled ].
    destruct bundled as [text | ]; [ | apply tame_throw ].
    destruct (negb (String.eqb text EmptyString)); [ | apply tame_throw ].
    apply tame_bind; [ apply tame_saveCacheFile; assumption | intros ? ]. apply tame_ret.
Qed.

Lemma tame_forEach {X} (items : list X) (body : X -> Eff unit) :
  (forall x, tame allowed (body x)) -> tame allowed (forEach items body).
Proof.
  intros Hbody. induction items as [ | x rest IH ]; simpl; [ apply tame_ret | ].
  apply tame_bind; [ apply Hbody | intros ? ]. exact IH.
Qed.

End TameCalls.

Section TameWrites.

Variable env : Env.

Lemma tame_firstExisting (candidates : list Path) :
  tame anywhere (firstExisting candidates).
Proof.
  induction candidates as [ | p rest IH ]; simpl; [ apply tame_ret | ].
  apply tame_bind; [ apply tame_existsSync | intros found ].
  destruct found; [ apply tame_ret | exact IH ].
Qed.

Lemma tame_backupInto (backupsPath sourcePath : Path) :
  tame anywhere (backupInto env backupsPath sourcePath).
Proof.
  unfold backupInto.
  apply tame_bind; [ apply tame_existsSync | intros found ].
  destruct (negb found); [ apply tame_ret | ].
  apply tame_bind; [ apply tame_existsSync | intros hasDir ].
  apply tame_bind; [ destruct (negb hasDir); tame_auto | intros ? ].
  apply tame_bind; [ apply tame_copyFileSync; exact I | intros ? ]. apply tame_ret.
Qed.

Lemma tame_getConfigTargetDir : tame anywhere (getConfigTargetDir env).
Proof.
  unfold getConfigTargetDir, findExistingConfigPath.
  destruct (isWindows env); [ | apply tame_ret ].
  apply tame_bind; [ apply tame_firstExisting | intros ? ]. apply tame_ret.
Qed.

Lemma tame_ensureConfigDir (p : Path) : tame anywhere (ensureConfigDir env p).
Proof. unfold ensureConfigDir. tame_auto. Qed.

Lemma tame_saveProjectRc (root : Path) (rc : JsonValue) :
  tame anywhere (saveProjectRc env root rc).
Proof.
  unfold saveProjectRc.
  apply tame_bind; [ apply tame_existsSync | intros found ].
  apply tame_bind; [ destruct (negb found); tame_auto | intros ? ].
  apply tame_writeFileSync. exact I.
Qed.

Lemma tame_applyValidated (scope : string) (projectRoot : option Path)
    (profile : Types.Profile) (content source : string) (index : Types.StoreIndex) :
  tame anywhere (applyValidated env scope projectRoot profile content source index).
Proof.
  unfold applyValidated.
  apply tame_bind.
  { destruct projectRoot as [root | ].
    - apply tame_bind; [ apply tame_ensureConfigDir | intros ? ].
      apply tame_bind; [ apply tame_emit; discriminate | intros ? ].
      apply tame_bind; [ apply tame_backupInto | intros ? ]. apply tame_ret.
    - apply tame_bind; [ apply tame_emit; discriminate | intros ? ].
      apply tame_bind; [ apply tame_getConfigTargetDir | intros targetDir ].
      apply tame_bind; [ apply tame_ensureConfigDir | intros ? ].
      apply tame_bind; [ apply tame_emit; discriminate | intros ? ].
      apply tame_bind; [ apply tame_existsSync | intros hasJsonc ].
      destruct hasJsonc.
      + apply tame_bind; [ apply tame_backupInto | intros ? ]. apply tame_ret.
      + apply tame_bind; [ apply tame_existsSync | intros hasJson ].
        destruct hasJson; [ | apply tame_ret ].
        apply tame_bind; [ apply tame_backupInto | intros ? ]. apply tame_ret. }
  intros located.
  apply tame_bind; [ destruct (snd located); tame_auto | intros ? ].
  apply tame_bind; [ apply tame_emit; discriminate | intros ? ].
  apply tame_bind; [ apply tame_writeFileSync; exact I | intros ? ].
  apply tame_bind.
  { destruct projectRoot as [root | ];
      [ apply tame_saveProjectRc | apply tame_writeFileSync; exact I ]. }
  intros ?.
  apply tame_bind; [ apply tame_emit; discriminate | intros ? ].
  apply tame_bind; [ apply tame_emit; discriminate | intros ? ].
  apply tame_bind; [ apply tame_emit; discriminate | intros ? ].
  destruct (snd located); tame_auto.
Qed.

End TameWrites.

(** ** Applying a profile: leaving before anything is applied *)

Section ApplyFacts.

Variable env : Env.

Lemma quiet_failAndExit {A} (allowed : Path -> Prop) (message : string) :
  message <> "Configuration validation failed" ->
  quiet allowed (@failAndExit A message).
Proof.
  intros Hm. unfold failAndExit.
  apply quiet_bind;
    [ apply quiet_tame, tame_emit; unfold validationFailed; congruence | intros ? ].
  apply quiet_exit.
Qed.

(** What the validation branch does: it prints the messages and ends the
    process with code 1, and touches no file. *)
Lemma forEach_emit (f : string -> Event) (items : list string) (w : World) :
  forEach items (fun x => emit (f x)) w
  = (Returned tt, mkWorld (nodes w) (output w ++ map f items)).
Proof.
  revert w. induction items as [ | x rest IH ]; intros w; simpl.
  - rewrite app_nil_r. destruct w; reflexivity.
  - unfold bind. rewrite emit_run, IH. cbn. rewrite <- app_assoc. reflexivity.
Qed.

Lemma reportInvalid_run (errors : list string) (w : World) :
  reportInvalid env errors w
  = (Exited 1,
     mkWorld (nodes w)
       (output w
        ++ validationReport env errors)).
Proof.
  unfold reportInvalid, bind. rewrite !emit_run.
  rewrite (forEach_emit (fun err => ConsoleError (red (colours env) ("  - " +:+ err)))).
  cbn. unfold validationReport. rewrite <- !app_assoc. reflexivity.
Qed.

Lemma afterSync_gitignore (root : Path) : afterSync env (ProjectStoreManager.getGitignorePath root).
Proof. left. exists root. reflexivity. Qed.

Lemma afterSync_schema : afterSync env (Child (StoreManager.getCacheSchemaPath env) SCHEMA_FILE).
Proof. right. left. reflexivity. Qed.

Lemma afterSync_meta : afterSync env (Child (StoreManager.getCacheSchemaPath env) "meta.json").
Proof. right. right. reflexivity. Qed.

(** After [StoreManager.syncProfiles], the run up to the validator writes
    nothing but the ignore file and the schema cache, and announces no
    failed validation. *)
Lemma quiet_stageAfterSync (identifier scope : string) :
  quiet (afterSync env) (stageAfterSync env identifier scope).
Proof.
  unfold stageAfterSync.
  apply quiet_bind; [ apply quiet_tame, tame_loadIndex | intros globalIndex ].
  apply quiet_bind.
  { apply quiet_tame. destruct (String.eqb scope "project"); [ | apply tame_ret ].
    apply tame_bind; [ apply tame_resolveProjectRoot | intros root ].
    apply tame_bind; [ apply tame_projectEnsureDirectories, afterSync_gitignore | intros ? ].
    apply tame_ret. }
  intros projectRoot.
  apply quiet_bind.
  { apply quiet_tame. destruct projectRoot as [root | ]; [ | apply tame_ret ].
    apply tame_bind; [ apply tame_listProfiles | intros projectProfiles ].
    destruct (List.find _ projectProfiles) as [[ | c0 rest0] | ]; try apply tame_ret.
    apply tame_bind; [ apply tame_readConfigRaw | intros ? ]. apply tame_ret. }
  intros inProject.
  apply quiet_bind.
  { apply quiet_tame. destruct (fst (fst inProject)); [ apply tame_ret | ].
    destruct (snd inProject); [ | apply tame_ret ].
    apply tame_bind; [ apply tame_readConfigRaw | intros ? ]. apply tame_ret. }
  intros chosen.
  destruct (snd inProject) as [profile | ];
    [ | apply quiet_failAndExit; cbn; discriminate ].
  apply quiet_bind; [ apply quiet_tame, tame_emit; discriminate | intros ? ].
  destruct (fst chosen) as [[configPath content] | ].
  2:{ apply quiet_bind; [ apply quiet_tame, tame_emit; discriminate | intros ? ].
      apply quiet_bind; [ apply quiet_tame, tame_emit; discriminate | intros ? ].
      apply quiet_bind; [ apply quiet_tame, tame_emit; discriminate | intros ? ].
      apply quiet_exit. }
  apply quiet_bind; [ apply quiet_tame, tame_emit; discriminate | intros ? ].
  destruct (JSON5_parse env content) as [config | ].
  2:{ apply quiet_bind; [ apply quiet_tame, tame_emit; discriminate | intros ? ].
      apply quiet_bind; [ apply quiet_tame, tame_emit; discriminate | intros ? ].
      apply quiet_exit. }
  apply quiet_bind; [ apply quiet_tame, tame_emit; discriminate | intros ? ].
  apply quiet_bind;
    [ apply quiet_tame, tame_ensureSchemaAvailable; [ apply afterSync_schema | apply afterSync_meta ]
    | intros schemaPath ].
  apply quiet_bind; [ apply quiet_tame, tame_emit; discriminate | intros ? ].
  apply quiet_bind; [ apply quiet_tame, tame_newValidator | intros validator ].
  apply quiet_tame, tame_ret.
Qed.

(** What [StoreManager.syncProfiles] leaves behind when it returns: the tree as it was,
    or the index file rewritten with the same active profile. *)
Lemma syncProfiles_Returned (w w1 : World) (r : list string * list string) :
  StoreManager.syncProfiles env w = (Returned r, w1) ->
  nodes w1 = nodes w
  \/ exists index',
       Types.activeProfileId index' = Types.activeProfileId (indexOf env w)
       /\ nodes w1
          = <[StoreManager.getIndexPath env := File (stringifyPretty (encodeIndex index')) (nowMs env)]>
              (nodes w).
Proof.
  unfold StoreManager.syncProfiles. rewrite (bind_run _ _ _ _ _ (loadIndex_run env w)).
  intros H. apply bind_Returned in H as (found & w0 & Hfound & H).
  injection Hfound as _ <-.
  destruct (negb found); [ injection H as _ <-; left; reflexivity | ].
  apply bind_Returned in H as (files & w2 & Hfiles & H).
  assert (w2 = w) as ->.
  { unfold readdirSync in Hfiles. destruct (denied env OpReaddir _); [ discriminate | ].
    destruct (lookupNode w _) as [[ | ] | ]; try discriminate.
    injection Hfiles as _ <-. reflexivity. }
  destruct (List.filter _ _) as [ | i rest ]; [ injection H as _ <-; left; reflexivity | ].
  apply bind_Returned in H as ([] & w3 & Hsave & H). injection H as _ <-.
  right. eexists. split; [ | apply writeFileSync_Returned in Hsave; subst w3; reflexivity ].
  reflexivity.
Qed.

(** The index file is none of the files written after [StoreManager.syncProfiles]. *)
Lemma index_not_afterSync : ~ afterSync env (StoreManager.getIndexPath env).
Proof.
  unfold StoreManager.getIndexPath, afterSync, ProjectStoreManager.getGitignorePath.
  intros [[root H] | [H | H]]; cbn in H; discriminate.
Qed.

Lemma quiet_mono {A} (allowed1 allowed2 : Path -> Prop) (m : Eff A) :
  (forall p, allowed1 p -> allowed2 p) ->
  quiet allowed1 m -> quiet allowed2 m.
Proof.
  intros Hsub Hm w r w' H. destruct (Hm _ _ _ H) as [Hfiles Hprinted].
  split; [ | exact Hprinted ]. intros p Hp. apply Hfiles. intros Ha. apply Hp, Hsub, Ha.
Qed.

(** Up to the validator, a run of [handleOmoApply] writes nothing but the
    preparatory files, and announces no failed validation. *)
Lemma quiet_stageProfile (identifier scope : string) :
  quiet (preparatory env) (stageProfile env identifier scope).
Proof.
  unfold stageProfile.
  apply quiet_bind.
  { destruct (negb (String.eqb scope "user") && negb (String.eqb scope "project")).
    - apply quiet_failAndExit. cbn. discriminate.
    - apply quiet_tame, tame_ret. }
  intros ?. apply quiet_bind.
  - apply quiet_tame, tame_syncProfiles. left. reflexivity.
  - intros ?. apply (quiet_mono (afterSync env)); [ intros p Hp; right; exact Hp | ].
    apply quiet_stageAfterSync.
Qed.

Lemma tame_sameFiles {A} (allowed : Path -> Prop) (m : Eff A) (w w' : World)
    (r : Outcome A) :
  tame allowed m -> m w = (r, w') -> sameFiles allowed w w'.
Proof. intros Hm H. destruct (Hm _ _ _ H) as [_ [Hfiles _]]. exact Hfiles. Qed.

(** [getProfileConfigRaw] of either store, when it gives a file: the file
    is the raw file of the profile, and the text is what the file holds. *)
Lemma readConfigRaw_Returned (configsPath : Path) (id : string) (w w' : World)
    (p : Path) (content : string) :
  readConfigRaw env configsPath id w = (Returned (Some (p, content)), w') ->
  w' = w
  /\ configFileOf configsPath id p
  /\ exists mtime, fileAt w p = Some (content, mtime).
Proof.
  unfold readConfigRaw, resolveConfigPath. intros H.
  apply bind_Returned in H as (resolved & w1 & Hresolved & H).
  assert (Hr : w1 = w /\ forall q, resolved = Some q -> configFileOf configsPath id q).
  { apply bind_Returned in Hresolved as (hasJsonc & w2 & [= _ <-] & Hresolved).
    destruct hasJsonc.
    - injection Hresolved as <- <-. split; [ reflexivity | ]. intros q [= <-]. left. reflexivity.
    - apply bind_Returned in Hresolved as (hasJson & w3 & [= _ <-] & Hresolved).
      injection Hresolved as <- <-. split; [ reflexivity | ].
      destruct hasJson; intros q [= <-]. right. reflexivity. }
  destruct Hr as [-> Hfile]. destruct resolved as [q | ]; [ | discriminate ].
  apply bind_Returned in H as (text & w2 & Hread & H). injection H as <- <- <-.
  unfold readFileSync in Hread. destruct (denied env OpRead q); [ discriminate | ].
  specialize (Hfile q eq_refl).
  assert (Hq : lookupNode w q = nodes w !! q) by (destruct Hfile as [-> | ->]; reflexivity).
  rewrite Hq in Hread. unfold fileAt.
  destruct (nodes w !! q) as [[text' mtime | ] | ]; try discriminate.
  injection Hread as <- <-. split; [ reflexivity | split; [ exact Hfile | ] ].
  exists mtime. reflexivity.
Qed.

(** No raw file of a profile, of either store, is among the preparatory
    files. *)
Lemma configFile_not_preparatory (id : string) (p : Path) :
  (configFileOf (StoreManager.getConfigsPath env) id p
   \/ exists root, configFileOf (getProjectConfigsPath root) id p) ->
  ~ preparatory env p.
Proof.
  unfold configFileOf, preparatory, afterSync.
  intros [[-> | ->] | [root [-> | ->]]] [H | [[root' H] | [H | H]]];
    cbn in H; discriminate.
Qed.

(** What a run has staged when it reaches the validator: the scope is one
    of the two, the project root is there for the project scope only, the
    profile is one the identifier names, and the configuration is what
    [JSON5.parse] read from the content. *)
Lemma stageAfterSync_Returned (identifier scope : string) (w w1 : World) (staged : Staged) :
  stageAfterSync env identifier scope w = (Returned staged, w1) ->
  JSON5_parse env (stagedContent staged) = Some (stagedConfig staged)
  /\ match stagedRoot staged with
     | Some _ => scope = "project"
     | None => scope <> "project"
     end
  /\ (matchesProfile identifier (stagedProfile staged) = true
      \/ matchesId identifier (Types.id (stagedProfile staged)) = true)
  /\ exists configPath mtime,
       fileAt w configPath = Some (stagedContent staged, mtime)
       /\ stagedFrom env identifier staged configPath.
Proof.
  unfold stageAfterSync. intros H.
  apply bind_Returned in H as (globalIndex & w2 & Hload & H).
  rewrite loadIndex_run in Hload. injection Hload as <- <-.
  apply bind_Returned in H as (projectRoot & w3 & Hroot & H).
  assert (Hframe3 : sameFiles (afterSync env) w w3).
  { refine (tame_sameFiles _ _ _ _ _ _ Hroot).
    destruct (String.eqb scope "project"); [ | apply tame_ret ].
    apply tame_bind; [ apply tame_resolveProjectRoot | intros root ].
    apply tame_bind; [ apply tame_projectEnsureDirectories, afterSync_gitignore | intros ? ].
    apply tame_ret. }
  assert (Hproject : match projectRoot with
                     | Some _ => scope = "project"
                     | None => scope <> "project"
                     end).
  { destruct (String.eqb scope "project") eqn:Ep.
    - apply bind_Returned in Hroot as (root & ? & _ & Hroot).
      apply bind_Returned in Hroot as (? & ? & _ & Hroot).
      injection Hroot as <- _. apply String.eqb_eq, Ep.
    - injection Hroot as <- _. apply String.eqb_neq, Ep. }
  clear Hroot.
  set (globalProfile := List.find (matchesProfile identifier)
                                  (Types.profiles (indexOf env w))) in *.
  apply bind_Returned in H as (inProject & w4 & HinProject & H).
  assert (Hglobal : forall p, globalProfile = Some p -> matchesProfile identifier p = true).
  { intros p Hp. apply find_some in Hp. tauto. }
  assert (Hin : sameFiles (afterSync env) w w4
                /\ (forall p, snd inProject = Some p ->
                               matchesProfile identifier p = true
                               \/ matchesId identifier (Types.id p) = true)
                /\ (forall q content, fst (fst inProject) = Some (q, content) ->
                      snd (fst inProject) = "project"
                      /\ exists root id mtime,
                           projectRoot = Some root
                           /\ matchesId identifier id = true
                           /\ configFileOf (getProjectConfigsPath root) id q
                           /\ fileAt w q = Some (content, mtime)
                           /\ (globalProfile = snd inProject
                               \/ (globalProfile = None
                                   /\ exists p, snd inProject = Some p
                                                /\ Types.id p = id /\ Types.name p = id)))).
  { destruct projectRoot as [root | ].
    - apply bind_Returned in HinProject as (projectProfiles & wa & Hlist & HinProject).
      pose proof (tame_sameFiles (afterSync env) _ _ _ _ (tame_listProfiles env _ root) Hlist)
        as Hframea.
      pose proof (sameFiles_trans _ _ _ _ Hframe3 Hframea) as Hframe.
      destruct (List.find (matchesId identifier) projectProfiles) as [found | ] eqn:Ef.
      + apply find_some in Ef as [_ Ef]. destruct found as [ | c0 rest0 ].
        * injection HinProject as <- <-. cbn [fst snd].
          split; [ exact Hframe | ].
          split; [ intros p Hp; left; apply Hglobal, Hp | discriminate ].
        * apply bind_Returned in HinProject as (configRaw & wb & Hread & HinProject).
          injection HinProject as <- <-. cbn [fst snd].
          pose proof (tame_sameFiles (afterSync env) _ _ _ _
                        (tame_readConfigRaw env _ _ _) Hread) as Hframeb.
          split; [ exact (sameFiles_trans _ _ _ _ Hframe Hframeb) | ].
          split.
          { intros p. destruct globalProfile eqn:Eg; intros [= <-];
              [ left; apply Hglobal; reflexivity | right; exact Ef ]. }
          intros q content ->.
          apply readConfigRaw_Returned in Hread as (-> & Hfile & mtime & Hcontent).
          split; [ reflexivity | ].
          exists root, (String c0 rest0), mtime.
          split; [ reflexivity | split; [ exact Ef | split; [ exact Hfile | ] ] ].
          split.
          { rewrite <- Hcontent. symmetry. apply Hframe.
            intros Ha. apply (configFile_not_preparatory (String c0 rest0) q).
            - right. exists root. exact Hfile.
            - right. exact Ha. }
          destruct globalProfile; [ left; reflexivity | right ].
          split; [ reflexivity | eexists; split; [ reflexivity | split; reflexivity ] ].
      + injection HinProject as <- <-. cbn [fst snd].
        split; [ exact Hframe | ].
        split; [ intros p Hp; left; apply Hglobal, Hp | discriminate ].
    - injection HinProject as <- <-. cbn [fst snd].
      split; [ exact Hframe3 | ].
      split; [ intros p Hp; left; apply Hglobal, Hp | discriminate ]. }
  clear HinProject. destruct Hin as (Hframe4 & Hnamed & Hread).
  destruct inProject as [[raw source] chosenProfile]. cbn [fst snd] in *.
  apply bind_Returned in H as (chosen & w5 & Hchosen & H).
  destruct chosenProfile as [profile | ];
    [ | apply bind_Returned in H as (? & ? & _ & H); discriminate ].
  assert (Hfrom : forall q content config validator,
             fst chosen = Some (q, content) ->
             exists mtime,
               fileAt w q = Some (content, mtime)
               /\ stagedFrom env identifier
                    {| stagedRoot := projectRoot;
                       stagedIndex := indexOf env w;
                       stagedProfile := profile;
                       stagedContent := content;
                       stagedSource := snd chosen;
                       stagedConfig := config;
                       stagedValidator := validator |} q).
  { destruct raw as [[q0 content0] | ].
    - injection Hchosen as <- _. cbn [fst snd]. intros q content config validator [= <- <-].
      destruct (Hread q0 content0 eq_refl)
        as (-> & root & id & mtime & -> & Hid & Hfile & Hcontent & Hprofile).
      exists mtime. split; [ exact Hcontent | ]. left.
      cbn [stagedSource stagedRoot stagedIndex stagedProfile].
      split; [ reflexivity | ]. exists root, id.
      split; [ reflexivity | split; [ exact Hid | split; [ exact Hfile | ] ] ].
      fold globalProfile.
      destruct Hprofile as [-> | (-> & p & [= <-] & Hp)]; [ left; reflexivity | right ].
      split; [ reflexivity | exact Hp ].
    - apply bind_Returned in Hchosen as (configRaw & wc & Hglobalread & Hchosen).
      injection Hchosen as <- _. cbn [fst snd]. intros q content config validator ->.
      apply readConfigRaw_Returned in Hglobalread as (-> & Hfile & mtime & Hcontent).
      exists mtime. split.
      + rewrite <- Hcontent. symmetry. apply Hframe4.
        intros Ha. apply (configFile_not_preparatory (Types.id profile) q).
        * left. exact Hfile.
        * right. exact Ha.
      + right. cbn [stagedSource stagedProfile]. split; [ reflexivity | exact Hfile ]. }
  clear Hchosen Hread.
  apply bind_Returned in H as ([] & w6 & _ & H).
  destruct (fst chosen) as [[configPath content] | ];
    [ | repeat (apply bind_Returned in H as (? & ? & _ & H)); discriminate ].
  apply bind_Returned in H as ([] & w7 & _ & H).
  destruct (JSON5_parse env content) as [config | ] eqn:Eparse;
    [ | repeat (apply bind_Returned in H as (? & ? & _ & H)); discriminate ].
  apply bind_Returned in H as ([] & w8 & _ & H).
  apply bind_Returned in H as (schemaPath & w9 & _ & H).
  apply bind_Returned in H as ([] & w10 & _ & H).
  apply bind_Returned in H as (validator & w11 & _ & H).
  injection H as <- _. cbn [stagedContent stagedConfig stagedRoot stagedProfile].
  split; [ exact Eparse | split; [ exact Hproject | split; [ apply Hnamed; reflexivity | ] ] ].
  destruct (Hfrom configPath content config validator eq_refl) as (mtime & Hcontent & Hsource).
  exists configPath, mtime. split; [ exact Hcontent | exact Hsource ].
Qed.

(** A run that reaches the validator has passed the check of the scope
    and [StoreManager.syncProfiles]. *)
Lemma stageProfile_Returned (identifier scope : string) (w w1 : World) (staged : Staged) :
  stageProfile env identifier scope w = (Returned staged, w1) ->
  (scope = "user" \/ scope = "project")
  /\ exists synced w0,
       StoreManager.syncProfiles env w = (Returned synced, w0)
       /\ stageAfterSync env identifier scope w0 = (Returned staged, w1).
Proof.
  unfold stageProfile. intros H.
  apply bind_Returned in H as ([] & w0 & Hscope & H).
  assert (Hs : (scope = "user" \/ scope = "project") /\ w0 = w).
  { destruct (String.eqb scope "user") eqn:Eu.
    - cbn in Hscope. injection Hscope as <-. split; [ left; apply String.eqb_eq, Eu | reflexivity ].
    - destruct (String.eqb scope "project") eqn:Ep.
      + cbn in Hscope. injection Hscope as <-.
        split; [ right; apply String.eqb_eq, Ep | reflexivity ].
      + cbn in Hscope. discriminate. }
  destruct Hs as [Hs ->]. split; [ exact Hs | ].
  apply bind_Returned in H as (synced & w2 & Hsync & H).
  exists synced, w2. split; assumption.
Qed.

(** What a run has staged when it reaches the validator, said of the tree
    the run began with. *)
Lemma stageProfile_staged (identifier scope : string) (w w1 : World) (staged : Staged) :
  stageProfile env identifier scope w = (Returned staged, w1) ->
  (scope = "user" \/ scope = "project")
  /\ JSON5_parse env (stagedContent staged) = Some (stagedConfig staged)
  /\ match stagedRoot staged with
     | Some _ => scope = "project"
     | None => scope <> "project"
     end
  /\ (matchesProfile identifier (stagedProfile staged) = true
      \/ matchesId identifier (Types.id (stagedProfile staged)) = true)
  /\ exists configPath mtime,
       fileAt w configPath = Some (stagedContent staged, mtime)
       /\ stagedFrom env identifier staged configPath.
Proof.
  intros H. destruct (stageProfile_Returned _ _ _ _ _ H) as (Hscope & synced & w0 & Hsync & Hstage).
  destruct (stageAfterSync_Returned _ _ _ _ _ Hstage)
    as (Hparse & Hroot & Hnamed & configPath & mtime & Hcontent & Hfrom).
  split; [ exact Hscope | split; [ exact Hparse | split; [ exact Hroot | ] ] ].
  split; [ exact Hnamed | ].
  exists configPath, mtime. split; [ | exact Hfrom ].
  rewrite <- Hcontent. symmetry.
  refine (tame_sameFiles (fun p => p = StoreManager.getIndexPath env) _ _ _ _
            (tame_syncProfiles env _ eq_refl) Hsync configPath _).
  intros Hp.
  assert (Hprep : preparatory env configPath) by (left; exact Hp).
  revert Hprep. unfold stagedFrom in Hfrom.
  destruct Hfrom as [(_ & root & id & _ & _ & Hfile & _) | (_ & Hfile)].
  - apply (configFile_not_preparatory id). right. exists root. exact Hfile.
  - apply (configFile_not_preparatory (Types.id (stagedProfile staged))). left. exact Hfile.
Qed.

(** When the run reaches the validator the index file is as it was, or
    [StoreManager.syncProfiles] rewrote it with the same active profile. *)
Lemma stageProfile_index (identifier scope : string) (w w1 : World) (staged : Staged) :
  stageProfile env identifier scope w = (Returned staged, w1) ->
  fileAt w1 (StoreManager.getIndexPath env) = fileAt w (StoreManager.getIndexPath env)
  \/ exists index',
       Types.activeProfileId index' = Types.activeProfileId (indexOf env w)
       /\ fileAt w1 (StoreManager.getIndexPath env)
          = Some (stringifyPretty (encodeIndex index'), nowMs env).
Proof.
  intros H. destruct (stageProfile_Returned _ _ _ _ _ H) as (_ & synced & w0 & Hsync & Hstage).
  destruct (quiet_stageAfterSync identifier scope _ _ _ Hstage) as [Hfiles _].
  rewrite (Hfiles _ index_not_afterSync).
  destruct (syncProfiles_Returned _ _ _ Hsync) as [Hsame | (index' & Hactive & Hnodes)].
  - left. unfold fileAt. rewrite Hsame. reflexivity.
  - right. exists index'. split; [ exact Hactive | ].
    unfold fileAt. rewrite Hnodes, lookup_insert_eq. reflexivity.
Qed.

End ApplyFacts.

(** C6, as stated, fails: applying the profile [bad], whose content the
    validator rejects, on a machine whose index does not list [bad.json]
    yet, ends with the validation report and has created the index file:
    [StoreManager.syncProfiles] runs before the validation. *)
Lemma apply_invalid_writes_index :
  ~ (forall (env : Env) (identifier scope : string) (w w' : World) (c : Z),
        handleOmoApply env identifier scope w = (Exited c, w') ->
        In validationFailed (output w') ->
        fileAt w' (StoreManager.getIndexPath env) = fileAt w (StoreManager.getIndexPath env)).
Proof.
  intros Hclaim.
  destruct (handleOmoApply Host.sampleEnv "bad" "user" Host.orphanWorld) as [r w'] eqn:Hrun.
  assert (Hfacts : r = Exited 1
                   /\ In validationFailed (output w')
                   /\ fileAt w' (StoreManager.getIndexPath Host.sampleEnv) <> None).
  { pose proof (f_equal fst Hrun) as Hr. pose proof (f_equal snd Hrun) as Hw.
    cbn [fst snd] in Hr, Hw. subst r w'. vm_compute.
    split; [ reflexivity | split; [ tauto | discriminate ] ]. }
  destruct Hfacts as (-> & Hprinted & Hindex).
  apply Hindex. rewrite (Hclaim _ _ _ _ _ _ Hrun Hprinted). reflexivity.
Qed.

(** C6, amended. Take a run of [handleOmoApply] that has chosen a profile,
    read and parsed its content and built the validator, and let the
    validator reject that content with [errors].  Then the run ends the
    process with code 1, and the last it prints is the report of [errors];
    it has announced no failed validation before.  Nothing is written after
    the validator was built, so nothing is applied: the target file, the
    project rc file and the files of both backups directories are as they
    were when the run began; the only files the run may have written are the
    preparatory ones (the global index, a project's ignore file, the schema
    cache); and the index file is as it was or was rewritten by
    [StoreManager.syncProfiles] with the same active profile. *)
Theorem apply_invalid_applies_nothing (env : Env) (identifier scope : string)
    (w w1 : World) (staged : Staged) (errors : list string) :
  stageProfile env identifier scope w = (Returned staged, w1) ->
  validate (stagedValidator staged) (stagedConfig staged) = (false, errors) ->
  JSON5_parse env (stagedContent staged) = Some (stagedConfig staged)
  /\ exists w' before,
       handleOmoApply env identifier scope w = (Exited 1, w')
       /\ output w' = output w ++ before ++ validationReport env errors
       /\ ~ In validationFailed before
       /\ nodes w' = nodes w1
       /\ (forall p, ~ preparatory env p -> fileAt w' p = fileAt w p)
       /\ (forall dir, fileAt w' (Child dir TARGET_CONFIG_FILE)
                       = fileAt w (Child dir TARGET_CONFIG_FILE))
       /\ (forall root, fileAt w' (getProjectRcPath root) = fileAt w (getProjectRcPath root))
       /\ (forall file, fileAt w' (Child (StoreManager.getBackupsPath env) file)
                        = fileAt w (Child (StoreManager.getBackupsPath env) file))
       /\ (forall root file, fileAt w' (Child (ProjectStoreManager.getBackupsPath root) file)
                             = fileAt w (Child (ProjectStoreManager.getBackupsPath root) file))
       /\ (fileAt w' (StoreManager.getIndexPath env) = fileAt w (StoreManager.getIndexPath env)
           \/ exists index',
                Types.activeProfileId index' = Types.activeProfileId (indexOf env w)
                /\ fileAt w' (StoreManager.getIndexPath env)
                   = Some (stringifyPretty (encodeIndex index'), nowMs env)).
Proof.
  intros Hstage Hinvalid.
  destruct (stageProfile_Returned env _ _ _ _ _ Hstage) as (_ & synced & w0 & _ & Hafter).
  destruct (stageAfterSync_Returned env _ _ _ _ _ Hafter) as (Hparse & _).
  split; [ exact Hparse | ].
  destruct (quiet_stageProfile env identifier scope _ _ _ Hstage)
    as [Hfiles (before & Hout & Hquiet)].
  exists (mkWorld (nodes w1) (output w1 ++ validationReport env errors)), before.
  assert (Hsame : forall p, ~ preparatory env p ->
                            fileAt (mkWorld (nodes w1) (output w1 ++ validationReport env errors)) p
                            = fileAt w p).
  { intros p Hp. rewrite <- (Hfiles p Hp). reflexivity. }
  split; [ | split; [ | split; [ exact Hquiet | split; [ reflexivity | ] ] ] ].
  - unfold handleOmoApply. rewrite (bind_run _ _ _ _ _ Hstage), Hinvalid. cbn [fst snd negb].
    apply reportInvalid_run.
  - cbn [output]. rewrite Hout, <- app_assoc. reflexivity.
  - split; [ exact Hsame | ].
    split; [ | split; [ | split; [ | split ] ] ].
    + intros dir. apply Hsame.
      intros [H | [[root H] | [H | H]]]; cbn in H; discriminate.
    + intros root. apply Hsame.
      intros [H | [[root' H] | [H | H]]]; cbn in H; discriminate.
    + intros file. apply Hsame.
      intros [H | [[root' H] | [H | H]]]; cbn in H; discriminate.
    + intros root file. apply Hsame.
      intros [H | [[root' H] | [H | H]]]; cbn in H; discriminate.
    + exact (stageProfile_index env identifier scope w w1 staged Hstage).
Qed.

Lemma apply_invalid_applies_nothing_witness :
  exists w' before,
    handleOmoApply Host.sampleEnv "bad" "user" Host.orphanWorld = (Exited 1, w')
    /\ output w' = before ++ validationReport Host.sampleEnv ["/agents: must be object"]
    /\ fileAt w' (Fs.join Host.home [".config"; "opencode"; "oh-my-opencode.jsonc"])
       = Some ("// applied", 0).
Proof.
  destruct (stageProfile Host.sampleEnv "bad" "user" Host.orphanWorld) as [r w1] eqn:Hstage.
  assert (Hr : exists staged,
             r = Returned staged
             /\ validate (stagedValidator staged) (stagedConfig staged)
                = (false, ["/agents: must be object"])).
  { apply (f_equal fst) in Hstage. cbn [fst] in Hstage. subst r. vm_compute.
    eexists. split; reflexivity. }
  destruct Hr as (staged & -> & Hinvalid).
  destruct (apply_invalid_applies_nothing Host.sampleEnv "bad" "user" Host.orphanWorld w1
              staged _ Hstage Hinvalid)
    as (_ & w' & before & Hrun & Hout & _ & _ & _ & Htarget & _).
  exists w', before.
  split; [ exact Hrun | split; [ exact Hout | ] ].
  exact (Htarget (Fs.join Host.home [".config"; "opencode"])).
Defined.
(** ** The merge engine: identities, key order, contract *)

Lemma mergedProps_empty_r (a : list (string * Value)) : mergedProps a [] = a.
Proof. unfold mergedProps. simpl. apply map_pair_id. Qed.

Lemma mergedProps_empty_l (b : list (string * Value)) :
  Obj.ordered (Obj.keys b) -> mergedProps [] b = b.
Proof.
  intros Ho. unfold mergedProps. simpl.
  etransitivity; [ exact (ObjFacts.fold_set_ordered snd b Ho) | apply map_pair_id ].
Qed.

Lemma filter_has_self (l : list string) (o : list (string * Value)) :
  (forall k, k ∈ l -> Obj.has k o = true) ->
  List.filter (fun k => negb (Obj.has k o)) l = [].
Proof.
  induction l as [ | k rest IH ]; simpl; intros Hall; [ reflexivity | ].
  rewrite (Hall k) by left. simpl. apply IH. intros k' Hk'. apply Hall. right. exact Hk'.
Qed.

Lemma deepMerge_self_in (aVal : Value) :
  forall a, aVal = obj a -> plainDocument (obj a) = true -> deepMerge (obj a) (obj a) = obj a.
Proof.
  induction aVal as [ | b0 | n0 | s0 | items0 _ | proto props _ IH | | home name ]
    using Value_deep_ind; intros a Heq Ha; try discriminate.
  injection Heq as -> ->.
  rewrite (deepMerge_obj a a Ha Ha).
  pose proof (plainDocument_NoDup a Ha) as Hna.
  f_equal. apply ObjFacts.ordered_ext.
  - apply plainDocument_ordered, deepMerge_plain; assumption.
  - apply plainDocument_ordered, Ha.
  - intros k. rewrite (get_mergedProps a a k Hna). unfold specMergedProperty.
    destruct (Obj.get k a) as [av | ] eqn:Ea; [ | reflexivity ].
    destruct (isPlainObject (Some av)) eqn:Pa; [ | reflexivity ]. cbn [andb].
    pose proof (plainDocument_lookup a k av Ha Ea) as Hav.
    destruct (plainDocument_plainObject av Hav Pa) as [ao ->].
    f_equal. rewrite Forall_forall in IH.
    apply (IH (k, obj ao) (get_elem _ _ _ Ea) ao eq_refl Hav).
  - rewrite (names_mergedProps a a Hna), filter_has_self, app_nil_r; [ reflexivity | ].
    intros k Hk. apply ObjFacts.has_elem, Hk.
Qed.

Lemma shapesAgree_repeat (aVal : Value) :
  forall b, shapesAgree aVal b b = true.
Proof.
  induction aVal as [ | b0 | n0 | s0 | items0 _ | proto props _ IH | | home name ]
    using Value_deep_ind; intros b; try reflexivity.
  cbn [shapesAgree]. apply forallb_forall. intros [k v] Hin.
  rewrite Forall_forall in IH. specialize (IH (k, v) (proj2 (list_elem_of_In _ _) Hin)).
  cbn [fst snd] in *.
  destruct v; try reflexivity.
  destruct (getProp b k) as [[ ] | ]; try reflexivity.
  apply IH.
Qed.

Lemma shapesAgree_self (aVal : Value) :
  forall a c, aVal = obj a -> plainDocument (obj a) = true ->
              shapesAgree aVal (obj a) c = true.
Proof.
  induction aVal as [ | b0 | n0 | s0 | items0 _ | proto props _ IH | | home name ]
    using Value_deep_ind; intros a c Heq Ha; try discriminate.
  injection Heq as -> ->.
  cbn [shapesAgree]. apply forallb_forall. intros [k v] Hin.
  apply list_elem_of_In in Hin.
  rewrite Forall_forall in IH. specialize (IH (k, v) Hin).
  cbn [fst snd] in *.
  destruct (plainDocument_entry a k v Ha Hin) as [Hk Hv].
  fold (obj a). rewrite (getProp_plain a k Hk), (get_entry a k v (plainDocument_NoDup a Ha) Hin).
  destruct v as [ | | | | | vp vo | | ]; try reflexivity.
  destruct (getProp c k) as [[ | | | | | cp co | | ] | ]; try reflexivity.
  pose proof (proj1 (plainDocument_object _ _) Hv) as (-> & _).
  apply (IH vo (VObject cp co) eq_refl Hv).
Qed.

(** X1. Merging with the empty document, on either side, gives the
    document back, when none of its property names is one that
    [Object.prototype] defines. *)
Theorem deepMerge_identity (doc : list (string * Value)) :
  plainDocument (obj doc) = true ->
  deepMerge (obj doc) emptyObject = obj doc /\ deepMerge emptyObject (obj doc) = obj doc.
Proof.
  intros Hd. unfold emptyObject. split.
  - rewrite (deepMerge_obj doc [] Hd eq_refl), mergedProps_empty_r. reflexivity.
  - rewrite (deepMerge_obj [] doc eq_refl Hd), mergedProps_empty_l; [ reflexivity | ].
    apply plainDocument_ordered, Hd.
Qed.

(** X2. Merging a document with itself gives the document back, when none
    of its property names is one that [Object.prototype] defines. *)
Theorem deepMerge_idempotent (doc : list (string * Value)) :
  plainDocument (obj doc) = true -> deepMerge (obj doc) (obj doc) = obj doc.
Proof. intros Hd. exact (deepMerge_self_in (obj doc) doc eq_refl Hd). Qed.

(** X3. Overrides that are already merged in are absorbed: for documents
    without names that [Object.prototype] defines, merging [override] once
    more into [deepMerge(base, override)] changes nothing, and neither does
    merging that result over [base]. *)
Theorem deepMerge_absorbs (base override : list (string * Value)) :
  plainDocument (obj base) = true -> plainDocument (obj override) = true ->
  deepMerge (deepMerge (obj base) (obj override)) (obj override)
  = deepMerge (obj base) (obj override)
  /\ deepMerge (obj base) (deepMerge (obj base) (obj override))
     = deepMerge (obj base) (obj override).
Proof.
  intros Hb Ho. split.
  - rewrite (deepMerge_assoc_in (obj base) base override override eq_refl Hb Ho Ho
               (shapesAgree_repeat _ _)).
    rewrite (deepMerge_self_in (obj override) override eq_refl Ho). reflexivity.
  - rewrite <- (deepMerge_assoc_in (obj base) base base override eq_refl Hb Hb Ho
                  (shapesAgree_self _ base (obj override) eq_refl Hb)).
    rewrite (deepMerge_self_in (obj base) base eq_refl Hb). reflexivity.
Qed.

(** X4. The merge of two documents without names that [Object.prototype]
    defines is such a document again.  Its keys are those of [base] and of
    [override], none twice; [Object.keys] lists the array indices first,
    ascending, and then the other names: those of [base] in their order,
    followed by those only [override] has, in the order of [override]. *)
Theorem deepMerge_key_order (base override : list (string * Value)) :
  plainDocument (obj base) = true -> plainDocument (obj override) = true ->
  let merged := deepMerge (obj base) (obj override) in
  plainDocument merged = true
  /\ Obj.ordered (Obj.keys (ownEntries merged))
  /\ (forall k, k ∈ Obj.keys (ownEntries merged)
                <-> k ∈ Obj.keys base \/ k ∈ Obj.keys override)
  /\ Obj.names (Obj.keys (ownEntries merged))
     = Obj.names (Obj.keys base)
       ++ List.filter (fun k => negb (Obj.has k base)) (Obj.names (Obj.keys override)).
Proof.
  intros Hb Ho. cbn zeta. rewrite (deepMerge_obj base override Hb Ho). cbn [ownEntries obj].
  pose proof (plainDocument_NoDup override Ho) as Hno.
  split; [ exact (deepMerge_plain base override Hb Ho) | split; [ | split ] ].
  - apply ordered_mergedProps, plainDocument_ordered, Hb.
  - intros k. rewrite <- !ObjFacts.has_elem, (has_mergedProps base override k Hno).
    apply orb_true_iff.
  - rewrite (names_mergedProps base override Hno), names_filter. reflexivity.
Qed.

Lemma deepMerge_identity_witness :
  deepMerge Samples.baseDoc emptyObject = Samples.baseDoc
  /\ deepMerge emptyObject Samples.baseDoc = Samples.baseDoc.
Proof.
  apply (deepMerge_identity (ownEntries Samples.baseDoc)). reflexivity.
Defined.

Lemma deepMerge_key_order_witness :
  Obj.keys (ownEntries (deepMerge Samples.indexedBase Samples.indexedOverride))
  = ["1"; "2"; "10"; "b"; "a"]
  /\ Obj.names (Obj.keys (ownEntries (deepMerge Samples.indexedBase Samples.indexedOverride)))
     = ["b"; "a"].
Proof.
  split; [ reflexivity | ].
  apply (deepMerge_key_order (ownEntries Samples.indexedBase)
           (ownEntries Samples.indexedOverride)); reflexivity.
Defined.

(** A loop of writes, whatever the names: what the result itself holds
    under a name other than [__proto__]. *)
Lemma get_fold_setProp_when (p : string -> bool) (f : string * Value -> Value)
    (l : list (string * Value)) (proto : Value) (props : list (string * Value)) (k : string) :
  k <> "__proto__" -> NoDup (Obj.keys l) ->
  exists proto' props',
    fold_left (fun result kv => if p (fst kv) then setProp (fst kv) (f kv) result else result)
              l (VObject proto props)
    = VObject proto' props'
    /\ Obj.get k props'
       = if p k
         then match Obj.get k l with
              | Some v => Some (f (k, v))
              | None => Obj.get k props
              end
         else Obj.get k props.
Proof.
  intros Hk. revert proto props.
  induction l as [ | [k0 x] rest IH ]; cbn [fold_left Obj.get fst]; intros proto props Hnd.
  - exists proto, props. split; [ reflexivity | ]. destruct (p k); reflexivity.
  - apply NoDup_cons in Hnd as [Hk0 Hnd].
    destruct (String.eqb k0 k) eqn:E.
    + apply String.eqb_eq in E. subst k0.
      destruct (p k) eqn:Ep.
      * destruct (setProp_is_object k (f (k, x)) proto props) as (p1 & props1 & -> & _ & Hkey).
        destruct (Hkey Hk) as [_ ->].
        destruct (IH p1 (Obj.set k (f (k, x)) props) Hnd) as (p' & props' & -> & Hget).
        exists p', props'. split; [ reflexivity | ].
        rewrite Hget, (proj2 (ObjFacts.get_None k rest) Hk0), ObjFacts.get_set,
          String.eqb_refl.
        reflexivity.
      * destruct (IH proto props Hnd) as (p' & props' & -> & Hget).
        exists p', props'. split; [ reflexivity | ]. rewrite Hget. reflexivity.
    + apply String.eqb_neq in E.
      destruct (p k0).
      * destruct (setProp_is_object k0 (f (k0, x)) proto props) as (p1 & props1 & -> & Hother & _).
        destruct (IH p1 props1 Hnd) as (p' & props' & -> & Hget).
        exists p', props'. split; [ reflexivity | ].
        rewrite Hget, (Hother k) by congruence. reflexivity.
      * apply IH, Hnd.
Qed.

(** What the merge itself holds under a name other than [__proto__]. *)
Lemma deepMerge_get_own (proto : Value) (a : list (string * Value)) (override : Value)
    (k : string) :
  k <> "__proto__" -> NoDup (Obj.keys a) -> NoDup (Obj.keys (ownEntries override)) ->
  Obj.get k (ownEntries (deepMerge (VObject proto a) override))
  = match Obj.get k a with
    | Some bv => Some (mergeProp bv (getProp override k))
    | None =>
        if hasProp (VObject proto a) k then None
        else option_map deepClone (Obj.get k (ownEntries override))
    end.
Proof.
  intros Hk Hna Hno. rewrite deepMerge_unfold. unfold mergeLoops.
  match goal with
  | |- context [fold_left ?F a emptyObject] =>
      rewrite (ObjFacts.fold_left_pointwise F
                 (fun result kv =>
                    if (fun _ : string => true) (fst kv)
                    then setProp (fst kv)
                           ((fun kv => mergeProp (snd kv) (getProp override (fst kv))) kv) result
                    else result))
  end.
  2:{ intros r [k0 bv] _. cbn [fst snd]. unfold mergeProp.
      destruct (getProp override k0) as [ov | ]; [ | reflexivity ].
      destruct (isPlainObject (Some bv) && isPlainObject (Some ov)); reflexivity. }
  unfold emptyObject, obj.
  destruct (get_fold_setProp_when (fun _ => true)
              (fun kv => mergeProp (snd kv) (getProp override (fst kv)))
              a VObjectPrototype [] k Hk Hna) as (p1 & props1 & -> & Hget1).
  destruct (get_fold_setProp_when (fun key => negb (hasProp (VObject proto a) key))
              (fun kv => deepClone (snd kv))
              (ownEntries override) p1 props1 k Hk Hno) as (p2 & props2 & -> & Hget2).
  cbn [ownEntries]. rewrite Hget2, Hget1. cbn [fst snd Obj.get].
  destruct (Obj.get k a) as [bv | ] eqn:Ea.
  - rewrite (hasProp_own proto a k) by (rewrite ObjFacts.get_has, Ea; reflexivity).
    reflexivity.
  - destruct (hasProp (VObject proto a) k); cbn [negb]; [ reflexivity | ].
    destruct (Obj.get k (ownEntries override)); reflexivity.
Qed.

Lemma isDocument_NoDup (props : list (string * Value)) :
  isDocument (obj props) = true -> NoDup (Obj.keys props).
Proof. intros H. apply isDocument_object in H as (_ & [H _] & _). exact H. Qed.

(** X23. The merge contract, key by key.  For two documents and a key
    other than [__proto__] that both have, the merged document holds the
    recursive merge when both values are plain objects, and a deep copy of
    the value of [override] otherwise.  Under a name that
    [Object.prototype] does not define, a key only [base] has holds a deep
    copy of the value of [base], a key only [override] has a deep copy of
    the value of [override], and a key neither has is absent.  A deep copy
    of a document without such names is that document. *)
Theorem deepMerge_contract (base override : list (string * Value)) (key : string) :
  isDocument (obj base) = true -> isDocument (obj override) = true ->
  key <> "__proto__" ->
  let merged := ownEntries (deepMerge (obj base) (obj override)) in
  (forall bv ov, Obj.get key base = Some bv -> Obj.get key override = Some ov ->
                 isPlainObject (Some bv) && isPlainObject (Some ov) = true ->
                 Obj.get key merged = Some (deepMerge bv ov))
  /\ (forall bv ov, Obj.get key base = Some bv -> Obj.get key override = Some ov ->
                    isPlainObject (Some bv) && isPlainObject (Some ov) = false ->
                    Obj.get key merged = Some (deepClone ov))
  /\ (isOneOf objectPrototypeNames key = false ->
      (forall bv, Obj.get key base = Some bv -> Obj.get key override = None ->
                  Obj.get key merged = Some (deepClone bv))
      /\ (forall ov, Obj.get key base = None -> Obj.get key override = Some ov ->
                     Obj.get key merged = Some (deepClone ov))
      /\ (Obj.get key base = None -> Obj.get key override = None ->
          Obj.get key merged = None))
  /\ (forall v, plainDocument v = true -> deepClone v = v).
Proof.
  intros Hb Ho Hk. cbn zeta.
  assert (Hget : Obj.get key (ownEntries (deepMerge (obj base) (obj override)))
                 = match Obj.get key base with
                   | Some bv => Some (mergeProp bv (getProp (obj override) key))
                   | None =>
                       if hasProp (obj base) key then None
                       else option_map deepClone (Obj.get key override)
                   end).
  { exact (deepMerge_get_own VObjectPrototype base (obj override) key Hk
             (isDocument_NoDup base Hb) (isDocument_NoDup override Ho)). }
  rewrite Hget. clear Hget.
  split; [ | split; [ | split; [ | exact deepClone_plain ] ] ].
  - intros bv ov Eb Eo Hplain. rewrite Eb. unfold obj. rewrite (getProp_own _ _ _ _ Eo). unfold mergeProp.
    rewrite Hplain. reflexivity.
  - intros bv ov Eb Eo Hplain. rewrite Eb. unfold obj. rewrite (getProp_own _ _ _ _ Eo). unfold mergeProp.
    rewrite Hplain. reflexivity.
  - intros Hplain.
    rewrite (getProp_plain override key Hplain), (hasProp_plain base key Hplain).
    rewrite ObjFacts.get_has.
    split; [ | split ].
    + intros bv Eb Eo. rewrite Eb, Eo. reflexivity.
    + intros ov Eb Eo. rewrite Eb, Eo. reflexivity.
    + intros Eb Eo. rewrite Eb, Eo. reflexivity.
Qed.

Lemma deepMerge_contract_witness :
  Obj.get "n" (ownEntries (deepMerge Samples.baseDoc Samples.overrideDoc))
  = Some (deepMerge (obj [("x", VNumber 1)]) (obj [("y", VNumber 2)]))
  /\ Obj.get "list" (ownEntries (deepMerge Samples.baseDoc Samples.overrideDoc))
     = Some (deepClone (VArray [VNumber 2; VNumber 3]))
  /\ Obj.get "a" (ownEntries (deepMerge Samples.baseDoc Samples.overrideDoc))
     = Some (deepClone (VNumber 1))
  /\ Obj.get "z" (ownEntries (deepMerge Samples.baseDoc Samples.overrideDoc))
     = Some (deepClone (VBool true))
  /\ Obj.get "other" (ownEntries (deepMerge Samples.baseDoc Samples.overrideDoc)) = None.
Proof.
  pose proof (fun key => deepMerge_contract (ownEntries Samples.baseDoc)
                (ownEntries Samples.overrideDoc) key eq_refl eq_refl) as H.
  split; [ | split; [ | split; [ | split ] ] ].
  - apply (proj1 (H "n" ltac:(discriminate))); reflexivity.
  - apply (proj1 (proj2 (H "list" ltac:(discriminate))) (VArray [VNumber 1])); reflexivity.
  - apply (proj1 (proj1 (proj2 (proj2 (H "a" ltac:(discriminate)))) eq_refl)); reflexivity.
  - apply (proj1 (proj2 (proj1 (proj2 (proj2 (H "z" ltac:(discriminate)))) eq_refl)));
      reflexivity.
  - apply (proj2 (proj2 (proj1 (proj2 (proj2 (H "other" ltac:(discriminate)))) eq_refl)));
      reflexivity.
Defined.

Lemma deepMerge_idempotent_witness :
  deepMerge Demo.globalDoc Demo.globalDoc = Demo.globalDoc.
Proof. apply (deepMerge_idempotent (ownEntries Demo.globalDoc)). reflexivity. Defined.

Lemma deepMerge_absorbs_witness :
  deepMerge (deepMerge Demo.globalDoc Demo.projectDoc) Demo.projectDoc
  = deepMerge Demo.globalDoc Demo.projectDoc
  /\ deepMerge Demo.globalDoc (deepMerge Demo.globalDoc Demo.projectDoc)
     = deepMerge Demo.globalDoc Demo.projectDoc.
Proof.
  apply (deepMerge_absorbs (ownEntries Demo.globalDoc) (ownEntries Demo.projectDoc));
    reflexivity.
Defined.
(** ** The diff renderer: its recursion *)

Lemma list_max_elem {X} (f : X -> nat) (l : list X) (x : X) :
  x ∈ l -> (f x <= list_max (map f l))%nat.
Proof.
  induction l as [ | y rest IH ]; intros Hin; [ inversion Hin | ].
  simpl. apply elem_of_cons in Hin as [-> | Hin]; [ lia | ].
  specialize (IH Hin). lia.
Qed.

(** A plain object found under a name nests less deep than the object the
    walk started from. *)
Lemma height_lookup (v : Value) (key : string) (x : Value) :
  lookup v key = Data x -> isPlainObject (Some x) = true -> (height x < height v)%nat.
Proof.
  induction v as [ | | | | items _ | proto props IHproto _ | | ] using Value_deep_ind;
    cbn [lookup]; try discriminate.
  - destruct (Obj.arrayIndex key).
    + destruct (nth_error items (N.to_nat n)) eqn:En.
      * intros [= ->] _. cbn [height].
        pose proof (list_max_elem height items x) as H.
        apply nth_error_In, list_elem_of_In in En. specialize (H En). lia.
      * unfold lookupObjectPrototype. destruct (String.eqb key "__proto__"); [ discriminate | ].
        destruct (isOneOf objectPrototypeMethods key); [ | discriminate ].
        intros [= <-]. discriminate.
    + destruct (String.eqb key "length"); [ intros [= <-]; discriminate | ].
      destruct (isOneOf arrayPrototypeMethods key); [ intros [= <-]; discriminate | ].
      unfold lookupObjectPrototype. destruct (String.eqb key "__proto__"); [ discriminate | ].
      destruct (isOneOf objectPrototypeMethods key); [ | discriminate ].
      intros [= <-]. discriminate.
  - destruct (Obj.get key props) as [y | ] eqn:Eg.
    + intros [= ->] _. cbn [height].
      pose proof (list_max_elem (fun kv => height (snd kv)) props (key, x)
                    (get_elem _ _ _ Eg)) as H.
      cbn [snd] in H. lia.
    + intros Hl Hp. specialize (IHproto Hl Hp). cbn [height]. lia.
  - unfold lookupObjectPrototype. destruct (String.eqb key "__proto__"); [ discriminate | ].
    destruct (isOneOf objectPrototypeMethods key); [ | discriminate ].
    intros [= <-]. discriminate.
Qed.

Lemma height_getProp (v : Value) (key : string) :
  isPlainObject (getProp v key) = true ->
  (height (default emptyObject (getProp v key)) < height v)%nat.
Proof.
  unfold getProp. destruct (lookup v key) as [x | | ] eqn:El; cbn [default].
  - apply (height_lookup v key x El).
  - destruct v; cbn [prototypeOf isPlainObject]; try discriminate.
    intros _. unfold id. cbn [height]. lia.
  - discriminate.
Qed.

(** [collectLevel] only calls [recur] on plain objects read from [global]. *)
Lemma collectLevel_ext (r1 r2 : Value -> Value -> Value -> string -> list DiffLine)
    (global merged project : Value) (pathPrefix : string) :
  (forall key, isPlainObject (getProp global key) = true ->
               forall m p x, r1 (default emptyObject (getProp global key)) m p x
                             = r2 (default emptyObject (getProp global key)) m p x) ->
  collectLevel r1 global merged project pathPrefix
  = collectLevel r2 global merged project pathPrefix.
Proof.
  intros H. unfold collectLevel. apply map_ext. intros key. cbn beta zeta.
  destruct (isPlainObject (getProp global key)) eqn:Pg; [ | reflexivity ].
  rewrite (H key Pg). reflexivity.
Qed.

Lemma collectDiffLinesTo_enough (d1 d2 : nat) :
  forall global merged project pathPrefix,
    (height global < d1)%nat -> (height global < d2)%nat ->
    collectDiffLinesTo d1 global merged project pathPrefix
    = collectDiffLinesTo d2 global merged project pathPrefix.
Proof.
  revert d2. induction d1 as [ | d1 IH ]; intros d2 global merged project pathPrefix H1 H2;
    [ lia | ].
  destruct d2 as [ | d2 ]; [ lia | ]. cbn [collectDiffLinesTo].
  apply collectLevel_ext. intros key Hp m p x.
  pose proof (height_getProp global key Hp). apply IH; lia.
Qed.

(** [collectDiffLines] is the function its source defines: the body, with
    itself for the nested calls. *)
Lemma collectDiffLines_unfold (global merged project : Value) (pathPrefix : string) :
  collectDiffLines global merged project pathPrefix
  = collectLevel collectDiffLines global merged project pathPrefix.
Proof.
  unfold collectDiffLines at 1. cbn [collectDiffLinesTo].
  apply collectLevel_ext. intros key Hp m p x.
  pose proof (height_getProp global key Hp). unfold collectDiffLines.
  apply collectDiffLinesTo_enough; lia.
Qed.

(** ** The diff renderer: which lines there are *)

Lemma insertSorted_perm (x : string) (l : list string) : Str.insertSorted x l ≡ₚ x :: l.
Proof.
  induction l as [ | y rest IH ]; simpl; [ reflexivity | ].
  destruct (String.leb x y); [ reflexivity | ].
  rewrite IH. apply Permutation_swap.
Qed.

Lemma sort_perm (l : list string) : Str.sort l ≡ₚ l.
Proof.
  induction l as [ | x rest IH ]; simpl; [ reflexivity | ].
  rewrite insertSorted_perm, IH. reflexivity.
Qed.

Lemma insertSorted_Sorted (x : string) (l : list string) :
  Sorted (fun a b => String.leb a b = true) l ->
  Sorted (fun a b => String.leb a b = true) (Str.insertSorted x l).
Proof.
  induction l as [ | y rest IH ]; simpl; intros Hs.
  - constructor; constructor.
  - destruct (String.leb x y) eqn:E.
    + constructor; [ exact Hs | constructor; exact E ].
    + apply Sorted_inv in Hs as [Hrest Hhd]. constructor; [ apply IH; exact Hrest | ].
      destruct rest as [ | z rest' ]; simpl.
      * constructor. destruct (String.leb_total x y) as [H | H]; congruence.
      * destruct (String.leb x z).
        -- constructor. destruct (String.leb_total x y) as [H | H]; congruence.
        -- constructor. inversion Hhd; assumption.
Qed.

Lemma sort_Sorted (l : list string) : Sorted (fun a b => String.leb a b = true) (Str.sort l).
Proof.
  induction l as [ | x rest IH ]; simpl; [ constructor | ].
  apply insertSorted_Sorted, IH.
Qed.

Lemma existsb_eqb_elem (x : string) (l : list string) :
  existsb (String.eqb x) l = true <-> x ∈ l.
Proof.
  induction l as [ | y rest IH ]; simpl.
  - split; [ discriminate | intros H; inversion H ].
  - rewrite orb_true_iff, IH, String.eqb_eq, elem_of_cons. tauto.
Qed.

Lemma unique_elem (seen l : list string) (x : string) :
  x ∈ Str.unique seen l <-> x ∈ l /\ x ∉ seen.
Proof.
  revert seen. induction l as [ | y rest IH ]; intros seen; simpl.
  - split; [ intros H; inversion H | intros [H _]; inversion H ].
  - destruct (existsb (String.eqb y) seen) eqn:E.
    + apply existsb_eqb_elem in E. rewrite IH, elem_of_cons.
      split; [ tauto | ]. intros [[-> | H] Hn]; [ contradiction | tauto ].
    + assert (Hy : y ∉ seen) by (intros H; apply existsb_eqb_elem in H; congruence).
      rewrite elem_of_cons, IH, !elem_of_cons.
      destruct (decide (x = y)) as [-> | Hne]; [ tauto | ]. tauto.
Qed.

Lemma unique_NoDup (seen l : list string) : NoDup (Str.unique seen l).
Proof.
  revert seen. induction l as [ | y rest IH ]; intros seen; simpl; [ constructor | ].
  destruct (existsb (String.eqb y) seen); [ apply IH | ].
  constructor; [ | apply IH ].
  rewrite unique_elem. intros [_ H]. apply H. left.
Qed.

Lemma collectLevel_keys recur (global merged project : Value) (pathPrefix : string) :
  map key (collectLevel recur global merged project pathPrefix)
  = Str.sort (Str.unique [] (Obj.keys (ownEntries global) ++ Obj.keys (ownEntries merged)
                             ++ Obj.keys (ownEntries project))).
Proof.
  unfold collectLevel. rewrite map_map.
  erewrite map_ext; [ apply map_id | ].
  intros k. cbn beta zeta.
  repeat match goal with |- context [if ?c then _ else _] => destruct c end; reflexivity.
Qed.

Lemma collectDiffLines_map_key (global merged project : Value) (pathPrefix : string) :
  map key (collectDiffLines global merged project pathPrefix)
  = Str.sort (Str.unique [] (Obj.keys (ownEntries global) ++ Obj.keys (ownEntries merged)
                             ++ Obj.keys (ownEntries project))).
Proof. apply collectLevel_keys. Qed.

Lemma collectDiffLines_keys_of (global merged project : Value) (pathPrefix : string) :
  let keys := map key (collectDiffLines global merged project pathPrefix) in
  Sorted (fun a b => String.leb a b = true) keys
  /\ NoDup keys
  /\ forall k, k ∈ keys
               <-> Obj.has k (ownEntries global) = true
                   \/ Obj.has k (ownEntries merged) = true
                   \/ Obj.has k (ownEntries project) = true.
Proof.
  cbn zeta. rewrite collectDiffLines_map_key.
  split; [ apply sort_Sorted | split ].
  - rewrite sort_perm. apply unique_NoDup.
  - intros k. rewrite sort_perm, unique_elem, !elem_of_app, !ObjFacts.has_elem.
    split; [ tauto | ]. intros H. split; [ tauto | ]. intros Hin; inversion Hin.
Qed.

(** X5. For three objects, whatever their prototypes, [collectDiffLines]
    gives one line for each key that one of the three has itself, and none
    for the keys of nested documents or for inherited names; the lines come
    in ascending order of their keys. *)
Theorem collectDiffLines_keys (globalProto mergedProto projectProto : Value)
    (global merged project : list (string * Value)) (pathPrefix : string) :
  let keys := map key (collectDiffLines (VObject globalProto global)
                         (VObject mergedProto merged) (VObject projectProto project)
                         pathPrefix) in
  Sorted (fun a b => String.leb a b = true) keys
  /\ NoDup keys
  /\ forall k, k ∈ keys
               <-> Obj.has k global = true
                   \/ Obj.has k merged = true
                   \/ Obj.has k project = true.
Proof.
  exact (collectDiffLines_keys_of (VObject globalProto global) (VObject mergedProto merged)
           (VObject projectProto project) pathPrefix).
Qed.

Lemma isPlainObject_hasProp (object : Value) (k : string) :
  isPlainObject (getProp object k) = true -> hasProp object k = true.
Proof.
  unfold getProp, hasProp. destruct (lookup object k); [ reflexivity | reflexivity | discriminate ].
Qed.

(** What [collectDiffLines] says of one line. *)
Lemma collectDiffLines_line (global merged project : Value)
    (pathPrefix : string) (line : DiffLine) :
  In line (collectDiffLines global merged project pathPrefix) ->
  path line = joinPath pathPrefix (key line)
  /\ mergedValue line = getProp merged (key line)
  /\ type line <> removed
  /\ (type line = added
      <-> hasProp project (key line) = true /\ hasProp global (key line) = false)
  /\ (hasProp project (key line) = false -> type line = unchanged).
Proof.
  rewrite collectDiffLines_unfold. unfold collectLevel.
  intros Hin. apply in_map_iff in Hin as (k & <- & _).
  destruct (isPlainObject (getProp global k) && isPlainObject (getProp merged k)) eqn:Eplain.
  - apply andb_true_iff in Eplain as [Hg _]. apply isPlainObject_hasProp in Hg.
    destruct (Nat.ltb 0 _); cbn [type key path mergedValue];
      (split; [ reflexivity | split; [ reflexivity | ] ]).
    + destruct (hasProp project k) eqn:Ep.
      * split; [ discriminate | split; [ | discriminate ] ].
        split; [ discriminate | intros [_ H]; congruence ].
      * split; [ discriminate | split; [ | reflexivity ] ].
        split; [ discriminate | intros [H _]; discriminate ].
    + split; [ discriminate | split; [ | reflexivity ] ].
      split; [ discriminate | intros [_ H]; congruence ].
  - destruct (hasProp project k) eqn:Ep, (hasProp global k) eqn:Eg; cbn [andb negb].
    + destruct (negb _); cbn [type key path mergedValue]; rewrite ?Ep, ?Eg;
        (split; [ reflexivity | split; [ reflexivity | ] ]);
        (split; [ discriminate | split; [ | discriminate ] ]);
        (split; [ discriminate | intros [_ H]; discriminate ]).
    + cbn [type key path mergedValue]. rewrite Ep, Eg.
      split; [ reflexivity | split; [ reflexivity | ] ].
      split; [ discriminate | split; [ tauto | discriminate ] ].
    + cbn [type key path mergedValue]. rewrite Ep, Eg.
      split; [ reflexivity | split; [ reflexivity | ] ].
      split; [ discriminate | split; [ | reflexivity ] ].
      split; [ discriminate | intros [H _]; discriminate ].
    + cbn [type key path mergedValue]. rewrite Ep, Eg.
      split; [ reflexivity | split; [ reflexivity | ] ].
      split; [ discriminate | split; [ | reflexivity ] ].
      split; [ discriminate | intros [H _]; discriminate ].
Qed.

(** X6. How [collectDiffLines] classifies the keys of three objects: no
    line is [removed]; a line is [added] exactly when its key is [in] the
    project object and not [in] the global one, where [in] also sees the
    names the objects inherit; a key that is not [in] the project object is
    [unchanged]; and each line carries the path of its key and what the
    merged object reads there. *)
Theorem collectDiffLines_classification (globalProto mergedProto projectProto : Value)
    (globalProps mergedProps projectProps : list (string * Value))
    (pathPrefix : string) (line : DiffLine) :
  let global := VObject globalProto globalProps in
  let merged := VObject mergedProto mergedProps in
  let project := VObject projectProto projectProps in
  In line (collectDiffLines global merged project pathPrefix) ->
  path line = joinPath pathPrefix (key line)
  /\ mergedValue line = getProp merged (key line)
  /\ type line <> removed
  /\ (type line = added
      <-> hasProp project (key line) = true /\ hasProp global (key line) = false)
  /\ (hasProp project (key line) = false -> type line = unchanged).
Proof. cbn zeta. apply collectDiffLines_line. Qed.

Lemma collectDiffLines_length (global merged project : Value) (pathPrefix : string) :
  length (collectDiffLines global merged project pathPrefix)
  = length (Str.unique [] (Obj.keys (ownEntries global) ++ Obj.keys (ownEntries merged)
                           ++ Obj.keys (ownEntries project))).
Proof.
  rewrite <- (length_map key), collectDiffLines_map_key.
  apply Permutation_length, sort_perm.
Qed.

Lemma collectDiffLines_nonempty (v : Value) (pathPrefix : string) :
  Nat.ltb 0 (length (collectDiffLines v v v pathPrefix))
  = negb (match ownEntries v with [] => true | _ => false end).
Proof.
  rewrite collectDiffLines_length.
  destruct (ownEntries v) as [ | [k x] rest ]; reflexivity.
Qed.

Lemma getProp_key (object : Value) (k : string) :
  k ∈ Obj.keys (ownEntries object) ->
  exists v, getProp object k = Some v /\ Obj.get k (ownEntries object) = Some v
            /\ hasProp object k = true.
Proof.
  intros Hin. destruct object; try (inversion Hin; fail). cbn [ownEntries] in *.
  destruct (Obj.get k props) as [v | ] eqn:E.
  - exists v. split; [ apply getProp_own, E | split; [ reflexivity | ] ].
    apply hasProp_own. rewrite ObjFacts.get_has, E. reflexivity.
  - apply ObjFacts.get_None in E. contradiction.
Qed.

Lemma collectDiffLines_self_of (doc : Value) (pathPrefix : string) (line : DiffLine) :
  In line (collectDiffLines doc doc doc pathPrefix) ->
  (type line = modified
   <-> exists proto props,
         getProp doc (key line) = Some (VObject proto props) /\ props <> [])
  /\ (type line = modified \/ type line = unchanged).
Proof.
  intros Hin.
  assert (Hkey : key line ∈ Obj.keys (ownEntries doc)).
  { pose proof (in_map key _ _ Hin) as Hk. rewrite collectDiffLines_map_key in Hk.
    apply list_elem_of_In in Hk. rewrite sort_perm, unique_elem, !elem_of_app in Hk. tauto. }
  rewrite collectDiffLines_unfold in Hin. unfold collectLevel in Hin.
  apply in_map_iff in Hin as (k & <- & _).
  assert (Hk : k ∈ Obj.keys (ownEntries doc)).
  { repeat match goal with
           | H : context [if ?c then _ else _] |- _ => destruct c
           end; exact Hkey. }
  clear Hkey. destruct (getProp_key doc k Hk) as (v & Hget & _ & Hhas).
  rewrite Hget, Hhas. cbn [default from_option id].
  destruct (isPlainObject (Some v)) eqn:Pv; cbn [andb negb].
  - unfold id. rewrite collectDiffLines_nonempty.
    destruct v as [ | | | | | proto props | | ]; try discriminate.
    + cbn [ownEntries]. destruct props as [ | kv rest ]; cbn [negb type key]; rewrite Hget.
      * split; [ | right; reflexivity ].
        split; [ discriminate | intros (proto' & props' & Heq & Hne); congruence ].
      * split; [ | left; reflexivity ].
        split; [ intros _; eexists _, _; split; [ reflexivity | discriminate ] | reflexivity ].
    + cbn [ownEntries negb type key]. rewrite Hget. split; [ | right; reflexivity ].
      split; [ discriminate | intros (proto' & props' & Heq & _); discriminate ].
  - rewrite bool_decide_eq_true_2 by reflexivity. cbn [negb type key]. rewrite Hget.
    split; [ | right; reflexivity ].
    split; [ discriminate | intros (proto' & props' & Heq & _) ].
    injection Heq as ->. discriminate.
Qed.

(** X7. Comparing an object with itself: a line is [modified] exactly
    when the key holds a plain object that is not empty, and [unchanged]
    otherwise. *)
Theorem collectDiffLines_self (proto : Value) (props : list (string * Value))
    (pathPrefix : string) (line : DiffLine) :
  let doc := VObject proto props in
  In line (collectDiffLines doc doc doc pathPrefix) ->
  (type line = modified
   <-> exists proto' props',
         Obj.get (key line) props = Some (VObject proto' props') /\ props' <> [])
  /\ (type line = modified \/ type line = unchanged).
Proof.
  cbn zeta. intros Hin.
  destruct (collectDiffLines_self_of _ _ _ Hin) as [Hmodified Htype].
  split; [ | exact Htype ]. rewrite Hmodified.
  assert (Hkey : key line ∈ Obj.keys props).
  { pose proof (in_map key _ _ Hin) as Hk. rewrite collectDiffLines_map_key in Hk.
    apply list_elem_of_In in Hk. rewrite sort_perm, unique_elem, !elem_of_app in Hk.
    cbn [ownEntries] in Hk. tauto. }
  destruct (getProp_key (VObject proto props) (key line) Hkey) as (v & Hget & Hown & _).
  cbn [ownEntries] in Hown. rewrite Hget, Hown. reflexivity.
Qed.

(** X8. The merged view, as the show command builds it, for two documents
    without names that [Object.prototype] defines: when the merged document
    is [deepMerge(global, project)], every line has a merged value (none
    prints [undefined]); an [added] line shows the value of the project
    document; and a key the project document does not have shows the value
    of the global one. *)
Theorem collectDiffLines_of_merge (global project : list (string * Value))
    (pathPrefix : string) (line : DiffLine) :
  plainDocument (obj global) = true -> plainDocument (obj project) = true ->
  In line (collectDiffLines (obj global) (deepMerge (obj global) (obj project)) (obj project)
             pathPrefix) ->
  mergedValue line <> None
  /\ (type line = added -> mergedValue line = Obj.get (key line) project)
  /\ (Obj.has (key line) project = false ->
      mergedValue line = Obj.get (key line) global).
Proof.
  intros Hg Hp Hin.
  pose proof (plainDocument_NoDup project Hp) as Hnp.
  rewrite (deepMerge_obj global project Hg Hp) in Hin.
  assert (Hkey : Obj.has (key line) global || Obj.has (key line) project = true).
  { pose proof (in_map key _ _ Hin) as Hk. rewrite collectDiffLines_map_key in Hk.
    apply list_elem_of_In in Hk. cbn [ownEntries obj] in Hk.
    rewrite sort_perm, unique_elem, !elem_of_app, <- !ObjFacts.has_elem in Hk.
    rewrite (has_mergedProps global project _ Hnp) in Hk.
    destruct (Obj.has (key line) global), (Obj.has (key line) project);
      try reflexivity. exfalso. destruct Hk as [[H | [H | H]] _]; discriminate. }
  assert (Hname : isOneOf objectPrototypeNames (key line) = false).
  { apply orb_true_iff in Hkey as [H | H].
    - exact (plainDocument_key global _ Hg H).
    - exact (plainDocument_key project _ Hp H). }
  destruct (collectDiffLines_line _ _ _ _ _ Hin) as (_ & Hmerged & _ & Hadded & _).
  rewrite (hasProp_plain project _ Hname), (hasProp_plain global _ Hname) in Hadded.
  rewrite Hmerged, (getProp_plain _ _ Hname), (get_mergedProps global project _ Hnp).
  rewrite !ObjFacts.get_has in Hkey, Hadded. unfold specMergedProperty.
  destruct (Obj.get (key line) global) as [gv | ] eqn:Eg,
           (Obj.get (key line) project) as [pv | ] eqn:Ep.
  - split; [ destruct (isPlainObject (Some gv) && isPlainObject (Some pv)); discriminate | ].
    split.
    + intros Ht. apply Hadded in Ht as [_ Ht]. discriminate.
    + rewrite ObjFacts.get_has, Ep. discriminate.
  - split; [ discriminate | split ].
    + intros Ht. apply Hadded in Ht as [Ht _]. discriminate.
    + intros _. reflexivity.
  - split; [ discriminate | split; [ reflexivity | ] ].
    rewrite ObjFacts.get_has, Ep. discriminate.
  - discriminate.
Qed.


Lemma collectDiffLines_classification_witness :
  path Demo.extraLine = "extra"
  /\ type Demo.extraLine = added
  /\ hasProp Demo.projectDoc "extra" = true
  /\ type Demo.toStringLine <> added
  /\ hasProp emptyObject "toString" = true.
Proof.
  destruct (collectDiffLines_classification VObjectPrototype VObjectPrototype VObjectPrototype
              (ownEntries Demo.globalDoc)
              (ownEntries (deepMerge Demo.globalDoc Demo.projectDoc))
              (ownEntries Demo.projectDoc) EmptyString
              Demo.extraLine) as (Hpath & _ & _ & Hadded & _).
  - vm_compute. tauto.
  - destruct (collectDiffLines_classification VObjectPrototype VObjectPrototype VObjectPrototype
                [] (ownEntries (deepMerge emptyObject Samples.onlyToString))
                (ownEntries Samples.onlyToString) EmptyString
                Demo.toStringLine) as (_ & _ & _ & Hinherited & _).
    + vm_compute. tauto.
    + split; [ exact Hpath | split; [ reflexivity | split; [ apply Hadded; reflexivity | ] ] ].
      split; [ | reflexivity ].
      intros Ht. apply Hinherited in Ht as [_ Ht]. discriminate.
Defined.

Lemma collectDiffLines_self_witness :
  exists proto props,
    Obj.get "config" (ownEntries Samples.nestedConfig) = Some (VObject proto props)
    /\ props <> [].
Proof.
  destruct (collectDiffLines_self VObjectPrototype (ownEntries Samples.nestedConfig)
              EmptyString Demo.configLine)
    as [Hmodified _].
  - vm_compute. tauto.
  - apply Hmodified. reflexivity.
Defined.

Lemma collectDiffLines_of_merge_witness :
  mergedValue Demo.extraLine = Obj.get "extra" (ownEntries Demo.projectDoc).
Proof.
  destruct (collectDiffLines_of_merge (ownEntries Demo.globalDoc) (ownEntries Demo.projectDoc)
              EmptyString Demo.extraLine) as (_ & Hadded & _).
  - reflexivity.
  - reflexivity.
  - vm_compute. tauto.
  - apply Hadded. reflexivity.
Defined.
(** ** Deriving a profile id *)

Section SlugFacts.
Import Slug.

Lemma isDash_eq (c : ascii) : isDash c = true -> c = dash.
Proof.
  unfold isDash. intros H. apply Nat.eqb_eq in H.
  rewrite <- (ascii_nat_embedding c), H. reflexivity.
Qed.

Lemma isIdChar_not_dash (c : ascii) : isIdChar c = true -> isDash c = false.
Proof.
  unfold isIdChar, isDash. intros H. apply Nat.eqb_neq. intros E. rewrite E in H. discriminate.
Qed.

Lemma prefix_dash (c : ascii) (s : string) : String.prefix "-" (String c s) = isDash c.
Proof. destruct c as [[] [] [] [] [] [] [] []]; destruct s; reflexivity. Qed.

Lemma prefix_dashes (c : ascii) (s : string) :
  String.prefix "--" (String c s) = isDash c && String.prefix "-" s.
Proof. destruct c as [[] [] [] [] [] [] [] []]; destruct s; reflexivity. Qed.

Lemma includes_dashes (c : ascii) (s : string) :
  Str.includes "--" (String c s)
  = (isDash c && String.prefix "-" s) || Str.includes "--" s.
Proof. cbn [Str.includes]. rewrite prefix_dashes. reflexivity. Qed.

Lemma includes_empty : Str.includes "--" EmptyString = false.
Proof. reflexivity. Qed.

Lemma replaceRuns_facts (s : string) :
  forall inRun,
    isIdText (replaceRuns inRun s) = true
    /\ (inRun = true -> String.prefix "-" (replaceRuns inRun s) = false)
    /\ Str.includes "--" (replaceRuns inRun s) = false.
Proof.
  induction s as [ | c rest IH ]; intros inRun; [ repeat split | ].
  cbn [replaceRuns]. destruct (isIdChar c) eqn:Ec.
  - destruct (IH false) as (Htext & _ & Hinc).
    split; [ | split ].
    + unfold isIdText. cbn [list_ascii_of_string forallb]. rewrite Ec. exact Htext.
    + intros _. rewrite prefix_dash. apply isIdChar_not_dash, Ec.
    + rewrite includes_dashes, (isIdChar_not_dash c Ec), Hinc. reflexivity.
  - destruct (IH true) as (Htext & Hpre & Hinc). destruct inRun.
    + split; [ exact Htext | split; [ intros _; apply Hpre; reflexivity | exact Hinc ] ].
    + split; [ | split ].
      * unfold isIdText. cbn [list_ascii_of_string forallb]. rewrite orb_true_r. exact Htext.
      * discriminate.
      * rewrite includes_dashes, (Hpre eq_refl), Hinc, andb_false_r. reflexivity.
Qed.

(** The text without a dash at its start. *)
Lemma dropLeadingDash_facts (t : string) :
  isIdText t = true -> Str.includes "--" t = false ->
  let s1 := match t with
            | String c rest => if isDash c then rest else t
            | EmptyString => EmptyString
            end in
  isIdText s1 = true /\ String.prefix "-" s1 = false /\ Str.includes "--" s1 = false.
Proof.
  destruct t as [ | c rest ]; intros Htext Hinc; cbn zeta; [ repeat split | ].
  destruct (isDash c) eqn:Ec.
  - rewrite includes_dashes, Ec in Hinc. apply orb_false_iff in Hinc as [Hpre Hinc].
    unfold isIdText in Htext. cbn [list_ascii_of_string forallb] in Htext.
    apply andb_true_iff in Htext as [_ Htext]. repeat split; assumption.
  - rewrite prefix_dash. repeat split; assumption.
Qed.

Lemma prefix_dropTrailingDash (s : string) :
  String.prefix "-" (dropTrailingDash s) = true -> String.prefix "-" s = true.
Proof.
  destruct s as [ | c rest ]; [ discriminate | ].
  cbn [dropTrailingDash]. destruct rest as [ | c' r' ].
  - destruct (isDash c) eqn:Ec; [ discriminate | ]. rewrite prefix_dash. congruence.
  - rewrite !prefix_dash. auto.
Qed.

Lemma dropTrailingDash_facts (s : string) :
  isIdText s = true -> Str.includes "--" s = false ->
  isIdText (dropTrailingDash s) = true
  /\ Str.includes "--" (dropTrailingDash s) = false
  /\ dropTrailingDash (dropTrailingDash s) = dropTrailingDash s.
Proof.
  induction s as [ | c rest IH ]; intros Htext Hinc; [ repeat split | ].
  unfold isIdText in Htext. cbn [list_ascii_of_string forallb] in Htext.
  apply andb_true_iff in Htext as [Hc Htext].
  rewrite includes_dashes in Hinc. apply orb_false_iff in Hinc as [Hpair Hinc].
  destruct (IH Htext Hinc) as (IHtext & IHinc & IHdrop).
  cbn [dropTrailingDash]. destruct rest as [ | c' r' ].
  - destruct (isDash c) eqn:Ec; [ repeat split | ].
    split; [ | split ].
    + unfold isIdText. cbn [list_ascii_of_string forallb]. rewrite Ec, Hc. reflexivity.
    + rewrite includes_dashes, Ec. reflexivity.
    + cbn [dropTrailingDash]. rewrite Ec. reflexivity.
  - split; [ | split ].
    + unfold isIdText. cbn [list_ascii_of_string forallb]. rewrite Hc. exact IHtext.
    + rewrite includes_dashes, IHinc, orb_false_r.
      destruct (isDash c); [ | reflexivity ]. cbn [andb] in *.
      destruct (String.prefix "-" (dropTrailingDash (String c' r'))) eqn:E; [ | reflexivity ].
      apply prefix_dropTrailingDash in E. congruence.
    + destruct (dropTrailingDash (String c' r')) as [ | d dr ] eqn:Ed.
      * cbn. destruct (isDash c) eqn:Ec; [ | reflexivity ]. exfalso.
        cbn [andb] in Hpair. rewrite prefix_dash in Hpair.
        cbn [dropTrailingDash] in Ed. destruct r'; [ | discriminate ].
        destruct (isDash c'); [ discriminate | discriminate ].
      * change (dropTrailingDash (String c (String d dr)))
          with (String c (dropTrailingDash (String d dr))).
        rewrite IHdrop. reflexivity.
Qed.

Lemma substring_prefix_facts (n : nat) (s : string) :
  (String.length (String.substring 0 n s) <= n)%nat
  /\ (isIdText s = true -> isIdText (String.substring 0 n s) = true)
  /\ (String.prefix "-" (String.substring 0 n s) = true -> String.prefix "-" s = true)
  /\ (Str.includes "--" s = false -> Str.includes "--" (String.substring 0 n s) = false)
  /\ ((String.length (String.substring 0 n s) < n)%nat -> String.substring 0 n s = s)
  /\ ((String.length s <= n)%nat -> String.substring 0 n s = s).
Proof.
  revert s. induction n as [ | n IH ]; intros s.
  - assert (E : String.substring 0 0 s = EmptyString) by (destruct s; reflexivity).
    rewrite E. repeat split; try reflexivity; try discriminate; try (cbn; lia).
    destruct s; [ reflexivity | cbn; lia ].
  - destruct s as [ | c rest ]; [ repeat split; auto; cbn; lia | ].
    cbn [String.substring]. destruct (IH rest) as (Hlen & Htext & Hpre & Hinc & Hshort & Hfit).
    split; [ cbn; lia | split; [ | split; [ | split; [ | split ] ] ] ].
    + unfold isIdText. cbn [list_ascii_of_string forallb]. intros H.
      apply andb_true_iff in H as [Hc H]. rewrite Hc. apply Htext, H.
    + rewrite !prefix_dash. auto.
    + rewrite !includes_dashes. intros H. apply orb_false_iff in H as [Hpair H].
      rewrite (Hinc H), orb_false_r. destruct (isDash c); [ | reflexivity ]. cbn [andb] in *.
      destruct (String.prefix "-" (String.substring 0 n rest)) eqn:E; [ | reflexivity ].
      specialize (Hpre eq_refl). congruence.
    + cbn [String.length]. intros H. f_equal. apply Hshort. lia.
    + cbn [String.length]. intros H. f_equal. apply Hfit. lia.
Qed.

(** What [deriveIdFromName] returns, before the cut at fifty characters. *)
Lemma trimDashes_facts (t : string) :
  isIdText t = true -> Str.includes "--" t = false ->
  isIdText (trimDashes t) = true
  /\ String.prefix "-" (trimDashes t) = false
  /\ Str.includes "--" (trimDashes t) = false
  /\ dropTrailingDash (trimDashes t) = trimDashes t.
Proof.
  intros Htext Hinc. unfold trimDashes.
  destruct (dropLeadingDash_facts t Htext Hinc) as (H1 & H2 & H3).
  destruct (dropTrailingDash_facts _ H1 H3) as (H4 & H5 & H6).
  split; [ exact H4 | split; [ | split; [ exact H5 | exact H6 ] ] ].
  match goal with |- String.prefix "-" ?d = false => destruct (String.prefix "-" d) eqn:E end;
    [ | reflexivity ].
  apply prefix_dropTrailingDash in E. congruence.
Qed.

Lemma deriveIdFromName_facts (name : string) :
  (String.length (deriveIdFromName name) <= 50)%nat
  /\ isIdText (deriveIdFromName name) = true
  /\ String.prefix "-" (deriveIdFromName name) = false
  /\ Str.includes "--" (deriveIdFromName name) = false
  /\ ((String.length (deriveIdFromName name) < 50)%nat ->
      dropTrailingDash (deriveIdFromName name) = deriveIdFromName name).
Proof.
  unfold deriveIdFromName.
  destruct (replaceRuns_facts (Txt.toLowerCase name) false) as (Htext & _ & Hinc).
  destruct (trimDashes_facts _ Htext Hinc) as (H1 & H2 & H3 & H4).
  destruct (substring_prefix_facts 50 (trimDashes (replaceRuns false (Txt.toLowerCase name))))
    as (Hlen & Ht & Hp & Hi & Hshort & _).
  split; [ exact Hlen | split; [ exact (Ht H1) | split; [ | split; [ exact (Hi H3) | ] ] ] ].
  - match goal with |- ?p = false => destruct p eqn:E end; [ | reflexivity ].
    specialize (Hp eq_refl). congruence.
  - intros Hlt. rewrite (Hshort Hlt). exact H4.
Qed.

Lemma lowerChar_id (c : ascii) : isIdChar c || isDash c = true -> Txt.lowerChar c = c.
Proof. destruct c as [[] [] [] [] [] [] [] []]; intros H; try reflexivity; discriminate. Qed.

Lemma toLowerCase_id (s : string) : isIdText s = true -> Txt.toLowerCase s = s.
Proof.
  unfold isIdText. induction s as [ | c rest IH ]; [ reflexivity | ].
  cbn [list_ascii_of_string forallb Txt.toLowerCase]. intros H.
  apply andb_true_iff in H as [Hc H]. rewrite (lowerChar_id c Hc), (IH H). reflexivity.
Qed.

Lemma replaceRuns_id (s : string) :
  forall inRun,
    isIdText s = true -> Str.includes "--" s = false ->
    (inRun = true -> String.prefix "-" s = false) ->
    replaceRuns inRun s = s.
Proof.
  induction s as [ | c rest IH ]; intros inRun Htext Hinc Hpre; [ reflexivity | ].
  unfold isIdText in Htext. cbn [list_ascii_of_string forallb] in Htext.
  apply andb_true_iff in Htext as [Hc Htext].
  rewrite includes_dashes in Hinc. apply orb_false_iff in Hinc as [Hpair Hinc].
  cbn [replaceRuns]. destruct (isIdChar c) eqn:Ec.
  - f_equal. apply IH; [ exact Htext | exact Hinc | discriminate ].
  - cbn [orb] in Hc. rewrite Hc in Hpair. cbn [andb] in Hpair.
    destruct inRun.
    + specialize (Hpre eq_refl). rewrite prefix_dash in Hpre. congruence.
    + rewrite (isDash_eq c Hc). f_equal. apply IH; [ exact Htext | exact Hinc | auto ].
Qed.

Lemma deriveIdFromName_of_id (s : string) : isId s = true -> deriveIdFromName s = s.
Proof.
  unfold isId. rewrite !andb_true_iff, !negb_true_iff, Nat.leb_le, String.eqb_eq.
  intros ((((Hlen & Htext) & Hpre) & Hinc) & Hdrop).
  unfold deriveIdFromName.
  rewrite (toLowerCase_id s Htext), (replaceRuns_id s false Htext Hinc) by discriminate.
  assert (Htrim : trimDashes s = s).
  { unfold trimDashes. destruct s as [ | c rest ]; [ reflexivity | ].
    rewrite prefix_dash in Hpre. rewrite Hpre. exact Hdrop. }
  rewrite Htrim.
  apply (substring_prefix_facts 50 s). exact Hlen.
Qed.

Lemma hasIdChar_replaceRuns (s : string) :
  forall inRun,
    existsb isIdChar (list_ascii_of_string (replaceRuns inRun s))
    = existsb isIdChar (list_ascii_of_string s).
Proof.
  induction s as [ | c rest IH ]; intros inRun; [ reflexivity | ].
  cbn [replaceRuns]. destruct (isIdChar c) eqn:Ec.
  - cbn [list_ascii_of_string existsb]. rewrite Ec. reflexivity.
  - destruct inRun; cbn [list_ascii_of_string existsb]; rewrite Ec, IH; reflexivity.
Qed.

Lemma hasIdChar_dropTrailingDash (s : string) :
  existsb isIdChar (list_ascii_of_string (dropTrailingDash s))
  = existsb isIdChar (list_ascii_of_string s).
Proof.
  induction s as [ | c rest IH ]; [ reflexivity | ].
  cbn [dropTrailingDash]. destruct rest as [ | c' r' ].
  - destruct (isDash c) eqn:Ec; [ | reflexivity ].
    cbn. destruct (isIdChar c) eqn:Ei; [ | reflexivity ].
    apply isIdChar_not_dash in Ei. congruence.
  - cbn [list_ascii_of_string existsb]. rewrite IH. reflexivity.
Qed.

Lemma hasIdChar_trimDashes (s : string) :
  existsb isIdChar (list_ascii_of_string (trimDashes s))
  = existsb isIdChar (list_ascii_of_string s).
Proof.
  unfold trimDashes. rewrite hasIdChar_dropTrailingDash.
  destruct s as [ | c rest ]; [ reflexivity | ].
  destruct (isDash c) eqn:Ec; [ | reflexivity ].
  cbn [list_ascii_of_string existsb].
  destruct (isIdChar c) eqn:Ei; [ | reflexivity ].
  apply isIdChar_not_dash in Ei. congruence.
Qed.

Lemma deriveIdFromName_empty_iff (name : string) :
  deriveIdFromName name = EmptyString
  <-> existsb isIdChar (list_ascii_of_string (Txt.toLowerCase name)) = false.
Proof.
  rewrite <- (hasIdChar_replaceRuns (Txt.toLowerCase name) false), <- hasIdChar_trimDashes.
  unfold deriveIdFromName.
  destruct (replaceRuns_facts (Txt.toLowerCase name) false) as (Htext & _ & Hinc).
  destruct (trimDashes_facts _ Htext Hinc) as (H1 & H2 & _ & _).
  destruct (trimDashes (replaceRuns false (Txt.toLowerCase name))) as [ | c rest ].
  - split; reflexivity.
  - split; [ discriminate | ].
    cbn [list_ascii_of_string existsb]. rewrite prefix_dash in H2.
    unfold isIdText in H1. cbn [list_ascii_of_string forallb] in H1.
    rewrite H2, orb_false_r in H1. apply andb_true_iff in H1 as [-> _]. discriminate.
Qed.

End SlugFacts.

(** X9. An id derived from a name has at most fifty characters, all of
    them letters [a-z], digits or dashes; it does not begin with a dash and
    has no two dashes in a row; and it ends with a dash only when the cut at
    fifty characters left one there. *)
Theorem deriveIdFromName_shape (name : string) :
  (String.length (deriveIdFromName name) <= 50)%nat
  /\ Slug.isIdText (deriveIdFromName name) = true
  /\ String.prefix "-" (deriveIdFromName name) = false
  /\ Str.includes "--" (deriveIdFromName name) = false
  /\ ((String.length (deriveIdFromName name) < 50)%nat ->
      Slug.dropTrailingDash (deriveIdFromName name) = deriveIdFromName name).
Proof. apply deriveIdFromName_facts. Qed.

(** X10. What looks like an id is its own id, and deriving an id from a
    derived id of less than fifty characters changes nothing. *)
Theorem deriveIdFromName_stable :
  (forall s, Slug.isId s = true -> deriveIdFromName s = s)
  /\ (forall name,
        (String.length (deriveIdFromName name) < 50)%nat ->
        deriveIdFromName (deriveIdFromName name) = deriveIdFromName name).
Proof.
  split; [ exact deriveIdFromName_of_id | ].
  intros name Hlt. apply deriveIdFromName_of_id.
  destruct (deriveIdFromName_facts name) as (Hlen & Htext & Hpre & Hinc & Hdrop).
  unfold Slug.isId. rewrite Htext, Hpre, Hinc, (Hdrop Hlt), String.eqb_refl.
  rewrite (proj2 (Nat.leb_le _ _) Hlen). reflexivity.
Qed.

(** X11. The derived id is empty exactly when the name has no letter and
    no digit. *)
Theorem deriveIdFromName_empty (name : string) :
  deriveIdFromName name = EmptyString
  <-> existsb Slug.isIdChar (list_ascii_of_string (Txt.toLowerCase name)) = false.
Proof. apply deriveIdFromName_empty_iff. Qed.

Lemma deriveIdFromName_stable_witness :
  deriveIdFromName "my-profile-2" = "my-profile-2"
  /\ deriveIdFromName (deriveIdFromName "My Profile (2)!") = deriveIdFromName "My Profile (2)!".
Proof.
  split.
  - apply (proj1 deriveIdFromName_stable). reflexivity.
  - apply (proj2 deriveIdFromName_stable). vm_compute. lia.
Defined.

Lemma deriveIdFromName_shape_witness :
  Slug.dropTrailingDash (deriveIdFromName "My Profile (2)!") = deriveIdFromName "My Profile (2)!".
Proof.
  apply (deriveIdFromName_shape "My Profile (2)!"). vm_compute. lia.
Defined.
(** ** The scope resolver: finding the project root *)

Section ProjectRootFacts.

Variable env : Env.

Lemma hasMarkerDirectory_present (w : World) (dir : Path) :
  nodes w !! Child dir OPENCODE_DIR = Some Dir ->
  denied env OpStat (Child dir OPENCODE_DIR) = false ->
  hasMarkerDirectory env dir w = (Returned true, w).
Proof.
  intros Hdir Hok. unfold hasMarkerDirectory, bind, existsSync, statSync. simpl.
  rewrite Hok, !Hdir. reflexivity.
Qed.


Lemma ancestorsOf_self (dir : Path) : dir ∈ ancestorsOf dir.
Proof. destruct dir; left. Qed.

Lemma ancestorsOf_trans (a b c : Path) :
  a ∈ ancestorsOf b -> b ∈ ancestorsOf c -> a ∈ ancestorsOf c.
Proof.
  intros Hab. induction c as [ | parent IH name ]; simpl; intros Hbc.
  - apply elem_of_cons in Hbc as [-> | Hbc]; [ exact Hab | inversion Hbc ].
  - apply elem_of_cons in Hbc as [-> | Hbc]; [ exact Hab | ].
    right. apply IH, Hbc.
Qed.

Lemma findProjectRootFrom_nearest (w : World) (root : Path) :
  nodes w !! Child root OPENCODE_DIR = Some Dir ->
  denied env OpStat (Child root OPENCODE_DIR) = false ->
  forall dir,
    root ∈ ancestorsOf dir ->
    (forall d, d ∈ ancestorsOf dir -> root ∈ ancestorsOf d -> d <> root ->
               nodes w !! Child d OPENCODE_DIR <> Some Dir
               /\ denied env OpStat (Child d OPENCODE_DIR) = false) ->
    findProjectRootFrom env dir w = (Returned (Some root), w).
Proof.
  intros Hmark Hstat dir. induction dir as [ | parent IH name ]; intros Hin Hbelow.
  - simpl in Hin. apply elem_of_cons in Hin as [-> | Hin]; [ | inversion Hin ].
    simpl. unfold bind. rewrite (hasMarkerDirectory_present w Root Hmark Hstat). reflexivity.
  - destruct (decide (Child parent name = root)) as [<- | Hne].
    + simpl. unfold bind at 1.
      rewrite (hasMarkerDirectory_present w _ Hmark Hstat). reflexivity.
    + destruct (Hbelow (Child parent name)) as [Hno Hok];
        [ apply ancestorsOf_self | exact Hin | exact Hne | ].
      simpl in Hin. apply elem_of_cons in Hin as [-> | Hin]; [ congruence | ].
      simpl. unfold bind at 1. rewrite (hasMarkerDirectory_absent env w _ Hno Hok).
      apply IH; [ exact Hin | ].
      intros d Hd. apply Hbelow. right. exact Hd.
Qed.


End ProjectRootFacts.

(** X12. [findProjectRoot] returns the nearest directory, from the starting
    directory upwards, that holds a [.opencode] directory, when [stat]
    answers on the way up to it. *)
Theorem findProjectRoot_nearest (env : Env) (w : World) (startDir : option PathArg)
    (root : Path) :
  root ∈ ancestorsOf (startingDirectory env startDir) ->
  nodes w !! Child root OPENCODE_DIR = Some Dir ->
  denied env OpStat (Child root OPENCODE_DIR) = false ->
  (forall d, d ∈ ancestorsOf (startingDirectory env startDir) ->
             root ∈ ancestorsOf d -> d <> root ->
             nodes w !! Child d OPENCODE_DIR <> Some Dir
             /\ denied env OpStat (Child d OPENCODE_DIR) = false) ->
  findProjectRoot env startDir w = (Returned (Some root), w)
  /\ resolveProjectRoot env startDir w = (Returned root, w).
Proof.
  intros Hin Hmark Hstat Hbelow.
  pose proof (findProjectRootFrom_nearest env w root Hmark Hstat _ Hin Hbelow) as Hfind.
  split; [ exact Hfind | ].
  unfold resolveProjectRoot, bind, findProjectRoot. rewrite Hfind. reflexivity.
Qed.


(** ** Creating directories and saving the rc file *)

(** What [mkdir -p] does to the tree: it keeps every entry, adds only
    directories, and the path is a directory afterwards. *)
Lemma mkdirp_grows (p : Path) (tree tree' : gmap Path Node) :
  mkdirp p tree = Some tree' ->
  (forall q n, tree !! q = Some n -> tree' !! q = Some n)
  /\ (forall q n, tree' !! q = Some n -> tree !! q = None -> n = Dir)
  /\ (p <> Root -> tree' !! p = Some Dir).
Proof.
  revert tree'. induction p as [ | parent IH name ]; simpl; intros tree' H.
  - injection H as <-. split; [ auto | split; [ congruence | congruence ] ].
  - destruct (mkdirp parent tree) as [t1 | ] eqn:E1; [ | discriminate ].
    destruct (IH t1 eq_refl) as (Hkeep & Hnew & _).
    destruct (t1 !! Child parent name) as [[ | ] | ] eqn:E2; try discriminate;
      injection H as <-.
    + split; [ exact Hkeep | split; [ exact Hnew | intros _; exact E2 ] ].
    + split; [ | split ].
      * intros q n Hq. destruct (decide (q = Child parent name)) as [-> | Hne].
        -- apply Hkeep in Hq. congruence.
        -- rewrite lookup_insert_ne by congruence. apply Hkeep, Hq.
      * intros q n Hq Hnone. destruct (decide (q = Child parent name)) as [-> | Hne].
        -- rewrite lookup_insert_eq in Hq. congruence.
        -- rewrite lookup_insert_ne in Hq by congruence. exact (Hnew q n Hq Hnone).
      * intros _. apply lookup_insert_eq.
Qed.

Section DirectoryFacts.

Variable env : Env.

(** How [if (!fs.existsSync(dir)) fs.mkdirSync(dir, { recursive: true })]
    returns. *)
Lemma ensureDir_Returned (dir : Path) (w w' : World) :
  (let! found := existsSync dir in
   if negb found then mkdirSync env dir else ret tt) w = (Returned tt, w') ->
  output w' = output w
  /\ lookupNode w' dir <> None
  /\ (forall q n, nodes w !! q = Some n -> nodes w' !! q = Some n)
  /\ (forall q n, nodes w' !! q = Some n -> nodes w !! q = None -> n = Dir)
  /\ (lookupNode w dir <> None -> w' = w).
Proof.
  unfold bind, existsSync.
  destruct (lookupNode w dir) as [n | ] eqn:E; cbn [negb].
  - intros [= <-]. rewrite E. repeat split; auto; congruence.
  - unfold mkdirSync. destruct (denied env OpMkdir dir); [ discriminate | ].
    destruct (mkdirp dir (nodes w)) as [tree | ] eqn:Em; [ | discriminate ].
    intros [= <-]. destruct (mkdirp_grows dir _ _ Em) as (Hkeep & Hnew & Hdir).
    cbn. split; [ reflexivity | split; [ | split; [ exact Hkeep | split; [ exact Hnew | ] ] ] ].
    + destruct dir as [ | parent name ]; [ discriminate | ].
      cbn. rewrite Hdir by discriminate. discriminate.
    + congruence.
Qed.

End DirectoryFacts.

(** X14. When [ensureProjectDirs] returns, [.opencode] and
    [.opencode/omo-configs] exist; it has kept every entry of the tree and
    added directories only; and a second call changes nothing. *)
Theorem ensureProjectDirs_creates (env : Env) (projectRoot : Path) (w w' : World) :
  ensureProjectDirs env projectRoot w = (Returned tt, w') ->
  nodes w' !! Fs.join projectRoot [OPENCODE_DIR] <> None
  /\ nodes w' !! getProjectConfigsPath projectRoot <> None
  /\ (forall q n, nodes w !! q = Some n -> nodes w' !! q = Some n)
  /\ (forall q n, nodes w' !! q = Some n -> nodes w !! q = None -> n = Dir)
  /\ output w' = output w
  /\ ensureProjectDirs env projectRoot w' = (Returned tt, w').
Proof.
  unfold ensureProjectDirs. intros H.
  apply bind_Returned in H as (found & w0 & Hfound & H).
  apply bind_Returned in H as ([] & w1 & Hfirst & Hsecond).
  injection Hfound as <- <-.
  assert (Hfirst' : (let! found := existsSync (Fs.join projectRoot [OPENCODE_DIR]) in
                     if negb found then mkdirSync env (Fs.join projectRoot [OPENCODE_DIR])
                     else ret tt) w = (Returned tt, w1)).
  { unfold bind, existsSync. exact Hfirst. }
  destruct (ensureDir_Returned env _ _ _ Hfirst') as (Ho1 & He1 & Hk1 & Hn1 & _).
  destruct (ensureDir_Returned env _ _ _ Hsecond) as (Ho2 & He2 & Hk2 & Hn2 & _).
  cbn [Fs.join fold_left lookupNode getProjectConfigsPath] in *.
  assert (Hopen : nodes w' !! Child projectRoot OPENCODE_DIR <> None).
  { destruct (nodes w1 !! Child projectRoot OPENCODE_DIR) as [n | ] eqn:E; [ | congruence ].
    rewrite (Hk2 _ _ E). discriminate. }
  split; [ exact Hopen | split; [ exact He2 | split; [ | split; [ | split ] ] ] ].
  - intros q n Hq. apply Hk2, Hk1, Hq.
  - intros q n Hq Hnone. destruct (nodes w1 !! q) as [n1 | ] eqn:E1.
    + rewrite (Hk2 _ _ E1) in Hq. injection Hq as <-. exact (Hn1 _ _ E1 Hnone).
    + exact (Hn2 _ _ Hq E1).
  - congruence.
  - unfold bind, existsSync. cbn [Fs.join fold_left lookupNode].
    destruct (nodes w' !! Child projectRoot OPENCODE_DIR); [ | congruence ].
    cbn [negb]. unfold ret.
    destruct (nodes w' !! Child (Child projectRoot OPENCODE_DIR) OMO_CONFIGS_DIR);
      [ reflexivity | congruence ].
Qed.

Section SaveFacts.

Variable env : Env.

(** How [writeFileSync] returns: the directory of the file is there. *)
Lemma writeFileSync_parent (parent : Path) (name content : string) (w w' : World) :
  writeFileSync env (Child parent name) content w = (Returned tt, w') ->
  lookupNode w parent = Some Dir.
Proof.
  unfold writeFileSync. destruct (denied env OpWrite _); [ discriminate | ].
  destruct (lookupNode w parent) as [[ | ] | ]; try discriminate. reflexivity.
Qed.

(** The statements [if (!fs.existsSync(dir)) fs.mkdirSync(dir, ...)] and
    [fs.writeFileSync(file, content)] for a file of [dir]. *)
Lemma saveInto_Returned (dir : Path) (name content : string) (w w' : World) :
  (let! found := existsSync dir in
   let! _ := (if negb found then mkdirSync env dir else ret tt) in
   writeFileSync env (Child dir name) content) w = (Returned tt, w') ->
  lookupNode w' dir = Some Dir
  /\ nodes w' !! Child dir name = Some (File content (nowMs env))
  /\ (forall p, p <> Child dir name -> fileAt w' p = fileAt w p)
  /\ output w' = output w.
Proof.
  intros H.
  assert (H' : (let! _ := (let! found := existsSync dir in
                           if negb found then mkdirSync env dir else ret tt) in
                writeFileSync env (Child dir name) content) w = (Returned tt, w')).
  { revert H. unfold bind, existsSync. destruct (lookupNode w dir); cbn [negb]; auto. }
  clear H. apply bind_Returned in H' as ([] & w1 & Hdir & Hwrite).
  destruct (ensureDir_Returned env _ _ _ Hdir) as (Ho & _ & Hkeep & Hnew & _).
  pose proof (writeFileSync_parent _ _ _ _ _ Hwrite) as Hparent.
  apply writeFileSync_Returned in Hwrite. subst w'. cbn [nodes output].
  split; [ | split; [ apply lookup_insert_eq | split; [ | exact Ho ] ] ].
  - destruct dir as [ | dp dn ]; [ reflexivity | ]. cbn [lookupNode nodes] in *.
    rewrite lookup_insert_ne by apply child_neq_parent. exact Hparent.
  - intros p Hne. rewrite fileAt_insert_ne by exact Hne.
    unfold fileAt. destruct (nodes w !! p) as [n | ] eqn:E.
    + rewrite (Hkeep _ _ E). reflexivity.
    + destruct (nodes w1 !! p) as [n | ] eqn:E1; [ | reflexivity ].
      rewrite (Hnew _ _ E1 E). reflexivity.
Qed.

End SaveFacts.

(** X15. What [saveProjectRc] writes, [loadProjectRc] reads back: after a
    save that returned, the rc file holds the record, pretty-printed, no
    other file has changed, and loading returns the record when [JSON.parse]
    reads the text back. *)
Theorem saveProjectRc_roundtrip (env : Env) (projectRoot : Path) (rc : JsonValue)
    (w w' : World) :
  saveProjectRc env projectRoot rc w = (Returned tt, w') ->
  nodes w' !! Fs.join projectRoot [OPENCODE_DIR] = Some Dir
  /\ fileAt w' (getProjectRcPath projectRoot) = Some (stringifyPretty rc, nowMs env)
  /\ (forall p, p <> getProjectRcPath projectRoot -> fileAt w' p = fileAt w p)
  /\ output w' = output w
  /\ (JSON_parse env (stringifyPretty rc) = Some rc ->
      denied env OpRead (getProjectRcPath projectRoot) = false ->
      loadProjectRc env projectRoot w' = (Returned rc, w')).
Proof.
  unfold saveProjectRc. cbn [getProjectRcPath Fs.join fold_left dirname]. intros H.
  destruct (saveInto_Returned env _ _ _ _ _ H) as (Hdir & Hfile & Hframe & Hout).
  split; [ exact Hdir | split; [ | split; [ exact Hframe | split; [ exact Hout | ] ] ] ].
  - unfold fileAt. rewrite Hfile. reflexivity.
  - intros Hparse Hread. rewrite loadProjectRc_run. unfold rcOf, parsedAt.
    cbn [getProjectRcPath Fs.join fold_left lookupNode] in *.
    rewrite Hfile, Hread, Hparse. reflexivity.
Qed.

(** ** The settings file: saving and loading *)

Lemma fold_set_NoDup {A} (source acc : list (string * A)) :
  NoDup (Obj.keys acc) ->
  NoDup (Obj.keys (fold_left (fun result kv => Obj.set (fst kv) (snd kv) result) source acc)).
Proof.
  revert acc. induction source as [ | [k v] rest IH ]; simpl; intros acc Hnd; [ exact Hnd | ].
  apply IH, ObjFacts.set_NoDup, Hnd.
Qed.

Lemma spread_NoDup (sources : list JsonObject) : NoDup (Obj.keys (spread sources)).
Proof.
  unfold spread.
  assert (H : forall acc : JsonObject, NoDup (Obj.keys acc) ->
                NoDup (Obj.keys (fold_left
                   (fun result source =>
                      fold_left (fun result kv => Obj.set (fst kv) (snd kv) result) source result)
                   sources acc))).
  { induction sources as [ | s rest IH ]; simpl; intros acc Hnd; [ exact Hnd | ].
    apply IH, fold_set_NoDup, Hnd. }
  apply H. constructor.
Qed.

Lemma has_fold_set {A} (k : string) (source acc : list (string * A)) :
  Obj.has k (fold_left (fun result kv => Obj.set (fst kv) (snd kv) result) source acc)
  = Obj.has k source || Obj.has k acc.
Proof.
  revert acc. induction source as [ | [k0 v0] rest IH ]; simpl; intros acc; [ reflexivity | ].
  rewrite IH, ObjFacts.has_set.
  change (Obj.has k ((k0, v0) :: rest)) with (String.eqb k k0 || Obj.has k rest).
  rewrite (String.eqb_sym k k0).
  destruct (String.eqb k0 k), (Obj.has k rest), (Obj.has k acc); reflexivity.
Qed.

Section SettingsFacts.

Variable env : Env.
Variable DEFAULT_SETTINGS : JsonObject.

(** [loadGlobalSettings] returns, changes nothing, and what it returns has
    every field of [DEFAULT_SETTINGS]. *)
Lemma loadGlobalSettings_run (w : World) :
  exists settings,
    loadGlobalSettings env DEFAULT_SETTINGS w = (Returned settings, w)
    /\ NoDup (Obj.keys settings)
    /\ forall name, Obj.has name DEFAULT_SETTINGS = true -> Obj.has name settings = true.
Proof.
  assert (Hdefault : forall name, Obj.has name DEFAULT_SETTINGS = true ->
                                  Obj.has name (spread [DEFAULT_SETTINGS]) = true).
  { intros name H. unfold spread. simpl. rewrite has_fold_set, H. reflexivity. }
  unfold loadGlobalSettings, bind, tryCatch, existsSync, readFileSync, jsonParse.
  destruct (lookupNode w (getSettingsPath env)) as [[content m | ] | ] eqn:E; cbn [negb].
  - destruct (denied env OpRead (getSettingsPath env)).
    + eexists. split; [ reflexivity | split; [ apply spread_NoDup | exact Hdefault ] ].
    + rewrite E. destruct (JSON_parse env content) as [parsed | ].
      * eexists. split; [ reflexivity | split; [ apply spread_NoDup | ] ].
        intros name H. unfold spread. simpl. rewrite !has_fold_set, H.
        apply orb_true_iff. right. reflexivity.
      * eexists. split; [ reflexivity | split; [ apply spread_NoDup | exact Hdefault ] ].
  - destruct (denied env OpRead (getSettingsPath env)); rewrite ?E;
      (eexists; split; [ reflexivity | split; [ apply spread_NoDup | exact Hdefault ] ]).
  - eexists. split; [ reflexivity | split; [ apply spread_NoDup | exact Hdefault ] ].
Qed.

(** Loading a settings file that holds [saved], pretty-printed. *)
Lemma loadGlobalSettings_saved (w : World) (saved : JsonObject) (mtime : Z) :
  nodes w !! getSettingsPath env = Some (File (stringifyPretty (JObject saved)) mtime) ->
  JSON_parse env (stringifyPretty (JObject saved)) = Some (JObject saved) ->
  denied env OpRead (getSettingsPath env) = false ->
  loadGlobalSettings env DEFAULT_SETTINGS w
  = (Returned (spread [DEFAULT_SETTINGS; saved]), w).
Proof.
  intros Hfile Hparse Hread.
  unfold loadGlobalSettings, bind, tryCatch, existsSync, readFileSync, jsonParse.
  unfold getSettingsPath in *. cbn [lookupNode Fs.join fold_left] in *.
  rewrite Hfile. cbn [negb]. rewrite Hread, Hfile, Hparse. reflexivity.
Qed.

End SettingsFacts.

(** X16. After [setActiveConfigType(type)] returned, the settings file
    holds the settings that were loaded with [activeType] set to [type], no
    other file has changed, and, when [JSON.parse] reads the text back,
    loading gives [type] as the active type (so that [isOmosMode] is true
    exactly for ["slim"]) and every other setting as it was. *)
Theorem setActiveConfigType_roundtrip (env : Env) (DEFAULT_SETTINGS : JsonObject)
    (configType : string) (w w' : World) :
  setActiveConfigType env DEFAULT_SETTINGS configType w = (Returned tt, w') ->
  exists settings,
    let saved := Obj.set "activeType" (JString configType) settings in
    loadGlobalSettings env DEFAULT_SETTINGS w = (Returned settings, w)
    /\ fileAt w' (getSettingsPath env) = Some (stringifyPretty (JObject saved), nowMs env)
    /\ (forall p, p <> getSettingsPath env -> fileAt w' p = fileAt w p)
    /\ (JSON_parse env (stringifyPretty (JObject saved)) = Some (JObject saved) ->
        denied env OpRead (getSettingsPath env) = false ->
        getActiveConfigType env DEFAULT_SETTINGS w'
        = (Returned (Some (JString configType)), w')
        /\ isOmosMode env DEFAULT_SETTINGS w' = (Returned (String.eqb configType "slim"), w')
        /\ exists reloaded,
             loadGlobalSettings env DEFAULT_SETTINGS w' = (Returned reloaded, w')
             /\ forall name, name <> "activeType" ->
                             Obj.get name reloaded = Obj.get name settings).
Proof.
  unfold setActiveConfigType. intros H.
  destruct (loadGlobalSettings_run env DEFAULT_SETTINGS w) as (settings & Hload & Hnd & Hhas).
  rewrite (bind_run _ _ _ _ _ Hload) in H.
  exists settings. cbn zeta.
  unfold saveGlobalSettings in H.
  destruct (saveInto_Returned env (dirname (getSettingsPath env)) "settings.json" _ w w' H)
    as (_ & Hfile & Hframe & _).
  change (Child (dirname (getSettingsPath env)) "settings.json")
    with (getSettingsPath env) in Hfile, Hframe.
  split; [ exact Hload | split; [ | split; [ exact Hframe | ] ] ].
  { unfold fileAt. rewrite Hfile. reflexivity. }
  intros Hparse Hread.
  pose proof (loadGlobalSettings_saved env DEFAULT_SETTINGS w' _ _ Hfile Hparse Hread)
    as Hreload.
  assert (Hactive : Obj.get "activeType"
                      (spread [DEFAULT_SETTINGS;
                               Obj.set "activeType" (JString configType) settings])
                    = Some (JString configType)).
  { unfold spread. simpl. rewrite get_spread_step by (apply ObjFacts.set_NoDup, Hnd).
    rewrite ObjFacts.get_set. reflexivity. }
  split; [ | split ].
  - unfold getActiveConfigType. rewrite (bind_run _ _ _ _ _ Hreload). unfold ret.
    rewrite Hactive. reflexivity.
  - unfold isOmosMode, getActiveConfigType, bind. rewrite Hreload. unfold ret.
    rewrite Hactive. reflexivity.
  - eexists. split; [ exact Hreload | ].
    intros name Hne. unfold spread. simpl.
    rewrite get_spread_step by (apply ObjFacts.set_NoDup, Hnd).
    rewrite ObjFacts.get_set. destruct (String.eqb "activeType" name) eqn:E.
    + apply String.eqb_eq in E. congruence.
    + destruct (Obj.get name settings) as [v | ] eqn:Eget; [ reflexivity | ].
      apply ObjFacts.get_None. apply ObjFacts.has_false.
      rewrite has_fold_set. cbn [Obj.has map existsb orb].
      destruct (Obj.has name DEFAULT_SETTINGS) eqn:Ed; [ | reflexivity ].
      apply Hhas in Ed. rewrite ObjFacts.get_has, Eget in Ed. discriminate.
Qed.

Lemma findProjectRoot_nearest_witness :
  findProjectRoot Host.sampleEnv None Host.activeWorld
  = (Returned (Some Host.repo), Host.activeWorld)
  /\ resolveProjectRoot Host.sampleEnv None Host.activeWorld
     = (Returned Host.repo, Host.activeWorld).
Proof.
  apply (findProjectRoot_nearest Host.sampleEnv Host.activeWorld None Host.repo).
  - vm_compute. right. right. left.
  - reflexivity.
  - reflexivity.
  - intros d Hd Hroot Hne. cbn in Hd.
    apply elem_of_cons in Hd as [-> | Hd];
      [ split; [ vm_compute; discriminate | reflexivity ] | ].
    apply elem_of_cons in Hd as [-> | Hd];
      [ split; [ vm_compute; discriminate | reflexivity ] | ].
    apply elem_of_cons in Hd as [-> | Hd]; [ exfalso; apply Hne; reflexivity | ].
    apply elem_of_cons in Hd as [-> | Hd]; [ | inversion Hd ].
    exfalso. cbn in Hroot.
    apply elem_of_cons in Hroot as [Hroot | Hroot]; [ discriminate | inversion Hroot ].
Defined.


Lemma ensureProjectDirs_creates_witness :
  exists w',
    ensureProjectDirs Host.sampleEnv Host.repo Host.bareWorld = (Returned tt, w')
    /\ nodes w' !! getProjectConfigsPath Host.repo <> None
    /\ ensureProjectDirs Host.sampleEnv Host.repo w' = (Returned tt, w').
Proof.
  destruct (ensureProjectDirs Host.sampleEnv Host.repo Host.bareWorld) as [r w'] eqn:Hrun.
  assert (Hr : r = Returned tt).
  { apply (f_equal fst) in Hrun. vm_compute in Hrun. congruence. }
  subst r. exists w'. split; [ reflexivity | ].
  destruct (ensureProjectDirs_creates Host.sampleEnv Host.repo Host.bareWorld w' Hrun)
    as (_ & Hconfigs & _ & _ & _ & Hagain).
  split; [ exact Hconfigs | exact Hagain ].
Defined.

Lemma saveProjectRc_roundtrip_witness :
  exists w',
    saveProjectRc Host.sampleEnv Host.repo clearedRc Host.bareWorld = (Returned tt, w')
    /\ loadProjectRc Host.sampleEnv Host.repo w' = (Returned clearedRc, w').
Proof.
  destruct (saveProjectRc Host.sampleEnv Host.repo clearedRc Host.bareWorld)
    as [r w'] eqn:Hrun.
  assert (Hr : r = Returned tt).
  { apply (f_equal fst) in Hrun. vm_compute in Hrun. congruence. }
  subst r. exists w'. split; [ reflexivity | ].
  destruct (saveProjectRc_roundtrip Host.sampleEnv Host.repo clearedRc Host.bareWorld w' Hrun)
    as (_ & _ & _ & _ & Hload).
  apply Hload; reflexivity.
Defined.

Lemma setActiveConfigType_roundtrip_witness :
  exists w',
    setActiveConfigType Demo.onlineEnv Host.sampleDefaults "slim" Demo.darkWorld
    = (Returned tt, w')
    /\ isOmosMode Demo.onlineEnv Host.sampleDefaults w' = (Returned true, w').
Proof.
  destruct (setActiveConfigType Demo.onlineEnv Host.sampleDefaults "slim" Demo.darkWorld)
    as [r w'] eqn:Hrun.
  assert (Hr : r = Returned tt).
  { apply (f_equal fst) in Hrun. vm_compute in Hrun. congruence. }
  subst r. exists w'. split; [ reflexivity | ].
  destruct (setActiveConfigType_roundtrip Demo.onlineEnv Host.sampleDefaults "slim"
              Demo.darkWorld w' Hrun) as (settings & Hload & _ & _ & Hback).
  assert (Hs : settings = [("activeType", JString "omo"); ("theme", JString "dark")]).
  { assert (E : fst (loadGlobalSettings Demo.onlineEnv Host.sampleDefaults Demo.darkWorld)
                = Returned [("activeType", JString "omo"); ("theme", JString "dark")])
      by (vm_compute; reflexivity).
    rewrite Hload in E. cbn in E. congruence. }
  subst settings.
  destruct Hback as (_ & Hmode & _); [ reflexivity | reflexivity | exact Hmode ].
Defined.
(** ** The user configuration: where it is found and where it is written *)

Section ConfigPathFacts.

Variable env : Env.

(** [firstExisting] returns the first candidate that exists, and only
    looks. *)
Lemma firstExisting_run (candidates : list Path) (w : World) :
  firstExisting candidates w
  = (Returned (List.find (fun p => match lookupNode w p with
                                   | Some _ => true
                                   | None => false
                                   end) candidates), w).
Proof.
  induction candidates as [ | p rest IH ]; simpl; [ reflexivity | ].
  unfold bind, existsSync. destruct (lookupNode w p); [ reflexivity | exact IH ].
Qed.

End ConfigPathFacts.

(** X17. [findExistingConfigPath] and [getConfigTargetDir] only look, and
    agree: a configuration that is found exists, it is a [.json] file only
    when its directory has no [.jsonc] file, and the target directory is its
    directory; when none is found, the target directory is the preferred one
    and holds neither file. *)
Theorem getConfigTargetDir_follows_existing (env : Env) (w : World) :
  exists found dir,
    findExistingConfigPath env w = (Returned found, w)
    /\ getConfigTargetDir env w = (Returned dir, w)
    /\ match found with
       | Some p =>
           nodes w !! p <> None
           /\ dir = dirname p
           /\ (basename p = "oh-my-opencode.jsonc"
               \/ (basename p = "oh-my-opencode.json"
                   /\ nodes w !! Child dir "oh-my-opencode.jsonc" = None))
       | None =>
           dir = (if isWindows env
                  then Fs.join (userProfileDir env) [".config"; "opencode"]
                  else unixConfigDir env)
           /\ nodes w !! Child dir "oh-my-opencode.jsonc" = None
           /\ nodes w !! Child dir "oh-my-opencode.json" = None
       end.
Proof.
  unfold getConfigTargetDir, findExistingConfigPath. destruct (isWindows env).
  - unfold bind. rewrite firstExisting_run. cbn [List.find lookupNode].
    set (preferredDir := Fs.join (userProfileDir env) [".config"; "opencode"]).
    set (fallbackDir := Fs.join (appDataDir env) ["opencode"]).
    destruct (nodes w !! Child preferredDir "oh-my-opencode.jsonc") eqn:E1.
    { eexists _, _. split; [ reflexivity | split; [ reflexivity | ] ].
      split; [ congruence | split; [ reflexivity | left; reflexivity ] ]. }
    destruct (nodes w !! Child preferredDir "oh-my-opencode.json") eqn:E2.
    { eexists _, _. split; [ reflexivity | split; [ reflexivity | ] ].
      split; [ congruence | split; [ reflexivity | right; split; [ reflexivity | exact E1 ] ] ]. }
    destruct (nodes w !! Child fallbackDir "oh-my-opencode.jsonc") eqn:E3.
    { eexists _, _. split; [ reflexivity | split; [ reflexivity | ] ].
      split; [ congruence | split; [ reflexivity | left; reflexivity ] ]. }
    destruct (nodes w !! Child fallbackDir "oh-my-opencode.json") eqn:E4.
    { eexists _, _. split; [ reflexivity | split; [ reflexivity | ] ].
      split; [ congruence | split; [ reflexivity | right; split; [ reflexivity | exact E3 ] ] ]. }
    eexists _, _. split; [ reflexivity | split; [ reflexivity | ] ].
    split; [ reflexivity | split; assumption ].
  - rewrite firstExisting_run. cbn [List.find lookupNode].
    destruct (nodes w !! Child (unixConfigDir env) "oh-my-opencode.jsonc") eqn:E1.
    { eexists _, _. split; [ reflexivity | split; [ reflexivity | ] ].
      split; [ congruence | split; [ reflexivity | left; reflexivity ] ]. }
    destruct (nodes w !! Child (unixConfigDir env) "oh-my-opencode.json") eqn:E2.
    { eexists _, _. split; [ reflexivity | split; [ reflexivity | ] ].
      split; [ congruence | split; [ reflexivity | right; split; [ reflexivity | exact E1 ] ] ]. }
    eexists _, _. split; [ reflexivity | split; [ reflexivity | ] ].
    split; [ reflexivity | split; assumption ].
Qed.

(** ** The downloader *)

(** X18. [downloadFile] writes nothing when the request fails; when it
    returns, the cache directory was there, [meta.json] holds the given
    properties and the time of the download, the file holds the body of the
    answer (unless it is [meta.json] itself), and no other file has
    changed. *)
Theorem downloadFile_writes (env : Env) (url : string) (cacheDir : Path)
    (fileName : string) (meta : JsonObject) (w w' : World) (r : Outcome bool) :
  downloadFile env url cacheDir fileName meta w = (r, w') ->
  (forall c, r <> Exited c)
  /\ (httpGet env url = None -> w' = w /\ exists e, r = Thrown e)
  /\ (forall done, r = Returned done ->
        done = true
        /\ lookupNode w cacheDir = Some Dir
        /\ fileAt w' (Child cacheDir "meta.json")
           = Some (stringifyPretty
                     (JObject (spread [meta; [("updatedAt", JString (nowISO env))]])),
                   nowMs env)
        /\ (fileName <> "meta.json" ->
            exists body, httpGet env url = Some body
                         /\ fileAt w' (Child cacheDir fileName) = Some (body, nowMs env))
        /\ forall p, p <> Child cacheDir fileName -> p <> Child cacheDir "meta.json" ->
                     fileAt w' p = fileAt w p).
Proof.
  unfold downloadFile. destruct (httpGet env url) as [body | ].
  - intros H. split; [ | split; [ discriminate | ] ].
    + intros c ->.
      assert (Ht : tame anywhere
                     (let! _ := writeFileSync env (Child cacheDir fileName) body in
                      let! _ := writeFileSync env (Child cacheDir "meta.json")
                                  (stringifyPretty
                                     (JObject (spread [meta; [("updatedAt", JString (nowISO env))]]))) in
                      ret true)).
      { apply tame_bind; [ apply tame_writeFileSync; exact I | intros ? ].
        apply tame_bind; [ apply tame_writeFileSync; exact I | intros ? ]. apply tame_ret. }
      destruct (Ht _ _ _ H) as [Hne _]. exact (Hne c eq_refl).
    + intros done ->.
      apply bind_Returned in H as ([] & w1 & H1 & H).
      apply bind_Returned in H as ([] & w2 & H2 & H).
      injection H as <- <-.
      pose proof (writeFileSync_parent env _ _ _ _ _ H1) as Hdir.
      apply writeFileSync_Returned in H1. apply writeFileSync_Returned in H2.
      subst w2 w1. unfold fileAt. cbn [nodes].
      split; [ reflexivity | split; [ exact Hdir | split; [ | split ] ] ].
      * rewrite lookup_insert_eq. reflexivity.
      * intros Hne. exists body. split; [ reflexivity | ].
        rewrite lookup_insert_ne by congruence. rewrite lookup_insert_eq. reflexivity.
      * intros p Hp1 Hp2. rewrite !lookup_insert_ne by congruence. reflexivity.
  - intros [= <- <-]. split; [ discriminate | split; [ | discriminate ] ].
    intros _. split; [ reflexivity | eexists; reflexivity ].
Qed.

(** ** Making the schema available *)

Section SchemaFacts.

Variable env : Env.

(** Two writes into one directory, the second into [meta.json]: the first
    file is there afterwards when it has another name. *)
Lemma written_then_meta (dir : Path) (name content metaText : string) (w w1 w' : World) :
  name <> "meta.json" ->
  writeFileSync env (Child dir name) content w = (Returned tt, w1) ->
  writeFileSync env (Child dir "meta.json") metaText w1 = (Returned tt, w') ->
  nodes w' !! Child dir name = Some (File content (nowMs env)).
Proof.
  intros Hne H1 H2. apply writeFileSync_Returned in H1, H2. subst. cbn [nodes].
  rewrite lookup_insert_ne by congruence. apply lookup_insert_eq.
Qed.

End SchemaFacts.

(** X19. [ensureSchemaAvailable] does not end the process and touches no
    file but the schema and [meta.json] of the schema cache.  With a schema
    in the cache it returns its path and changes nothing; and whenever it
    returns, it returns that path and a schema is there. *)
Theorem ensureSchemaAvailable_cached (env : Env) (w w' : World) (r : Outcome Path) :
  ensureSchemaAvailable env w = (r, w') ->
  let schemaPath := Child (StoreManager.getCacheSchemaPath env) SCHEMA_FILE in
  (forall c, r <> Exited c)
  /\ (forall p, p <> schemaPath ->
                p <> Child (StoreManager.getCacheSchemaPath env) "meta.json" ->
                fileAt w' p = fileAt w p)
  /\ (nodes w !! schemaPath <> None -> r = Returned schemaPath /\ w' = w)
  /\ (forall p, r = Returned p -> p = schemaPath /\ nodes w' !! schemaPath <> None).
Proof.
  intros H. cbn zeta.
  assert (Hneq : SCHEMA_FILE <> "meta.json") by (unfold SCHEMA_FILE; discriminate).
  assert (Htame : tame (fun p => p = Child (StoreManager.getCacheSchemaPath env) SCHEMA_FILE
                                 \/ p = Child (StoreManager.getCacheSchemaPath env) "meta.json")
                       (ensureSchemaAvailable env)).
  { apply tame_ensureSchemaAvailable; [ left | right ]; reflexivity. }
  destruct (Htame _ _ _ H) as [Hne [Hframe _]].
  split; [ exact Hne | split ].
  { intros p Hp1 Hp2. apply Hframe. intros [Hp | Hp]; contradiction. }
  revert H. unfold ensureSchemaAvailable, bind at 1, existsSync. cbn [lookupNode].
  destruct (nodes w !! Child (StoreManager.getCacheSchemaPath env) SCHEMA_FILE) as [node | ] eqn:E.
  - intros [= <- <-]. split; [ auto | ]. intros p [= <-]. split; [ reflexivity | congruence ].
  - split; [ contradiction | ]. intros p ->. revert H. unfold tryCatch.
    destruct (bind (downloadFile env SCHEMA_URL _ SCHEMA_FILE _) _ w) as [[a | e | c] w1] eqn:Hd.
    + intros [= <- <-].
      apply bind_Returned in Hd as (done & w2 & Hd & Hret).
      unfold ret in Hret. injection Hret as <- <-.
      split; [ reflexivity | ].
      unfold downloadFile in Hd. destruct (httpGet env SCHEMA_URL) as [body | ]; [ | discriminate ].
      apply bind_Returned in Hd as ([] & w3 & H1 & Hd).
      apply bind_Returned in Hd as ([] & w4 & H2 & Hd). unfold ret in Hd. injection Hd as _ <-.
      rewrite (written_then_meta env _ _ _ _ _ _ _ Hneq H1 H2). discriminate.
    + intros H. apply bind_Returned in H as (bundled & w2 & _ & H).
      destruct bundled as [text | ]; [ | discriminate ].
      destruct (negb (String.eqb text EmptyString)); [ | discriminate ].
      apply bind_Returned in H as ([] & w3 & Hsave & H). unfold ret in H. injection H as <- <-.
      split; [ reflexivity | ].
      unfold StoreManager.saveCacheFile in Hsave.
      apply bind_Returned in Hsave as (found & w4 & _ & Hsave).
      apply bind_Returned in Hsave as ([] & w5 & _ & Hsave).
      apply bind_Returned in Hsave as ([] & w6 & H1 & H2).
      rewrite (written_then_meta env _ _ _ _ _ _ _ Hneq H1 H2). discriminate.
    + discriminate.
Qed.

Lemma downloadFile_writes_witness :
  exists w',
    downloadFile Demo.onlineEnv SCHEMA_URL (StoreManager.getCacheSchemaPath Demo.onlineEnv)
      SCHEMA_FILE [("source", JString "github")] Demo.emptyCacheWorld = (Returned true, w')
    /\ fileAt w' (Child (StoreManager.getCacheSchemaPath Demo.onlineEnv) SCHEMA_FILE)
       = Some (stringify Host.agentsSchema, nowMs Demo.onlineEnv).
Proof.
  destruct (downloadFile Demo.onlineEnv SCHEMA_URL
              (StoreManager.getCacheSchemaPath Demo.onlineEnv) SCHEMA_FILE
              [("source", JString "github")] Demo.emptyCacheWorld) as [r w'] eqn:Hrun.
  assert (Hr : r = Returned true).
  { apply (f_equal fst) in Hrun. vm_compute in Hrun. congruence. }
  subst r. exists w'. split; [ reflexivity | ].
  destruct (downloadFile_writes Demo.onlineEnv _ _ _ _ _ _ _ Hrun) as (_ & _ & Hdone).
  destruct (Hdone true eq_refl) as (_ & _ & _ & Hfile & _).
  destruct Hfile as (body & Hbody & Hfile); [ discriminate | ].
  injection Hbody as <-. exact Hfile.
Defined.

Lemma ensureSchemaAvailable_cached_witness :
  ensureSchemaAvailable Host.sampleEnv Host.orphanWorld
  = (Returned (Child (StoreManager.getCacheSchemaPath Host.sampleEnv) SCHEMA_FILE),
     Host.orphanWorld).
Proof.
  destruct (ensureSchemaAvailable Host.sampleEnv Host.orphanWorld) as [r w'] eqn:Hrun.
  destruct (ensureSchemaAvailable_cached Host.sampleEnv Host.orphanWorld w' r Hrun)
    as (_ & _ & Hcached & _).
  destruct Hcached as [-> ->]; [ vm_compute; discriminate | reflexivity ].
Defined.
(** ** Removing a profile: leaving without deleting *)

Section RmAborts.

Variable env : Env.
Variable force : bool.

Lemma tame_unlinkSync (allowed : Path -> Prop) (p : Path) :
  allowed p -> tame allowed (unlinkSync env p).
Proof.
  intros Hp w r w'. unfold unlinkSync.
  destruct (denied env OpUnlink p); [ intros [= <- <-]; split; [ discriminate | apply framed_refl ] | ].
  destruct (nodes w !! p) as [[c m | ] | ] eqn:E; intros [= <- <-];
    (split; [ discriminate | ]); try apply framed_refl.
  split.
  - intros q Hq. unfold fileAt. cbn. rewrite lookup_delete_ne; [ reflexivity | ].
    intros ->. contradiction.
  - exists []. split; [ cbn; rewrite app_nil_r; reflexivity | intros [] ].
Qed.

Lemma tame_deleteProfile (id : string) : tame anywhere (StoreManager.deleteProfile env id).
Proof.
  unfold StoreManager.deleteProfile, StoreManager.getProfileConfigPath.
  apply tame_bind; [ apply tame_loadIndex | intros index ].
  apply tame_bind; [ apply tame_resolveConfigPath | intros resolved ].
  apply tame_bind; [ destruct resolved; [ apply tame_unlinkSync; exact I | apply tame_ret ] | intros ? ].
  apply tame_saveIndex. exact I.
Qed.

Lemma tame_deleteProfileConfig (root : Path) (id : string) :
  tame anywhere (ProjectStoreManager.deleteProfileConfig env root id).
Proof.
  unfold ProjectStoreManager.deleteProfileConfig, ProjectStoreManager.getProfileConfigPath.
  apply tame_bind; [ apply tame_resolveConfigPath | intros resolved ].
  destruct resolved; [ | apply tame_ret ].
  apply tame_bind; [ apply tame_unlinkSync; exact I | intros ? ]. apply tame_ret.
Qed.

Lemma tame_resetActiveProfile (root : Path) (id : string) :
  tame anywhere (resetActiveProfile env root id).
Proof.
  unfold resetActiveProfile, ProjectStoreManager.loadRc, ProjectStoreManager.saveRc.
  apply tame_bind; [ unfold loadProjectRc; tame_auto | intros rc ].
  destruct (truthy rc && _); [ apply tame_saveProjectRc | apply tame_ret ].
Qed.

(** The prompt returns an answer and only prints; a declined removal gets
    the answer no. *)
Lemma confirmUnlessForced_run (message : string) (w : World) :
  exists answer printed,
    confirmUnlessForced env force message w = (Returned answer, mkWorld (nodes w) printed)
    /\ (declines env force -> answer = false).
Proof.
  unfold confirmUnlessForced. destruct force.
  - exists true, (output w). split; [ destruct w; reflexivity | intros [H _]; discriminate ].
  - destruct (confirmAnswer env message) eqn:E.
    + eexists true, _. split; [ reflexivity | ]. intros [_ H]. rewrite H in E. discriminate.
    + eexists false, _. split; [ reflexivity | reflexivity ].
Qed.

Lemma deletesOrThrows_ret (deletedFrom : string) :
  deletesOrThrows (ret (Rm.DeletedFrom deletedFrom)).
Proof. intros w r w' [= <- <-]. exact I. Qed.

Lemma deletesOrThrows_bind {A} (m : Eff A) (k : A -> Eff Rm.Step) :
  tame anywhere m -> (forall a, deletesOrThrows (k a)) -> deletesOrThrows (bind m k).
Proof.
  intros Hm Hk w r w'. unfold bind.
  destruct (m w) as [[a | e | c] w1] eqn:E; destruct (Hm _ _ _ E) as [Hne _].
  - apply Hk.
  - intros [= <- <-]. exact I.
  - exfalso. exact (Hne c eq_refl).
Qed.

(** What follows a prompt: nothing when the answer is no, else statements
    that delete. *)
Lemma answered_stepClean (rest : Eff Rm.Step) (answer : bool) (w0 : World) :
  deletesOrThrows rest ->
  (declines env force -> answer = false) ->
  forall w r w',
    nodes w = nodes w0 ->
    (if negb answer then ret Rm.Cancelled else rest) w = (r, w') ->
    match r with
    | Returned (Rm.DeletedFrom _) => ~ declines env force
    | Thrown _ => ~ declines env force
    | Returned _ => nodes w' = nodes w0
    | Exited c => c = 1 /\ nodes w' = nodes w0
    end.
Proof.
  intros Hrest Hanswer w r w' Hw. destruct answer; cbn [negb].
  - intros H. specialize (Hrest _ _ _ H).
    destruct r as [[ | | d] | e | c]; try contradiction;
      intros Hd; specialize (Hanswer Hd); discriminate.
  - intros [= <- <-]. exact Hw.
Qed.

Ltac deleting :=
  repeat first
    [ apply deletesOrThrows_ret
    | apply deletesOrThrows_bind; [ | intros ? ]
    | apply tame_emit; discriminate
    | apply tame_deleteProfile
    | apply tame_deleteProfileConfig
    | apply tame_resetActiveProfile ].

Lemma rmFromUser_stepClean (id : string) : stepClean env force (rmFromUser env id force).
Proof.
  intros w r w'. unfold rmFromUser.
  rewrite (bind_run _ _ _ _ _ (emit_run _ w)).
  rewrite (bind_run _ _ _ _ _ (loadIndex_run env _)).
  destruct (findProfileById _ id).
  - destruct (confirmUnlessForced_run
                ("Are you sure you want to delete profile '" +:+ id +:+ "'?")
                (mkWorld (nodes w) (output w ++ [SpinnerText "Checking global store..."])))
      as (answer & printed & Hconfirm & Hanswer).
    rewrite (bind_run _ _ _ _ _ Hconfirm).
    apply (answered_stepClean _ answer w); [ deleting | exact Hanswer | reflexivity ].
  - intros [= <- <-]. split; reflexivity.
Qed.

Lemma rmFromProject_stepClean (id : string) (projectRoot : option Path) :
  stepClean env force (rmFromProject env id force projectRoot).
Proof.
  intros w r w'. unfold rmFromProject.
  rewrite (bind_run _ _ _ _ _ (emit_run _ w)).
  destruct projectRoot as [root | ].
  - rewrite (bind_run _ _ _ _ _ (configExists_run root id _)).
    destruct (resolvedIn _ _ id); cbn [negb].
    + destruct (confirmUnlessForced_run
                  ("Are you sure you want to delete profile '" +:+ id +:+ "'?")
                  (mkWorld (nodes w) (output w ++ [SpinnerText "Checking project store..."])))
        as (answer & printed & Hconfirm & Hanswer).
      rewrite (bind_run _ _ _ _ _ Hconfirm).
      apply (answered_stepClean _ answer w); [ deleting | exact Hanswer | reflexivity ].
    + intros [= <- <-]. split; reflexivity.
  - intros [= <- <-]. split; reflexivity.
Qed.

Lemma rmFromEither_stepClean (id : string) (projectRoot : option Path) :
  stepClean env force (rmFromEither env id force projectRoot).
Proof.
  intros w r w'. unfold rmFromEither.
  rewrite (bind_run _ _ _ _ _ (emit_run _ w)).
  set (w0 := mkWorld (nodes w) (output w ++ [SpinnerText "Searching for profile..."])).
  assert (Hglobal : forall w1 : World,
             nodes w1 = nodes w ->
             (let! index := StoreManager.loadIndex env in
              match findProfileById index id with
              | None => ret Rm.NotFound
              | Some _ =>
                  let! proceed :=
                    confirmUnlessForced env force
                      ("Delete profile '" +:+ id +:+ "' from global store?") in
                  if negb proceed then ret Rm.Cancelled
                  else
                    let! _ := emit (SpinnerText "Deleting profile from global store...") in
                    let! _ := StoreManager.deleteProfile env id in
                    ret (Rm.DeletedFrom "user")
              end) w1 = (r, w') ->
             match r with
             | Returned (Rm.DeletedFrom _) => ~ declines env force
             | Thrown _ => ~ declines env force
             | Returned _ => nodes w' = nodes w
             | Exited c => c = 1 /\ nodes w' = nodes w
             end).
  { intros w1 Hw1. rewrite (bind_run _ _ _ _ _ (loadIndex_run env _)).
    destruct (findProfileById _ id).
    - destruct (confirmUnlessForced_run
                  ("Delete profile '" +:+ id +:+ "' from global store?") w1)
        as (answer & printed & Hconfirm & Hanswer).
      rewrite (bind_run _ _ _ _ _ Hconfirm).
      apply (answered_stepClean _ answer w); [ deleting | exact Hanswer | exact Hw1 ].
    - intros [= <- <-]. exact Hw1. }
  unfold bind at 1.
  destruct projectRoot as [root | ].
  - rewrite (bind_run _ _ _ _ _ (configExists_run root id _)).
    destruct (resolvedIn _ _ id); cbn [negb].
    + destruct (confirmUnlessForced_run
                  ("Delete profile '" +:+ id +:+ "' from project?") w0)
        as (answer & printed & Hconfirm & Hanswer).
      rewrite (bind_run _ _ _ _ _ Hconfirm).
      match goal with
      | |- context [(if negb answer then ret Rm.Cancelled else ?rest) ?w1] =>
          destruct ((if negb answer then ret Rm.Cancelled else rest) w1)
            as [inProject w2] eqn:Hproject;
          pose proof (answered_stepClean rest answer w ltac:(deleting) Hanswer w1 _ _
                        eq_refl Hproject) as Hclean
      end.
      destruct inProject as [[ | | d] | e | c].
      * intros [= <- <-]. exact Hclean.
      * apply Hglobal. exact Hclean.
      * intros [= <- <-]. exact Hclean.
      * intros [= <- <-]. exact Hclean.
      * intros [= <- <-]. exact Hclean.
    + apply Hglobal. reflexivity.
  - apply Hglobal. reflexivity.
Qed.

End RmAborts.

(** X20. [handleOmoRm] ends the process with code 1 only, and then it has
    left the file tree as it was; and when the removal is declined (no
    [--force], the prompt answered no) it leaves the tree as it was and does
    not throw. *)
Theorem handleOmoRm_aborts_cleanly (env : Env) (profileId : string)
    (options : Rm.RmOptions) (projectRoot : option Path) (w w' : World)
    (r : Outcome unit) :
  handleOmoRm env profileId options projectRoot w = (r, w') ->
  (forall c, r = Exited c -> c = 1 /\ nodes w' = nodes w)
  /\ (declines env (Rm.force options) ->
      nodes w' = nodes w /\ forall e, r <> Thrown e).
Proof.
  unfold handleOmoRm. unfold bind at 1.
  destruct (isSet (Rm.scope options) && _ && _).
  { intros [= <- <-]. split; [ intros c [= <-]; split; reflexivity | ].
    intros _. split; [ reflexivity | discriminate ]. }
  unfold ret at 1. unfold bind at 1.
  match goal with
  | |- context [(if ?a then ?x else if ?b then ?y else ?z) w] =>
      assert (Hstep : stepClean env (Rm.force options) (if a then x else if b then y else z))
        by (destruct a; [ apply rmFromUser_stepClean | ];
            destruct b; [ apply rmFromProject_stepClean | apply rmFromEither_stepClean ]);
      destruct ((if a then x else if b then y else z) w) as [rs w1] eqn:E
  end.
  specialize (Hstep _ _ _ E).
  destruct rs as [[ | | d] | e | c].
  - intros [= <- <-]. split; [ discriminate | ]. intros _. split; [ exact Hstep | discriminate ].
  - intros [= <- <-]. split; [ intros c [= <-]; split; [ reflexivity | exact Hstep ] | ].
    intros _. split; [ exact Hstep | discriminate ].
  - intros [= <- <-]. split; [ discriminate | ]. intros Hd. contradiction.
  - intros [= <- <-]. split; [ discriminate | ]. intros Hd. contradiction.
  - intros [= <- <-]. destruct Hstep as [-> Hnodes].
    split; [ intros c' [= <-]; split; [ reflexivity | exact Hnodes ] | ].
    intros _. split; [ exact Hnodes | discriminate ].
Qed.

(** ** Applying a profile: what a run that returns has written *)

Section ApplyWrites.

Variable env : Env.

Lemma emit_Returned (e : Event) (w w' : World) (u : unit) :
  emit e w = (Returned u, w') -> nodes w' = nodes w.
Proof. intros [= _ <-]. reflexivity. Qed.

(** Printing an optional line. *)
Lemma emitWhen_Returned {A} (x : option A) (f : A -> Event) (w w' : World) (u : unit) :
  match x with Some a => emit (f a) | None => ret tt end w = (Returned u, w') ->
  nodes w' = nodes w.
Proof. destruct x; intros [= _ <-]; reflexivity. Qed.

Lemma applyValidated_Returned (scope : string) (projectRoot : option Path)
    (profile : Types.Profile) (content source : string) (index : Types.StoreIndex)
    (w w' : World) :
  applyValidated env scope projectRoot profile content source index w = (Returned tt, w') ->
  exists targetPath,
    basename targetPath = TARGET_CONFIG_FILE
    /\ (forall root, projectRoot = Some root -> targetPath = getProjectTargetPath root)
    /\ fileAt w' targetPath
       = Some (("// Profile Name: " +:+ Types.name profile +:+ ", edited by omo-switch")
               +:+ Str.nl +:+ content, nowMs env)
    /\ match projectRoot with
       | Some root =>
           fileAt w' (getProjectRcPath root)
           = Some (stringifyPretty (JObject [("activeProfileId", JString (Types.id profile))]),
                   nowMs env)
       | None =>
           fileAt w' (StoreManager.getIndexPath env)
           = Some (stringifyPretty
                     (encodeIndex
                        {| Types.storeVersion := Types.storeVersion index;
                           Types.activeProfileId := Some (Types.id profile);
                           Types.profiles := Types.profiles index |}),
                   nowMs env)
       end.
Proof.
  unfold applyValidated. intros H.
  apply bind_Returned in H as (located & w1 & Hlocated & H).
  assert (Htarget : basename (fst located) = TARGET_CONFIG_FILE
                    /\ forall root, projectRoot = Some root ->
                                    fst located = getProjectTargetPath root).
  { destruct projectRoot as [root | ].
    - apply bind_Returned in Hlocated as (? & ? & _ & Hlocated).
      apply bind_Returned in Hlocated as (? & ? & _ & Hlocated).
      apply bind_Returned in Hlocated as (? & ? & _ & Hlocated).
      injection Hlocated as <- _. split; [ reflexivity | ]. intros ? [= <-]. reflexivity.
    - apply bind_Returned in Hlocated as (? & ? & _ & Hlocated).
      apply bind_Returned in Hlocated as (targetDir & ? & _ & Hlocated).
      apply bind_Returned in Hlocated as (? & ? & _ & Hlocated).
      apply bind_Returned in Hlocated as (? & ? & _ & Hlocated).
      apply bind_Returned in Hlocated as (hasJsonc & ? & _ & Hlocated).
      destruct hasJsonc.
      + apply bind_Returned in Hlocated as (? & ? & _ & Hlocated).
        injection Hlocated as <- _. split; [ reflexivity | discriminate ].
      + apply bind_Returned in Hlocated as (hasJson & ? & _ & Hlocated).
        destruct hasJson.
        * apply bind_Returned in Hlocated as (? & ? & _ & Hlocated).
          injection Hlocated as <- _. split; [ reflexivity | discriminate ].
        * injection Hlocated as <- _. split; [ reflexivity | discriminate ]. }
  destruct Htarget as [Hname Hproject].
  destruct located as [targetPath backupPath]. cbn [fst snd] in *.
  apply bind_Returned in H as ([] & w2 & _ & H).
  apply bind_Returned in H as ([] & w3 & _ & H).
  apply bind_Returned in H as ([] & w4 & Hwrite & H).
  apply bind_Returned in H as ([] & w5 & Hmark & H).
  apply bind_Returned in H as ([] & w6 & H6 & H). apply emit_Returned in H6.
  apply bind_Returned in H as ([] & w7 & H7 & H). apply emit_Returned in H7.
  apply bind_Returned in H as ([] & w8 & H8 & H). apply emit_Returned in H8.
  apply emitWhen_Returned in H.
  assert (Hnodes : nodes w' = nodes w5) by congruence.
  apply writeFileSync_Returned in Hwrite.
  exists targetPath. split; [ exact Hname | split; [ exact Hproject | ] ].
  unfold fileAt. rewrite Hnodes.
  destruct projectRoot as [root | ].
  - rewrite (Hproject root eq_refl) in *.
    unfold ProjectStoreManager.saveRc, saveProjectRc in Hmark.
    cbn [getProjectRcPath Fs.join fold_left dirname] in Hmark.
    destruct (saveInto_Returned env _ _ _ _ _ Hmark) as (_ & Hfile & Hframe & _).
    split.
    + specialize (Hframe (getProjectTargetPath root)). unfold fileAt in Hframe.
      rewrite Hframe by (cbn; intros [= ?]; discriminate).
      subst w4. cbn [nodes]. rewrite lookup_insert_eq. reflexivity.
    + cbn [getProjectRcPath Fs.join fold_left]. rewrite Hfile. reflexivity.
  - unfold StoreManager.saveIndex in Hmark. apply writeFileSync_Returned in Hmark.
    subst w5 w4. cbn [nodes]. split.
    + rewrite lookup_insert_ne.
      * rewrite lookup_insert_eq. reflexivity.
      * destruct targetPath as [ | parent name ]; [ discriminate | ].
        cbn in Hname. subst name. unfold StoreManager.getIndexPath. intros [= ?].
    + rewrite lookup_insert_eq. reflexivity.
Qed.

End ApplyWrites.

(** X21. A run of [handleOmoApply] that returns has staged a profile the
    identifier names, with a content that is the text of a raw profile file
    of the tree the run began with ([stagedFrom] says of which store and
    which id), that [JSON5.parse] read and that the validator the run built
    accepted without a message.  The run has written, at a target path
    named [oh-my-opencode.jsonc], the header comment with the name of the
    staged profile and below it that content; and it has recorded the id of
    the staged profile as the active one, in the project rc file or in the
    global index. *)
Theorem handleOmoApply_writes_validated (env : Env) (identifier scope : string)
    (w w' : World) :
  handleOmoApply env identifier scope w = (Returned tt, w') ->
  (scope = "user" \/ scope = "project")
  /\ exists staged w1 configPath mtime targetPath,
       stageProfile env identifier scope w = (Returned staged, w1)
       /\ (matchesProfile identifier (stagedProfile staged) = true
           \/ matchesId identifier (Types.id (stagedProfile staged)) = true)
       /\ fileAt w configPath = Some (stagedContent staged, mtime)
       /\ stagedFrom env identifier staged configPath
       /\ JSON5_parse env (stagedContent staged) = Some (stagedConfig staged)
       /\ validate (stagedValidator staged) (stagedConfig staged) = (true, [])
       /\ basename targetPath = TARGET_CONFIG_FILE
       /\ fileAt w' targetPath
          = Some (("// Profile Name: " +:+ Types.name (stagedProfile staged)
                   +:+ ", edited by omo-switch")
                  +:+ Str.nl +:+ stagedContent staged, nowMs env)
       /\ (scope = "project" ->
           exists root,
             stagedRoot staged = Some root
             /\ targetPath = getProjectTargetPath root
             /\ fileAt w' (getProjectRcPath root)
                = Some (stringifyPretty
                          (JObject [("activeProfileId",
                                     JString (Types.id (stagedProfile staged)))]),
                        nowMs env))
       /\ (scope <> "project" ->
           stagedRoot staged = None
           /\ fileAt w' (StoreManager.getIndexPath env)
              = Some (stringifyPretty
                        (encodeIndex
                           {| Types.storeVersion := Types.storeVersion (stagedIndex staged);
                              Types.activeProfileId := Some (Types.id (stagedProfile staged));
                              Types.profiles := Types.profiles (stagedIndex staged) |}),
                      nowMs env)).
Proof.
  unfold handleOmoApply. intros H.
  apply bind_Returned in H as (staged & w1 & Hstage & H).
  destruct (stageProfile_staged env _ _ _ _ _ Hstage)
    as (Hscope & Hparse & Hroot & Hnamed & configPath & mtime & Hcontent & Hfrom).
  split; [ exact Hscope | ].
  destruct (validate (stagedValidator staged) (stagedConfig staged)) as [valid errors]
    eqn:Evalid.
  cbn [fst snd] in H.
  destruct valid; cbn [negb] in H;
    [ | rewrite reportInvalid_run in H; discriminate ].
  assert (errors = []) as ->.
  { unfold validate in Evalid. destruct (stagedValidator staged) as [check | ]; [ | discriminate ].
    destruct (check (stagedConfig staged)) as [[ | ] ?]; congruence. }
  destruct (applyValidated_Returned env _ _ _ _ _ _ _ _ H)
    as (targetPath & Hname & Htarget & Hfile & Hmark).
  exists staged, w1, configPath, mtime, targetPath.
  split; [ exact Hstage | split; [ exact Hnamed | split; [ exact Hcontent | ] ] ].
  split; [ exact Hfrom | split; [ exact Hparse | split; [ exact Evalid | ] ] ].
  split; [ exact Hname | split; [ exact Hfile | ] ].
  destruct (stagedRoot staged) as [root | ].
  - split; [ | contradiction ]. intros _. exists root.
    split; [ reflexivity | split; [ apply Htarget; reflexivity | exact Hmark ] ].
  - split; [ contradiction | ]. intros _. split; [ reflexivity | exact Hmark ].
Qed.

(** ** The backup sweep, run again *)

Section SweepAgain.

Variable env : Env.


End SweepAgain.


Lemma handleOmoRm_aborts_cleanly_witness :
  exists w',
    handleOmoRm Demo.onlineEnv "work" {| Rm.scope := Some "user"; Rm.force := false |}
      (Some Host.repo) Host.activeWorld = (Returned tt, w')
    /\ nodes w' = nodes Host.activeWorld.
Proof.
  destruct (handleOmoRm Demo.onlineEnv "work"
              {| Rm.scope := Some "user"; Rm.force := false |}
              (Some Host.repo) Host.activeWorld) as [r w'] eqn:Hrun.
  assert (Hr : r = Returned tt).
  { apply (f_equal fst) in Hrun. vm_compute in Hrun. congruence. }
  subst r. exists w'. split; [ reflexivity | ].
  destruct (handleOmoRm_aborts_cleanly Demo.onlineEnv _ _ _ _ _ _ Hrun) as [_ Hdeclined].
  apply Hdeclined. split; reflexivity.
Defined.

Lemma handleOmoApply_writes_validated_witness :
  exists w' staged targetPath,
    handleOmoApply Demo.onlineEnv "good" "user" Demo.goodWorld = (Returned tt, w')
    /\ basename targetPath = TARGET_CONFIG_FILE
    /\ fileAt w' targetPath
       = Some (("// Profile Name: " +:+ Types.name (stagedProfile staged)
                +:+ ", edited by omo-switch")
               +:+ Str.nl +:+ stagedContent staged, nowMs Demo.onlineEnv).
Proof.
  destruct (handleOmoApply Demo.onlineEnv "good" "user" Demo.goodWorld) as [r w'] eqn:Hrun.
  assert (Hr : r = Returned tt).
  { apply (f_equal fst) in Hrun. vm_compute in Hrun. congruence. }
  subst r.
  destruct (handleOmoApply_writes_validated Demo.onlineEnv "good" "user" Demo.goodWorld w' Hrun)
    as (_ & staged & w1 & configPath & mtime & targetPath
        & _ & _ & _ & _ & _ & _ & Hname & Hfile & _).
  exists w', staged, targetPath.
  split; [ reflexivity | split; [ exact Hname | exact Hfile ] ].
Defined.

